(** * CoreAudio helper functions of mpv: a shallow embedding

    This development embeds the decision logic of
    [audio/out/ao_coreaudio_utils.c] and states its properties:

    - the format codec ([ca_make_asbd], [ca_make_mp_format]);
    - the format comparator ([ca_asbd_matches], [ca_asbd_best],
      [ca_asbd_better]);
    - the property listener and the asynchronous format switcher
      ([ca_property_listener], [ca_stream_listener],
      [ca_change_stream_listening], [ca_change_format]);
    - the channel layout resolver ([ca_label_to_mp_speaker_id],
      [ca_bitmap_from_ch_desc], [ca_bitmaps_from_layouts]).

    Conventions.  C integers are [Z], with the wrap-around of the
    unsigned 32-bit fields written out.  [mSampleRate] is a [Float64]
    in C; the code never computes with it, it only compares it ([==],
    [<], [>]), so a double is modelled by what the comparisons see: a
    NaN, an infinity, or the rational number a finite double denotes,
    compared exactly.  Calls into the CoreAudio HAL are steps of a
    state monad over an explicit model of the HAL. *)

From Stdlib Require Import ZArith QArith Lqa Lia Bool List String.
From stdpp Require Import base list gmap.
Import ListNotations.

Local Open Scope Z_scope.

(** ** Constants of the platform SDK (CoreAudioTypes.h, AudioHardware.h) *)

Module CoreAudio.

Definition noErr : Z := 0.

(** four-character codes, big-endian packed *)
Definition fourcc (a b c d : Z) : Z :=
    Z.lor (Z.shiftl a 24) (Z.lor (Z.shiftl b 16) (Z.lor (Z.shiftl c 8) d)).

(** ['lpcm'] *)
Definition kAudioFormatLinearPCM : Z := Eval cbv in fourcc 108 112 99 109.
(** ['sfmt'] *)
Definition kAudioStreamPropertyVirtualFormat : Z := Eval cbv in fourcc 115 102 109 116.
(** ['pft '] *)
Definition kAudioStreamPropertyPhysicalFormat : Z := Eval cbv in fourcc 112 102 116 32.
(** ['glob'] *)
Definition kAudioObjectPropertyScopeGlobal : Z := Eval cbv in fourcc 103 108 111 98.
Definition kAudioObjectPropertyElementMaster : Z := 0.

Definition kAudioFormatFlagIsFloat : Z := 1.
Definition kAudioFormatFlagIsBigEndian : Z := 2.
Definition kAudioFormatFlagIsSignedInteger : Z := 4.
Definition kAudioFormatFlagIsPacked : Z := 8.
Definition kAudioFormatFlagIsAlignedHigh : Z := 16.
Definition kAudioFormatFlagIsNonInterleaved : Z := 32.
Definition kAudioFormatFlagIsNonMixable : Z := 64.

Definition kAudioChannelLayoutTag_UseChannelDescriptions : Z := 0.
Definition kAudioChannelLayoutTag_UseChannelBitmap : Z := 65536.

End CoreAudio.
Import CoreAudio.

(** ** Machine integers *)

Definition uint32 (x : Z) : Z := x mod 2 ^ 32.

(** conversion of a [UInt32] value to [int] (two's complement) *)
Definition int_of_uint32 (x : Z) : Z :=
  if x <? 2 ^ 31 then x else x - 2 ^ 32.

(** a C condition: non-zero is true *)
Definition truthy (x : Z) : bool := negb (x =? 0).

(** ** Doubles *)

(** A [Float64] as the comparisons of C see it.  The two zeros of the
    format compare equal and are both [Finite 0]; a NaN compares
    unequal to, and neither below nor above, every double, itself
    included. *)
Inductive Float64 :=
| NaN
| NegInf
| Finite (q : Q)
| PosInf.

(** [x == y], [x < y] and [x > y] on doubles *)
Definition dbl_eq (x y : Float64) : bool :=
  match x, y with
  | NegInf, NegInf => true
  | PosInf, PosInf => true
  | Finite p, Finite q => Qeq_bool p q
  | _, _ => false
  end.

Definition dbl_lt (x y : Float64) : bool :=
  match x, y with
  | NaN, _ => false
  | _, NaN => false
  | _, NegInf => false
  | PosInf, _ => false
  | NegInf, _ => true
  | _, PosInf => true
  | Finite p, Finite q => negb (Qle_bool q p)
  end.

Definition dbl_gt (x y : Float64) : bool := dbl_lt y x.

(** [x <= y]; the code has no such comparison, the statements have. *)
Definition dbl_le (x y : Float64) : bool := dbl_lt x y || dbl_eq x y.

(** the literal [0.0] *)
Definition dbl_zero : Float64 := Finite 0.

(** the conversion of an [int] to a double, which is exact *)
Definition dbl_of_int (n : Z) : Float64 := Finite (inject_Z n).

Declare Scope dbl_scope.
Delimit Scope dbl_scope with dbl.
Notation "x == y" := (dbl_eq x y = true) (at level 70, no associativity) : dbl_scope.
Notation "x < y" := (dbl_lt x y = true) : dbl_scope.
Notation "x <= y" := (dbl_le x y = true) : dbl_scope.

(** ** Stream descriptions *)

Record AudioStreamBasicDescription := mkASBD {
  mSampleRate       : Float64;
  mFormatID         : Z;
  mFormatFlags      : Z;
  mBytesPerPacket   : Z;
  mFramesPerPacket  : Z;
  mBytesPerFrame    : Z;
  mChannelsPerFrame : Z;
  mBitsPerChannel   : Z
}.

(** ** The format comparator *)

(** [ca_match_fflags]: the loop over the zero-terminated array [flags]. *)
Fixpoint match_fflags_loop (flags : list Z) (target matchee : Z) : bool :=
  match flags with
  | [] => true
  | f :: rest =>
      if f =? 0 then true
      else if negb (Z.land target f =? Z.land matchee f) then false
      else match_fflags_loop rest target matchee
  end.

Definition ca_match_fflags (target matchee : Z) : bool :=
  match_fflags_loop
    [kAudioFormatFlagIsFloat; kAudioFormatFlagIsSignedInteger;
     kAudioFormatFlagIsBigEndian; 0]
    target matchee.

Definition ca_asbd_matches (target matchee : AudioStreamBasicDescription) : bool :=
  mFormatID target =? mFormatID matchee.

Definition ca_asbd_best (target matchee : AudioStreamBasicDescription) : bool :=
  ca_asbd_matches target matchee &&
  (mBitsPerChannel target =? mBitsPerChannel matchee) &&
  dbl_eq (mSampleRate target) (mSampleRate matchee) &&
  (mChannelsPerFrame target =? mChannelsPerFrame matchee) &&
  ca_match_fflags (int_of_uint32 (mFormatFlags target))
                  (int_of_uint32 (mFormatFlags matchee)).

(** [ca_asbd_better]: the result is [1] when [snd] is to be taken and
    [-1] when [fst] is ("if one is uninitialized return the other"). *)
Definition ca_asbd_better (target fst snd : AudioStreamBasicDescription) : Z :=
  if dbl_eq (mSampleRate fst) dbl_zero then 1
  else if dbl_eq (mSampleRate snd) dbl_zero then -1
  else if (mChannelsPerFrame fst =? mChannelsPerFrame target) &&
          negb (mChannelsPerFrame snd =? mChannelsPerFrame target) then -1
  else if negb (mChannelsPerFrame fst =? mChannelsPerFrame target) &&
          (mChannelsPerFrame snd =? mChannelsPerFrame target) then 1
  else if dbl_lt (mSampleRate fst) (mSampleRate target) then 1
  else if dbl_lt (mSampleRate snd) (mSampleRate target) then -1
  else if dbl_gt (mSampleRate fst) (mSampleRate target) then 1
  else -1.

(** The descriptor a result of [ca_asbd_better] designates. *)
Definition selected (target fst snd : AudioStreamBasicDescription)
  : AudioStreamBasicDescription :=
  if ca_asbd_better target fst snd >? 0 then snd else fst.

(** Modelled from the spec: the caller that folds a candidate list into
    one winner is not among the sources.  "The caller reduces a
    candidate list to a single winner by repeated pairwise application
    of better": the running winner is compared with the next candidate
    and replaced by whichever [ca_asbd_better] designates.  Both
    argument orders are given, the running winner passed first
    ([reduce_fst]) or second ([reduce_snd]). *)
Definition reduce_fst (target : AudioStreamBasicDescription)
  (cands : list AudioStreamBasicDescription) : option AudioStreamBasicDescription :=
  match cands with
  | [] => None
  | c :: rest => Some (fold_left (fun best cand => selected target best cand) rest c)
  end.

Definition reduce_snd (target : AudioStreamBasicDescription)
  (cands : list AudioStreamBasicDescription) : option AudioStreamBasicDescription :=
  match cands with
  | [] => None
  | c :: rest => Some (fold_left (fun best cand => selected target cand best) rest c)
  end.

(** A PCM descriptor with the given rate and channel count, 16 bit. *)
Definition pcm16 (rate : Z) (channels : Z) : AudioStreamBasicDescription :=
  {| mSampleRate := dbl_of_int rate;
     mFormatID := kAudioFormatLinearPCM;
     mFormatFlags := Z.lor kAudioFormatFlagIsPacked kAudioFormatFlagIsSignedInteger;
     mBytesPerPacket := channels * 2;
     mFramesPerPacket := 1;
     mBytesPerFrame := channels * 2;
     mChannelsPerFrame := channels;
     mBitsPerChannel := 16 |}.

(** ** The format codec *)

(** The sample-format constants and the two helpers of [audio/format.h]
    that the codec uses.  The header is not among the sources, so its
    constants are the fields of an interface. *)
Class af_format_h := {
  AF_FORMAT_UNKNOWN    : Z;
  AF_FORMAT_BE         : Z;
  AF_FORMAT_LE         : Z;
  AF_FORMAT_END_MASK   : Z;
  AF_FORMAT_SI         : Z;
  AF_FORMAT_US         : Z;
  AF_FORMAT_SIGN_MASK  : Z;
  AF_FORMAT_8BIT       : Z;
  AF_FORMAT_16BIT      : Z;
  AF_FORMAT_24BIT      : Z;
  AF_FORMAT_32BIT      : Z;
  AF_FORMAT_BITS_MASK  : Z;
  AF_FORMAT_I          : Z;
  AF_FORMAT_F          : Z;
  AF_FORMAT_POINT_MASK : Z;
  af_fmt2bits          : Z -> Z;
  af_bits_to_mask      : Z -> Z
}.

Definition ca_make_asbd `{af_format_h} (mp_format rate channels : Z)
  : AudioStreamBasicDescription :=
  let mSampleRate0 := dbl_of_int rate in
  let mChannelsPerFrame0 := uint32 channels in
  let mBitsPerChannel0 := uint32 (af_fmt2bits mp_format) in
  let flags0 := kAudioFormatFlagIsPacked in
  let flags1 :=
    if Z.land mp_format AF_FORMAT_POINT_MASK =? AF_FORMAT_F
    then Z.lor flags0 kAudioFormatFlagIsFloat else flags0 in
  let flags2 :=
    if Z.land mp_format AF_FORMAT_SIGN_MASK =? AF_FORMAT_SI
    then Z.lor flags1 kAudioFormatFlagIsSignedInteger else flags1 in
  let flags3 :=
    if Z.land mp_format AF_FORMAT_END_MASK =? AF_FORMAT_BE
    then Z.lor flags2 kAudioFormatFlagIsBigEndian else flags2 in
  let mFramesPerPacket0 := 1 in
  let bytes := uint32 (mFramesPerPacket0 * mChannelsPerFrame0 * (mBitsPerChannel0 / 8)) in
  {| mSampleRate := mSampleRate0;
     mFormatID := kAudioFormatLinearPCM;
     mFormatFlags := flags3;
     mBytesPerPacket := bytes;
     mFramesPerPacket := mFramesPerPacket0;
     mBytesPerFrame := bytes;
     mChannelsPerFrame := mChannelsPerFrame0;
     mBitsPerChannel := mBitsPerChannel0 |}.

Definition ca_make_mp_format `{af_format_h} (asbd : AudioStreamBasicDescription) : Z :=
  let format0 := AF_FORMAT_UNKNOWN in
  let bits := int_of_uint32 (mBitsPerChannel asbd) in
  let flags := int_of_uint32 (mFormatFlags asbd) in
  let format1 := Z.lor format0 (af_bits_to_mask bits) in
  let format2 :=
    if truthy (Z.land flags kAudioFormatFlagIsFloat)
    then Z.lor format1 AF_FORMAT_F
    else
      let format_i := Z.lor format1 AF_FORMAT_I in
      if truthy (Z.land flags kAudioFormatFlagIsSignedInteger)
      then Z.lor format_i AF_FORMAT_SI
      else Z.lor format_i AF_FORMAT_US in
  if truthy (Z.land flags kAudioFormatFlagIsBigEndian)
  then Z.lor format2 AF_FORMAT_BE
  else Z.lor format2 AF_FORMAT_LE.

(** The sample formats the codec is used on: a class, an endianness and
    a bit depth, combined with the header's constants. *)
Inductive sample_class := Float | SignedInt | UnsignedInt.
Inductive endianness := BigEndian | LittleEndian.
Inductive bit_depth := Bits8 | Bits16 | Bits24 | Bits32.

Definition depth_bits (d : bit_depth) : Z :=
  match d with Bits8 => 8 | Bits16 => 16 | Bits24 => 24 | Bits32 => 32 end.

Definition depth_mask `{af_format_h} (d : bit_depth) : Z :=
  match d with
  | Bits8 => AF_FORMAT_8BIT | Bits16 => AF_FORMAT_16BIT
  | Bits24 => AF_FORMAT_24BIT | Bits32 => AF_FORMAT_32BIT
  end.

Definition point_mask `{af_format_h} (c : sample_class) : Z :=
  match c with Float => AF_FORMAT_F | _ => AF_FORMAT_I end.

(** a float format carries no sign bit *)
Definition sign_mask `{af_format_h} (c : sample_class) : Z :=
  match c with Float => 0 | SignedInt => AF_FORMAT_SI | UnsignedInt => AF_FORMAT_US end.

Definition endian_mask `{af_format_h} (e : endianness) : Z :=
  match e with BigEndian => AF_FORMAT_BE | LittleEndian => AF_FORMAT_LE end.

Definition mp_format_of `{af_format_h} (c : sample_class) (e : endianness) (d : bit_depth) : Z :=
  Z.lor (Z.lor (Z.lor (depth_mask d) (point_mask c)) (sign_mask c)) (endian_mask e).

(** What the codec relies on in the header: every constant lies inside
    the mask of its field, the four fields do not overlap, the two
    values of a field differ, and the two helpers translate between a
    format's bit-depth field and the number of bits. *)
Record af_format_laws (H : af_format_h) : Prop := {
  unknown_zero : AF_FORMAT_UNKNOWN = 0;
  depth_in_field : forall d, Z.land (depth_mask d) AF_FORMAT_BITS_MASK = depth_mask d;
  point_in_field : forall c, Z.land (point_mask c) AF_FORMAT_POINT_MASK = point_mask c;
  sign_in_field : forall c, Z.land (sign_mask c) AF_FORMAT_SIGN_MASK = sign_mask c;
  endian_in_field : forall e, Z.land (endian_mask e) AF_FORMAT_END_MASK = endian_mask e;
  bits_point_disjoint : Z.land AF_FORMAT_BITS_MASK AF_FORMAT_POINT_MASK = 0;
  bits_sign_disjoint : Z.land AF_FORMAT_BITS_MASK AF_FORMAT_SIGN_MASK = 0;
  bits_end_disjoint : Z.land AF_FORMAT_BITS_MASK AF_FORMAT_END_MASK = 0;
  point_sign_disjoint : Z.land AF_FORMAT_POINT_MASK AF_FORMAT_SIGN_MASK = 0;
  point_end_disjoint : Z.land AF_FORMAT_POINT_MASK AF_FORMAT_END_MASK = 0;
  sign_end_disjoint : Z.land AF_FORMAT_SIGN_MASK AF_FORMAT_END_MASK = 0;
  int_not_float : AF_FORMAT_I <> AF_FORMAT_F;
  signed_not_unsigned : AF_FORMAT_SI <> AF_FORMAT_US;
  big_not_little : AF_FORMAT_BE <> AF_FORMAT_LE;
  fmt2bits_depth : forall c e d, af_fmt2bits (mp_format_of c e d) = depth_bits d;
  bits_to_mask_depth : forall d, af_bits_to_mask (depth_bits d) = depth_mask d
}.

(** An instance of the interface, laid out the way mpv lays its sample
    formats out: endianness in bit 0, signedness in bit 1, the bit
    depth in bits 3 to 5, the special formats in bits 6 to 8 and the
    int/float class in bits 9 and 10. *)
Definition mpv_af_fmt2bits (format : Z) : Z :=
  if Z.land format (Z.shiftl 7 6) =? Z.shiftl 4 6 then 16
  else if format =? 0 then 0
  else
    let b := Z.land format (Z.shiftl 7 3) in
    if b =? Z.shiftl 0 3 then 8
    else if b =? Z.shiftl 1 3 then 16
    else if b =? Z.shiftl 2 3 then 24
    else if b =? Z.shiftl 3 3 then 32
    else if b =? Z.shiftl 4 3 then 64
    else 0.

Definition mpv_af_bits_to_mask (bits : Z) : Z :=
  if bits =? 8 then Z.shiftl 0 3
  else if bits =? 16 then Z.shiftl 1 3
  else if bits =? 24 then Z.shiftl 2 3
  else if bits =? 32 then Z.shiftl 3 3
  else if bits =? 64 then Z.shiftl 4 3
  else 0.

Definition mpv_format_h : af_format_h := {|
  AF_FORMAT_UNKNOWN    := 0;
  AF_FORMAT_BE         := Z.shiftl 0 0;
  AF_FORMAT_LE         := Z.shiftl 1 0;
  AF_FORMAT_END_MASK   := Z.shiftl 1 0;
  AF_FORMAT_SI         := Z.shiftl 0 1;
  AF_FORMAT_US         := Z.shiftl 1 1;
  AF_FORMAT_SIGN_MASK  := Z.shiftl 1 1;
  AF_FORMAT_8BIT       := Z.shiftl 0 3;
  AF_FORMAT_16BIT      := Z.shiftl 1 3;
  AF_FORMAT_24BIT      := Z.shiftl 2 3;
  AF_FORMAT_32BIT      := Z.shiftl 3 3;
  AF_FORMAT_BITS_MASK  := Z.shiftl 7 3;
  AF_FORMAT_I          := Z.shiftl 1 9;
  AF_FORMAT_F          := Z.shiftl 2 9;
  AF_FORMAT_POINT_MASK := Z.shiftl 3 9;
  af_fmt2bits          := mpv_af_fmt2bits;
  af_bits_to_mask      := mpv_af_bits_to_mask
|}.

(** ** The HAL: property addresses, listeners, memory *)

Record AudioObjectPropertyAddress := mkAddress {
  mSelector : Z;
  mScope    : Z;
  mElement  : Z
}.

(** Memory holds the [int] cells a listener's context pointer may
    designate; the null pointer is [0]. *)
Abbreviation mem := (gmap Z Z).

(** [ca_property_listener]: the scan of the notified addresses.  The
    first address carrying [selector] ends the loop, after the store
    through [data] when [data] is not null. *)
Fixpoint property_listener_loop (selector : Z)
  (addresses : list AudioObjectPropertyAddress) (data : Z) (m : mem) : mem :=
  match addresses with
  | [] => m
  | a :: rest =>
      if mSelector a =? selector
      then (if truthy data then <[data := 1]> m else m)
      else property_listener_loop selector rest data m
  end.

Definition ca_property_listener (selector object : Z)
  (addresses : list AudioObjectPropertyAddress) (data : Z) (m : mem) : Z * mem :=
  (noErr, property_listener_loop selector addresses data m).

Definition ca_stream_listener (object : Z)
  (addresses : list AudioObjectPropertyAddress) (data : Z) (m : mem) : Z * mem :=
  ca_property_listener kAudioStreamPropertyPhysicalFormat object addresses data m.

(** The listener procedures the code hands to the HAL. *)
Inductive listener_proc := proc_ca_stream_listener.

Definition call_proc (p : listener_proc) :
  Z -> list AudioObjectPropertyAddress -> Z -> mem -> Z * mem :=
  match p with proc_ca_stream_listener => ca_stream_listener end.

Record listener := mkListener {
  l_object  : Z;
  l_address : AudioObjectPropertyAddress;
  l_proc    : listener_proc;
  l_data    : Z
}.

Definition address_eqb (a b : AudioObjectPropertyAddress) : bool :=
  (mSelector a =? mSelector b) && (mScope a =? mScope b) && (mElement a =? mElement b).

Definition listener_eqb (a b : listener) : bool :=
  (l_object a =? l_object b) && address_eqb (l_address a) (l_address b) &&
  (l_data a =? l_data b).

(** One notification of the HAL: the object and the addresses that changed. *)
Record notification := mkNotification {
  n_object    : Z;
  n_addresses : list AudioObjectPropertyAddress
}.

(** The state of the hardware audio subsystem: the registered
    listeners, its answer to a read of a format property (a status, and
    the description left in the caller's buffer), the format requests
    it has received. *)
Record hal := mkHal {
  hal_listeners : list listener;
  hal_formats   : Z -> Z -> Z * AudioStreamBasicDescription;
  hal_requests  : list (Z * Z * AudioStreamBasicDescription)
}.

(** What the subsystem answers during one run: the status of each kind
    of request, and the notifications its own thread delivers before
    the n-th read of a volatile cell by the control thread. *)
Record hal_script := mkScript {
  add_status    : Z;
  set_status    : Z;
  remove_status : Z;
  notifications : nat -> list notification
}.

Inductive msg_level := MSGL_ERR | MSGL_WARN | MSGL_INFO | MSGL_V.

Inductive event :=
| EvGetProperty (object selector : Z)
| EvSetProperty (object selector : Z) (format : AudioStreamBasicDescription)
| EvAddListener (l : listener)
| EvRemoveListener (l : listener)
| EvSleep (us : Z)
| EvLog (level : msg_level) (message : string).

Record world := mkWorld {
  w_script : hal_script;
  w_hal    : hal;
  w_mem    : mem;
  w_reads  : nat;
  w_trace  : list event
}.

(** ** A state monad over the world *)

Definition M (A : Type) : Type := world -> A * world.

Definition ret {A} (a : A) : M A := fun w => (a, w).

Definition bind {A B} (m : M A) (k : A -> M B) : M B :=
  fun w => let (a, w') := m w in k a w'.

Notation "'do' x <- m ; k" := (bind m (fun x => k))
  (at level 10, x name, m at level 100, k at level 200).
Notation "'do_' m ; k" := (bind m (fun _ => k))
  (at level 10, m at level 100, k at level 200).

Definition emit (e : event) : M unit :=
  fun w => (tt, mkWorld (w_script w) (w_hal w) (w_mem w) (w_reads w) (w_trace w ++ [e])).

Definition set_hal (h : hal) : M unit :=
  fun w => (tt, mkWorld (w_script w) h (w_mem w) (w_reads w) (w_trace w)).

Definition store (p v : Z) : M unit :=
  fun w => (tt, mkWorld (w_script w) (w_hal w) (<[p := v]> (w_mem w)) (w_reads w) (w_trace w)).

(** The HAL's thread: each notification is passed to every listener
    registered on its object. *)
Definition run_listener (n : notification) (m : mem) (l : listener) : mem :=
  if l_object l =? n_object n
  then (call_proc (l_proc l) (n_object n) (n_addresses n) (l_data l) m).2
  else m.

Definition deliver (ls : list listener) (m : mem) (n : notification) : mem :=
  fold_left (run_listener n) ls m.

Definition hal_thread (ls : list listener) (ns : list notification) (m : mem) : mem :=
  fold_left (deliver ls) ns m.

(** A read of a volatile [int]: whatever the HAL's thread has stored
    before this read is visible to it. *)
Definition load_volatile (p : Z) : M Z :=
  fun w =>
    let m := hal_thread (hal_listeners (w_hal w)) (notifications (w_script w) (w_reads w)) (w_mem w) in
    (default 0 (m !! p),
     mkWorld (w_script w) (w_hal w) m (S (w_reads w)) (w_trace w)).

(** Modelled from the spec: the property macros of
    [ao_coreaudio_properties.h] and the HAL entry points behind them are
    not among the sources.  They are the spec's external interfaces
    getProperty, setProperty, addChangeListener and removeChangeListener,
    each answering success or failure. *)
Definition CA_GET (object selector : Z) : M (Z * AudioStreamBasicDescription) :=
  fun w =>
    (hal_formats (w_hal w) object selector, (emit (EvGetProperty object selector) w).2).

Definition CA_SET (object selector : Z) (format : AudioStreamBasicDescription) : M Z :=
  fun w =>
    let w' := (emit (EvSetProperty object selector format) w).2 in
    let st := set_status (w_script w) in
    if st =? noErr
    then (st, (set_hal (mkHal (hal_listeners (w_hal w)) (hal_formats (w_hal w))
                              (hal_requests (w_hal w) ++ [(object, selector, format)])) w').2)
    else (st, w').

Definition AudioObjectAddPropertyListener (object : Z)
  (address : AudioObjectPropertyAddress) (proc : listener_proc) (data : Z) : M Z :=
  fun w =>
    let l := mkListener object address proc data in
    let w' := (emit (EvAddListener l) w).2 in
    let st := add_status (w_script w) in
    if st =? noErr
    then (st, (set_hal (mkHal (hal_listeners (w_hal w) ++ [l]) (hal_formats (w_hal w))
                              (hal_requests (w_hal w))) w').2)
    else (st, w').

Definition AudioObjectRemovePropertyListener (object : Z)
  (address : AudioObjectPropertyAddress) (proc : listener_proc) (data : Z) : M Z :=
  fun w =>
    let l := mkListener object address proc data in
    let w' := (emit (EvRemoveListener l) w).2 in
    let st := remove_status (w_script w) in
    if st =? noErr
    then (st, (set_hal (mkHal (filter (fun x => negb (listener_eqb x l)) (hal_listeners (w_hal w)))
                              (hal_formats (w_hal w)) (hal_requests (w_hal w))) w').2)
    else (st, w').

Definition mp_sleep_us (us : Z) : M unit := emit (EvSleep us).

Definition mp_msg_log (level : msg_level) (message : string) : M unit :=
  emit (EvLog level message).

(** ** Listener registration *)

(** [check_ca_st]; the rendering of the status code in the message is
    left out. *)
Definition check_ca_st (level : msg_level) (code : Z) (message : string) : M bool :=
  if code =? noErr then ret true
  else do_ mp_msg_log level message ; ret false.

Definition CHECK_CA_WARN (err : Z) (message : string) : M bool :=
  check_ca_st MSGL_WARN err message.

Definition ca_change_stream_listening (device sel flag : Z) (enabled : bool) : M Z :=
  let p_addr := mkAddress kAudioStreamPropertyVirtualFormat
                          kAudioObjectPropertyScopeGlobal
                          kAudioObjectPropertyElementMaster in
  if enabled
  then AudioObjectAddPropertyListener device p_addr proc_ca_stream_listener flag
  else AudioObjectRemovePropertyListener device p_addr proc_ca_stream_listener flag.

Definition ca_enable_stream_listener (device sel flag : Z) : M Z :=
  ca_change_stream_listening device sel flag true.

Definition ca_disable_stream_listener (device sel flag : Z) : M Z :=
  ca_change_stream_listening device sel flag false.

(** ** The format switcher *)

(** The polling loop [for (j = 0; !fmt_changed && j < 50; j++)]; the
    fuel bounds the number of tests of the condition. *)
Fixpoint poll_loop (fuel : nat) (fmt_changed : Z) (j : Z) : M unit :=
  match fuel with
  | O => ret tt
  | S fuel' =>
      do c <- load_volatile fmt_changed ;
      if negb (truthy c) && (j <? 50)
      then do_ mp_sleep_us 10000 ; poll_loop fuel' fmt_changed (j + 1)
      else ret tt
  end.

(** [ca_change_format]; [fmt_changed] is the address of the local of
    that name in this activation. *)
Definition ca_change_format (stream : Z) (new_format : AudioStreamBasicDescription)
  (sel : Z) (fmt_changed : Z) : M bool :=
  do_ store fmt_changed 0 ;
  do r <- CA_GET stream sel ;
  do ok <- CHECK_CA_WARN r.1 "can't fetch format property" ;
  if negb ok then ret false else
  let actual_format := r.2 in
  if ca_asbd_best actual_format new_format
  then do_ mp_msg_log MSGL_ERR "requested format matches current format" ; ret true
  else
  do err <- ca_enable_stream_listener stream sel fmt_changed ;
  do ok <- CHECK_CA_WARN err "can't add format property listener" ;
  if negb ok then ret false else
  do err <- CA_SET stream sel new_format ;
  do ok <- CHECK_CA_WARN err "error changing format" ;
  if negb ok then ret false else
  do_ poll_loop 51 fmt_changed 0 ;
  do c <- load_volatile fmt_changed ;
  do_ (if negb (truthy c)
       then mp_msg_log MSGL_WARN "reached timeout while polling for format changes"
       else ret tt) ;
  do err <- ca_disable_stream_listener stream sel fmt_changed ;
  do ok <- CHECK_CA_WARN err "can't remove format property listener" ;
  if negb ok then ret false else
  ret true.

(** ** The channel layout resolver *)

Module ChannelLabel.

Definition kAudioChannelLabel_Unknown : Z := 4294967295.
Definition kAudioChannelLabel_Left : Z := 1.
Definition kAudioChannelLabel_Right : Z := 2.
Definition kAudioChannelLabel_Center : Z := 3.
Definition kAudioChannelLabel_LFEScreen : Z := 4.
Definition kAudioChannelLabel_LeftSurround : Z := 5.
Definition kAudioChannelLabel_RightSurround : Z := 6.
Definition kAudioChannelLabel_LeftCenter : Z := 7.
Definition kAudioChannelLabel_RightCenter : Z := 8.
Definition kAudioChannelLabel_CenterSurround : Z := 9.
Definition kAudioChannelLabel_LeftSurroundDirect : Z := 10.
Definition kAudioChannelLabel_RightSurroundDirect : Z := 11.
Definition kAudioChannelLabel_TopCenterSurround : Z := 12.
Definition kAudioChannelLabel_VerticalHeightLeft : Z := 13.
Definition kAudioChannelLabel_VerticalHeightCenter : Z := 14.
Definition kAudioChannelLabel_VerticalHeightRight : Z := 15.
Definition kAudioChannelLabel_TopBackLeft : Z := 16.
Definition kAudioChannelLabel_TopBackCenter : Z := 17.
Definition kAudioChannelLabel_TopBackRight : Z := 18.
Definition kAudioChannelLabel_RearSurroundLeft : Z := 33.
Definition kAudioChannelLabel_RearSurroundRight : Z := 34.
Definition kAudioChannelLabel_LeftWide : Z := 35.
Definition kAudioChannelLabel_RightWide : Z := 36.
Definition kAudioChannelLabel_LFE2 : Z := 37.
Definition kAudioChannelLabel_HeadphonesLeft : Z := 301.
Definition kAudioChannelLabel_HeadphonesRight : Z := 302.

End ChannelLabel.
Import ChannelLabel.

(** The speaker ids of [audio/chmap.h]; the header is not among the
    sources, so the ids are the fields of an interface. *)
Class chmap_h := {
  MP_SPEAKER_ID_FL : Z;   MP_SPEAKER_ID_FR : Z;   MP_SPEAKER_ID_FC : Z;
  MP_SPEAKER_ID_LFE : Z;  MP_SPEAKER_ID_BL : Z;   MP_SPEAKER_ID_BR : Z;
  MP_SPEAKER_ID_FLC : Z;  MP_SPEAKER_ID_FRC : Z;  MP_SPEAKER_ID_BC : Z;
  MP_SPEAKER_ID_SL : Z;   MP_SPEAKER_ID_SR : Z;   MP_SPEAKER_ID_TC : Z;
  MP_SPEAKER_ID_TFL : Z;  MP_SPEAKER_ID_TFC : Z;  MP_SPEAKER_ID_TFR : Z;
  MP_SPEAKER_ID_TBL : Z;  MP_SPEAKER_ID_TBC : Z;  MP_SPEAKER_ID_TBR : Z;
  MP_SPEAKER_ID_SDL : Z;  MP_SPEAKER_ID_SDR : Z;  MP_SPEAKER_ID_WL : Z;
  MP_SPEAKER_ID_WR : Z;   MP_SPEAKER_ID_LFE2 : Z;
  MP_SPEAKER_ID_DL : Z;   MP_SPEAKER_ID_DR : Z
}.

(** The platform's conversion of a layout tag to a bitmap
    ([kAudioFormatProperty_BitmapForLayoutTag]): a status and the
    bitmap it writes. *)
Class audio_format_services := {
  BitmapForLayoutTag : Z -> Z * Z
}.

Definition speaker_map `{chmap_h} : list (Z * Z) := [
  (kAudioChannelLabel_Left,                 MP_SPEAKER_ID_FL);
  (kAudioChannelLabel_Right,                MP_SPEAKER_ID_FR);
  (kAudioChannelLabel_Center,               MP_SPEAKER_ID_FC);
  (kAudioChannelLabel_LFEScreen,            MP_SPEAKER_ID_LFE);
  (kAudioChannelLabel_LeftSurround,         MP_SPEAKER_ID_BL);
  (kAudioChannelLabel_RightSurround,        MP_SPEAKER_ID_BR);
  (kAudioChannelLabel_LeftCenter,           MP_SPEAKER_ID_FLC);
  (kAudioChannelLabel_RightCenter,          MP_SPEAKER_ID_FRC);
  (kAudioChannelLabel_CenterSurround,       MP_SPEAKER_ID_BC);
  (kAudioChannelLabel_LeftSurroundDirect,   MP_SPEAKER_ID_SL);
  (kAudioChannelLabel_RightSurroundDirect,  MP_SPEAKER_ID_SR);
  (kAudioChannelLabel_TopCenterSurround,    MP_SPEAKER_ID_TC);
  (kAudioChannelLabel_VerticalHeightLeft,   MP_SPEAKER_ID_TFL);
  (kAudioChannelLabel_VerticalHeightCenter, MP_SPEAKER_ID_TFC);
  (kAudioChannelLabel_VerticalHeightRight,  MP_SPEAKER_ID_TFR);
  (kAudioChannelLabel_TopBackLeft,          MP_SPEAKER_ID_TBL);
  (kAudioChannelLabel_TopBackCenter,        MP_SPEAKER_ID_TBC);
  (kAudioChannelLabel_TopBackRight,         MP_SPEAKER_ID_TBR);
  (kAudioChannelLabel_RearSurroundLeft,     MP_SPEAKER_ID_SDL);
  (kAudioChannelLabel_RearSurroundRight,    MP_SPEAKER_ID_SDR);
  (kAudioChannelLabel_LeftWide,             MP_SPEAKER_ID_WL);
  (kAudioChannelLabel_RightWide,            MP_SPEAKER_ID_WR);
  (kAudioChannelLabel_LFE2,                 MP_SPEAKER_ID_LFE2);
  (kAudioChannelLabel_HeadphonesLeft,       MP_SPEAKER_ID_DL);
  (kAudioChannelLabel_HeadphonesRight,      MP_SPEAKER_ID_DR);
  (kAudioChannelLabel_Unknown,              -1)
].

(** [ca_label_to_mp_speaker_id]: the scan stops at the terminating
    entry, whose label is [kAudioChannelLabel_Unknown]. *)
Fixpoint label_loop (table : list (Z * Z)) (label : Z) : Z :=
  match table with
  | [] => -1
  | (l, id) :: rest =>
      if l =? kAudioChannelLabel_Unknown then -1
      else if l =? label then id
      else label_loop rest label
  end.

Definition ca_label_to_mp_speaker_id `{chmap_h} (label : Z) : Z :=
  label_loop speaker_map label.

(** A layout: its tag, its bitmap and the labels of its channel
    descriptions ([mNumberChannelDescriptions] is their number). *)
Record AudioChannelLayout := mkLayout {
  mChannelLayoutTag    : Z;
  mChannelBitmap       : Z;
  mChannelDescriptions : list Z
}.

Definition uint64 (x : Z) : Z := x mod 2 ^ 64.

(** [ca_bitmap_from_ch_desc]: the loop runs while channels are left and
    [all_channels_valid] holds; the result is the bitmap and the flag. *)
Fixpoint ch_desc_loop `{chmap_h} (labels : list Z) (bitmap : Z) (all_channels_valid : bool)
  : Z * bool :=
  match labels with
  | [] => (bitmap, all_channels_valid)
  | label :: rest =>
      if all_channels_valid then
        let mp_speaker_id := ca_label_to_mp_speaker_id label in
        if mp_speaker_id <? 0
        then ch_desc_loop rest bitmap false
        else ch_desc_loop rest
               (uint32 (Z.lor bitmap (uint64 (Z.shiftl 1 mp_speaker_id)))) true
      else (bitmap, all_channels_valid)
  end.

Definition ca_bitmap_from_ch_desc `{chmap_h} (layout : AudioChannelLayout) (bitmap : Z)
  : bool * Z :=
  let r := ch_desc_loop (mChannelDescriptions layout) bitmap true in
  (r.2, r.1).

Definition ca_bitmap_from_ch_tag `{audio_format_services} (layout : AudioChannelLayout)
  (bitmap : Z) : bool * Z :=
  let tag := mChannelLayoutTag layout in
  let r := BitmapForLayoutTag tag in
  if negb (r.1 =? noErr) then (false, bitmap) else (true, r.2).

(** The output of [ca_bitmaps_from_layouts]: the array allocated for
    [n_layouts] entries, whose cells are indeterminate ([None]) until
    written, and the number of entries written. *)
Record bitmaps_out := mkOut {
  bitmaps   : list (option Z);
  n_bitmaps : nat
}.

(** the store of [v] into the cell numbered [n_bitmaps], which is
    then incremented *)
Definition push_bitmap (v : Z) (o : bitmaps_out) : bitmaps_out :=
  mkOut (<[n_bitmaps o := Some v]> (bitmaps o)) (S (n_bitmaps o)).

Definition layouts_step `{chmap_h} `{audio_format_services}
  (o : bitmaps_out) (layout : AudioChannelLayout) : bitmaps_out :=
  let bitmap := 0 in
  if mChannelLayoutTag layout =? kAudioChannelLayoutTag_UseChannelBitmap
  then push_bitmap (mChannelBitmap layout) o
  else if mChannelLayoutTag layout =? kAudioChannelLayoutTag_UseChannelDescriptions
  then
    let r := ca_bitmap_from_ch_desc layout bitmap in
    if r.1 then push_bitmap r.2 o else o
  else
    let r := ca_bitmap_from_ch_tag layout bitmap in
    if r.1 then push_bitmap r.2 o else o.

Definition ca_bitmaps_from_layouts `{chmap_h} `{audio_format_services}
  (layouts : list AudioChannelLayout) : bitmaps_out :=
  fold_left layouts_step layouts (mkOut (replicate (length layouts) None) 0%nat).

(** The entries a caller reads: the first [n_bitmaps] cells. *)
Definition written (o : bitmaps_out) : list (option Z) :=
  take (n_bitmaps o) (bitmaps o).

(** One iteration of the loops of the code in closed form, for the
    proofs: [label_bit] is what the store of [ca_bitmap_from_ch_desc]
    adds to a 32-bit bitmap for a label, [label_mapped] is the test the
    loop makes on the speaker id found for a label, and
    [resolve_layout] is what one iteration of
    [ca_bitmaps_from_layouts] stores, if anything. *)
Definition label_bit `{chmap_h} (label : Z) : Z :=
  uint32 (Z.shiftl 1 (ca_label_to_mp_speaker_id label)).

Definition label_mapped `{chmap_h} (label : Z) : bool :=
  0 <=? ca_label_to_mp_speaker_id label.

Definition resolve_layout `{chmap_h} `{audio_format_services}
  (layout : AudioChannelLayout) : option Z :=
  if mChannelLayoutTag layout =? kAudioChannelLayoutTag_UseChannelBitmap
  then Some (mChannelBitmap layout)
  else if mChannelLayoutTag layout =? kAudioChannelLayoutTag_UseChannelDescriptions
  then
    if forallb label_mapped (mChannelDescriptions layout)
    then Some (fold_left Z.lor (map label_bit (mChannelDescriptions layout)) 0)
    else None
  else
    if (BitmapForLayoutTag (mChannelLayoutTag layout)).1 =? noErr
    then Some (BitmapForLayoutTag (mChannelLayoutTag layout)).2
    else None.








(** An instance of the speaker ids, numbered the way mpv numbers them,
    and a lookup service that knows three tags. *)
Definition mpv_chmap_h : chmap_h := {|
  MP_SPEAKER_ID_FL := 0;    MP_SPEAKER_ID_FR := 1;    MP_SPEAKER_ID_FC := 2;
  MP_SPEAKER_ID_LFE := 3;   MP_SPEAKER_ID_BL := 4;    MP_SPEAKER_ID_BR := 5;
  MP_SPEAKER_ID_FLC := 6;   MP_SPEAKER_ID_FRC := 7;   MP_SPEAKER_ID_BC := 8;
  MP_SPEAKER_ID_SL := 9;    MP_SPEAKER_ID_SR := 10;   MP_SPEAKER_ID_TC := 11;
  MP_SPEAKER_ID_TFL := 12;  MP_SPEAKER_ID_TFC := 13;  MP_SPEAKER_ID_TFR := 14;
  MP_SPEAKER_ID_TBL := 15;  MP_SPEAKER_ID_TBC := 16;  MP_SPEAKER_ID_TBR := 17;
  MP_SPEAKER_ID_DL := 29;   MP_SPEAKER_ID_DR := 30;   MP_SPEAKER_ID_WL := 31;
  MP_SPEAKER_ID_WR := 32;   MP_SPEAKER_ID_SDL := 33;  MP_SPEAKER_ID_SDR := 34;
  MP_SPEAKER_ID_LFE2 := 35
|}.

Definition sample_services : audio_format_services := {|
  BitmapForLayoutTag := fun tag =>
    if tag =? 6553601 then (noErr, 4)
    else if tag =? 6619138 then (noErr, 3)
    else if tag =? 7733254 then (noErr, 51)
    else (1886547824, 0)
|}.

(** ** Notions used in the statements *)

(** An initialized descriptor that has the target's channel count and
    a rate that is not below the target's. *)
Definition adequate (target c : AudioStreamBasicDescription) : Prop :=
  ~ (mSampleRate c == dbl_zero)%dbl /\
  mChannelsPerFrame c = mChannelsPerFrame target /\
  ~ (mSampleRate c < mSampleRate target)%dbl.

(** The rank [ca_asbd_better] decides by when two ranks differ: an
    uninitialized descriptor is lowest; otherwise the target's channel
    count ranks above any other and, for the same channel status, a
    rate below the target's ranks below a rate above it, which ranks
    below the target's own rate (and below any rate that is neither
    below nor above the target's, as with a NaN). *)
Definition rank (target c : AudioStreamBasicDescription) : Z :=
  if dbl_eq (mSampleRate c) dbl_zero then 0
  else 1
       + (if mChannelsPerFrame c =? mChannelsPerFrame target then 3 else 0)
       + (if dbl_lt (mSampleRate c) (mSampleRate target) then 0
          else if dbl_gt (mSampleRate c) (mSampleRate target) then 1
          else 2).

(** Some notified address carries [selector]. *)
Definition carries (selector : Z) (addresses : list AudioObjectPropertyAddress) : bool :=
  existsb (fun a => mSelector a =? selector) addresses.

(** The address [ca_change_stream_listening] builds. *)
Definition virtual_format_address : AudioObjectPropertyAddress :=
  mkAddress kAudioStreamPropertyVirtualFormat
            kAudioObjectPropertyScopeGlobal
            kAudioObjectPropertyElementMaster.

(** The registry entry of the stream listener of [device] with context
    pointer [flag]. *)
Definition stream_listener_entry (device flag : Z) : listener :=
  mkListener device virtual_format_address proc_ca_stream_listener flag.

(** The HAL's thread never changes the cell [p]: whatever it is
    notified of before any read, the listeners [ls] leave [p] alone. *)
Definition flag_never_set (s : hal_script) (ls : list listener) (p : Z) : Prop :=
  forall k (m : mem), hal_thread ls (notifications s k) m !! p = m !! p.

(** No notification of the script carries the physical-format selector. *)
Definition quiet (s : hal_script) : Prop :=
  forall k, Forall (fun n => carries kAudioStreamPropertyPhysicalFormat (n_addresses n) = false)
                   (notifications s k).

(** ** Sample runs of the switcher *)

(** ['unop'] *)
Definition kAudioHardwareUnsupportedOperationError : Z := Eval cbv in fourcc 117 110 111 112.

(** A HAL with no listener, whose streams run at 44100 Hz, 16 bit, stereo. *)
Definition sample_hal : hal :=
  mkHal [] (fun _ _ => (noErr, pcm16 44100 2)) [].

(** A script with the given answers to the add, set and remove
    requests, and no notification at all. *)
Definition silent_script (add set remove : Z) : hal_script :=
  mkScript add set remove (fun _ => []).

(** A script whose HAL reports, before every read, a change of the
    virtual format of stream 7 and nothing else. *)
Definition virtual_only_script (add set remove : Z) : hal_script :=
  mkScript add set remove (fun _ => [mkNotification 7 [virtual_format_address]]).

(** A script whose HAL reports a change of the physical format of
    stream 7 before the read numbered [n]. *)
Definition confirming_script (n : nat) : hal_script :=
  mkScript noErr noErr noErr
    (fun k => if Nat.eqb k n
              then [mkNotification 7
                      [mkAddress kAudioStreamPropertyPhysicalFormat
                                 kAudioObjectPropertyScopeGlobal
                                 kAudioObjectPropertyElementMaster]]
              else []).

Definition sample_world (s : hal_script) : world :=
  mkWorld s sample_hal ∅ 0%nat [].

(** ** Reading a stream description *)

(** The class and the byte order a description announces in its flags;
    the float bit takes precedence over the signed-integer bit. *)
Definition asbd_class (asbd : AudioStreamBasicDescription) : sample_class :=
  if truthy (Z.land (mFormatFlags asbd) kAudioFormatFlagIsFloat) then Float
  else if truthy (Z.land (mFormatFlags asbd) kAudioFormatFlagIsSignedInteger) then SignedInt
  else UnsignedInt.

Definition asbd_endianness (asbd : AudioStreamBasicDescription) : endianness :=
  if truthy (Z.land (mFormatFlags asbd) kAudioFormatFlagIsBigEndian) then BigEndian
  else LittleEndian.

(** ** Reads of the confirmation flag *)

(** What the HAL's thread does to the cell [p] before the read numbered
    [k]: it leaves it as it is, or it has set it. *)
Definition flag_clear_at (s : hal_script) (ls : list listener) (p : Z) (k : nat) : Prop :=
  forall m : mem, hal_thread ls (notifications s k) m !! p = m !! p.

Definition flag_set_at (s : hal_script) (ls : list listener) (p : Z) (k : nat) : Prop :=
  forall m : mem, hal_thread ls (notifications s k) m !! p = Some 1.

(** ** Device locking and mixing *)

(** The requests [ca_lock_device], [ca_unlock_device] and
    [ca_change_mixing] make, and their log messages.  The hog-mode
    request of [ca_lock_device] passes [pid], so the HAL reads the pid
    stored there; that of [ca_unlock_device] passes [&pid], the address
    of the parameter itself. *)
Inductive dev_event :=
| DevSetHogMode (device pid : Z)
| DevSetHogModeRef (device : Z)
| DevHasMixing (device : Z)
| DevSettableMixing (device : Z)
| DevSetMixing (device val : Z)
| DevLog (level : msg_level) (message : string).

(** What the process and the HAL answer during one run: the pid of the
    process, and the answer to the request made as the event numbered
    [n] of the trace (a status; for the settable query a status and
    the value written to [writeable]). *)
Record dev_script := mkDevScript {
  getpid          : Z;
  hog_status      : nat -> Z;
  settable_answer : nat -> Z * bool;
  mixing_status   : nat -> Z
}.

(** The cell [pid] points to, the device's mixing property (absent, or
    its value) and the trace. *)
Record dev := mkDev {
  dev_pid    : Z;
  dev_mixing : option Z;
  dev_trace  : list dev_event
}.

Definition ca_lock_device (s : dev_script) (device : Z) (d : dev) : Z * dev :=
  let pid := getpid s in
  let err := hog_status s (length (dev_trace d)) in
  let trace := dev_trace d ++ [DevSetHogMode device pid] in
  if negb (err =? noErr)
  then (err, mkDev (-1) (dev_mixing d) trace)
  else (err, mkDev pid (dev_mixing d) trace).

Definition ca_unlock_device (s : dev_script) (device : Z) (d : dev) : Z * dev :=
  if dev_pid d =? getpid s
  then (hog_status s (length (dev_trace d)),
        mkDev (-1) (dev_mixing d) (dev_trace d ++ [DevSetHogModeRef device]))
  else (noErr, d).

(** [ca_change_mixing]: the status and the value left in [changed]. *)
Definition ca_change_mixing (s : dev_script) (device val : Z) (d : dev)
  : (Z * bool) * dev :=
  let t0 := dev_trace d ++ [DevHasMixing device] in
  match dev_mixing d with
  | None => ((noErr, false), mkDev (dev_pid d) (dev_mixing d) t0)
  | Some _ =>
      let a := settable_answer s (length t0) in
      let t1 := t0 ++ [DevSettableMixing device] in
      let writeable := if a.1 =? noErr then a.2 else false in
      if negb (a.1 =? noErr)
      then ((a.1, false),
            mkDev (dev_pid d) (dev_mixing d)
                  (t1 ++ [DevLog MSGL_WARN "can't tell if mixing property is settable"]))
      else if negb writeable
      then ((noErr, false),
            mkDev (dev_pid d) (dev_mixing d)
                  (t1 ++ [DevLog MSGL_INFO "mixing property is *not* settable"]))
      else
        let err := mixing_status s (length t1) in
        let t2 := t1 ++ [DevSetMixing device val] in
        if negb (err =? noErr)
        then ((err, false), mkDev (dev_pid d) (dev_mixing d) t2)
        else if negb (err =? noErr)
        then ((err, false),
              mkDev (dev_pid d) (Some val) (t2 ++ [DevLog MSGL_WARN "can't set mix mode"]))
        else ((noErr, true), mkDev (dev_pid d) (Some val) t2)
  end.

Definition ca_disable_mixing (s : dev_script) (device : Z) (d : dev) : (Z * bool) * dev :=
  ca_change_mixing s device 0 d.

Definition ca_enable_mixing (s : dev_script) (device : Z) (changed : bool) (d : dev)
  : Z * dev :=
  if changed
  then let r := ca_change_mixing s device 1 d in (r.1.1, r.2)
  else (noErr, d).

(** A process with pid 4242 and a HAL that accepts every request and
    reports the mixing property as settable. *)
Definition willing_script : dev_script :=
  mkDevScript 4242 (fun _ => noErr) (fun _ => (noErr, true)) (fun _ => noErr).

(** The same process with a HAL that refuses the hog-mode requests. *)
Definition refusing_script : dev_script :=
  mkDevScript 4242 (fun _ => kAudioHardwareUnsupportedOperationError)
              (fun _ => (noErr, true)) (fun _ => noErr).

(** ** The strided copy of [libvo/fastmemcpy.h] *)

(** The width of [size_t], which [stddef.h] leaves to the platform; the
    statements take it to be at least the 32 bits of [int]. *)
Class stddef_h := {
  SIZE_WIDTH : Z
}.

(** conversion of an [int] to [size_t]: a negative count becomes a
    huge one *)
Definition size_of_int `{stddef_h} (n : Z) : Z := n mod 2 ^ SIZE_WIDTH.

(** the value of an arithmetic expression of type [int]; where C leaves
    an overflow undefined the value wraps around here, and the
    statements below keep away from it *)
Definition int_wrap (x : Z) : Z := int_of_uint32 (uint32 x).

(** Memory as the byte at each address.  [memcpy] copies [n] bytes, [n]
    a [size_t], from [src] to [dst]; the two regions must not overlap
    and must lie within the objects the pointers point into. *)
Definition memcpy (m : Z -> Z) (dst src n : Z) : Z -> Z :=
  fun a => if (dst <=? a) && (a <? dst + n) then m (src + (a - dst)) else m a.

(** The loop of [memcpy_pic2], with the rows left to copy as fuel. *)
Fixpoint pic_loop `{stddef_h} (rows : nat) (m : Z -> Z)
  (dst src bytesPerLine dstStride srcStride : Z) : Z -> Z :=
  match rows with
  | O => m
  | S rows' =>
      pic_loop rows' (memcpy m dst src (size_of_int bytesPerLine))
               (dst + dstStride) (src + srcStride) bytesPerLine dstStride srcStride
  end.

(** [memcpy_pic2]: the pointer it returns and the memory it leaves. *)
Definition memcpy_pic2 `{stddef_h} (m : Z -> Z)
  (dst src bytesPerLine height dstStride srcStride limit2width : Z) : Z * (Z -> Z) :=
  let retval := dst in
  if negb (truthy limit2width) && (dstStride =? srcStride)
  then
    if srcStride <? 0
    then
      let src' := src + int_wrap (int_wrap (height - 1) * srcStride) in
      let dst' := dst + int_wrap (int_wrap (height - 1) * dstStride) in
      let srcStride' := int_wrap (- srcStride) in
      (retval, memcpy m dst' src' (size_of_int (int_wrap (srcStride' * height))))
    else (retval, memcpy m dst src (size_of_int (int_wrap (srcStride * height))))
  else (retval, pic_loop (Z.to_nat height) m dst src bytesPerLine dstStride srcStride).

(** [memcpy_pic], the alias with [limit2width] 0. *)
Definition memcpy_pic `{stddef_h} (m : Z -> Z) (d s b h ds ss : Z) : Z * (Z -> Z) :=
  memcpy_pic2 m d s b h ds ss 0.

(** A platform whose [size_t] has 64 bits. *)
Definition lp64 : stddef_h := {| SIZE_WIDTH := 64 |}.

(** A memory for the examples: the byte at address [a] is [a mod 256]. *)
Definition ramp : Z -> Z := fun a => a mod 256.

(** ** The rendering of a four-character code *)

From Stdlib Require Import Ascii DecimalString.

(** [isprint] in the C locale, on the value of a byte. *)
Definition isprint (c : Z) : bool := (32 <=? c) && (c <=? 126).

Definition char_of_byte (c : Z) : ascii := ascii_of_N (Z.to_N c).

(** the four bytes of [code], the most significant first *)
Definition fcc_of (code : Z) : list Z :=
  [Z.land (Z.shiftr code 24) 255; Z.land (Z.shiftr code 16) 255;
   Z.land (Z.shiftr code 8) 255; Z.land code 255].

(** the loop that clears [valid_fourcc] on a byte that does not print *)
Fixpoint valid_loop (fcc : list Z) (valid : bool) : bool :=
  match fcc with
  | [] => valid
  | c :: rest => valid_loop rest (if negb (isprint c) then false else valid)
  end.

(** [fourcc_repr]: the characters between quotes when all four print,
    and otherwise the code as [%d] prints it, that is as an [int]. *)
Definition fourcc_repr (code : Z) : string :=
  let fcc := fcc_of code in
  if valid_loop fcc true
  then String "'"%char
         (fold_right (fun c s => String (char_of_byte c) s) (String "'"%char EmptyString) fcc)
  else NilZero.string_of_int (Z.to_int (int_of_uint32 code)).

(** * Properties *)

(** ** Comparisons of sample rates *)

Lemma Qle_bool_false p q : Qle_bool p q = false <-> (q < p)%Q.
Proof.
  split; intros E.
  - apply Qnot_le_lt. intros L. apply Qle_bool_iff in L. congruence.
  - destruct (Qle_bool p q) eqn:L; [|reflexivity].
    apply Qle_bool_iff in L. exfalso. revert L. apply Qlt_not_le, E.
Qed.

(** Case analysis on a goal about rates: the descriptors are opened,
    every double is split into its four kinds, and every comparison of
    rationals and of integers that remains is split in turn, leaving
    its meaning among the hypotheses. *)
Ltac rate_simpl :=
  cbn [mSampleRate mChannelsPerFrame dbl_eq dbl_lt negb andb orb Z.gtb Z.compare].

Ltac rate_cases :=
  repeat match goal with
  | a : AudioStreamBasicDescription |- _ => destruct a
  end;
  unfold adequate, rank, selected, ca_asbd_better, dbl_gt, dbl_le, dbl_zero;
  rate_simpl;
  repeat match goal with
  | x : Float64 |- _ => destruct x
  end;
  rate_simpl;
  repeat match goal with
  | |- context [Qeq_bool ?x ?y] =>
      let E := fresh "E" in
      destruct (Qeq_bool x y) eqn:E;
      [apply Qeq_bool_iff in E | apply Qeq_bool_neq in E];
      rate_simpl
  | |- context [Qle_bool ?x ?y] =>
      let E := fresh "E" in
      destruct (Qle_bool x y) eqn:E;
      [apply Qle_bool_iff in E | apply Qle_bool_false in E];
      rate_simpl
  | |- context [Z.eqb ?x ?y] =>
      let E := fresh "E" in
      destruct (Z.eqb_spec x y) as [E|E];
      rate_simpl
  end.

Ltac rate_solve :=
  rate_cases; intros;
  try reflexivity; try discriminate; try lia; try lra;
  try (intuition (try congruence; try lia; try lra)).

(** The comparisons of doubles are those of an order with one
    incomparable element. *)
Lemma dbl_eq_sym x y : dbl_eq x y = dbl_eq y x.
Proof.
  destruct x, y; try reflexivity. cbn.
  destruct (Qeq_bool q q0) eqn:E, (Qeq_bool q0 q) eqn:F; try reflexivity.
  - apply Qeq_bool_iff in E. apply Qeq_bool_neq in F. symmetry in E. contradiction.
  - apply Qeq_bool_iff in F. apply Qeq_bool_neq in E. symmetry in F. contradiction.
Qed.

Lemma dbl_eq_trans x y z : (x == y -> y == z -> x == z)%dbl.
Proof.
  destruct x, y, z; cbn; try discriminate; try reflexivity.
  rewrite !Qeq_bool_iff. intros E F. rewrite E. exact F.
Qed.

Lemma dbl_eq_refl x : x <> NaN -> (x == x)%dbl.
Proof.
  destruct x; cbn; try congruence. intros _. apply Qeq_bool_iff. reflexivity.
Qed.

Lemma dbl_eq_not_nan x y : (x == y)%dbl -> x <> NaN /\ y <> NaN.
Proof. destruct x, y; cbn; intros E; split; congruence. Qed.

(** Two doubles that are numbers are equal, or one is below the other. *)
Lemma dbl_trichotomy x y :
  x <> NaN -> y <> NaN -> (x < y)%dbl \/ (x == y)%dbl \/ (y < x)%dbl.
Proof.
  destruct x, y; cbn; try congruence; auto.
  intros _ _.
  destruct (Q_dec q q0) as [[L|G]|E].
  - left. apply negb_true_iff, Qle_bool_false, L.
  - right. right. apply negb_true_iff, Qle_bool_false, G.
  - right. left. apply Qeq_bool_iff, E.
Qed.

(** ** The format comparator *)

Lemma selected_adequate_l target a b :
  adequate target a -> adequate target (selected target a b).
Proof.
  rate_solve.
Qed.

Lemma selected_adequate_r target a b :
  adequate target b -> adequate target (selected target a b).
Proof.
  rate_solve.
Qed.

Lemma fold_fst_adequate target rest : forall best,
  adequate target best \/ Exists (adequate target) rest ->
  adequate target (fold_left (fun best cand => selected target best cand) rest best).
Proof.
  induction rest as [|c rest IH]; intros best H; simpl.
  - destruct H as [H|H]; [exact H | inversion H].
  - apply IH. destruct H as [H|H].
    + left. apply selected_adequate_l, H.
    + inversion H; subst; [left; apply selected_adequate_r; assumption | right; assumption].
Qed.

Lemma fold_snd_adequate target rest : forall best,
  adequate target best \/ Exists (adequate target) rest ->
  adequate target (fold_left (fun best cand => selected target cand best) rest best).
Proof.
  induction rest as [|c rest IH]; intros best H; simpl.
  - destruct H as [H|H]; [exact H | inversion H].
  - apply IH. destruct H as [H|H].
    + left. apply selected_adequate_r, H.
    + inversion H; subst; [left; apply selected_adequate_l; assumption | right; assumption].
Qed.

(** Whatever the comparator designates is one of its two arguments. *)
Lemma selected_either target a b :
  selected target a b = a \/ selected target a b = b.
Proof. unfold selected. destruct (_ >? _); auto. Qed.

Lemma fold_fst_in target rest : forall best,
  In (fold_left (fun best cand => selected target best cand) rest best) (best :: rest).
Proof.
  induction rest as [|c rest IH]; intros best; simpl; [auto|].
  destruct (IH (selected target best c)) as [E|I]; [|auto].
  rewrite <- E.
  destruct (selected_either target best c) as [S|S]; rewrite S; auto.
Qed.

Lemma fold_snd_in target rest : forall best,
  In (fold_left (fun best cand => selected target cand best) rest best) (best :: rest).
Proof.
  induction rest as [|c rest IH]; intros best; simpl; [auto|].
  destruct (IH (selected target c best)) as [E|I]; [|auto].
  rewrite <- E.
  destruct (selected_either target c best) as [S|S]; rewrite S; auto.
Qed.

(** With an adequate candidate in the list, the winner is adequate. *)
Lemma reduce_adequate target cands :
  Exists (adequate target) cands ->
  (exists w, reduce_fst target cands = Some w /\ adequate target w) /\
  (exists w, reduce_snd target cands = Some w /\ adequate target w).
Proof.
  intros H. destruct cands as [|c rest]; [inversion H|].
  split; eexists; (split; [reflexivity|]).
  - apply fold_fst_adequate. inversion H; subst; auto.
  - apply fold_snd_adequate. inversion H; subst; auto.
Qed.

Lemma reduce_in target cands :
  (forall w, reduce_fst target cands = Some w -> In w cands) /\
  (forall w, reduce_snd target cands = Some w -> In w cands).
Proof.
  destruct cands as [|c rest]; simpl; split; intros w E; inversion E; subst.
  - apply fold_fst_in.
  - apply fold_snd_in.
Qed.

(** The scenario of the specification: an uninitialized candidate, one
    below the target, the exact match and one above it. *)
Example scenario_reduce :
  reduce_fst (pcm16 48000 2) [pcm16 0 2; pcm16 44100 2; pcm16 48000 2; pcm16 96000 2]
    = Some (pcm16 48000 2) /\
  reduce_snd (pcm16 48000 2) [pcm16 0 2; pcm16 44100 2; pcm16 48000 2; pcm16 96000 2]
    = Some (pcm16 48000 2).
Proof. split; reflexivity. Qed.

(** C1, evaluated on the code: the target asks for 48000 Hz, both
    candidates are initialized, have the target's channel count and a
    rate above the target's.  The first candidate has the lower rate
    (96000 Hz against 192000 Hz), yet [ca_asbd_better] answers [1] and
    so designates the second: once the first rate exceeds the target's,
    the second rate is not looked at. *)
Theorem better_above_target_takes_second :
  (mSampleRate (pcm16 48000 2) <= mSampleRate (pcm16 96000 2))%dbl /\
  (mSampleRate (pcm16 96000 2) < mSampleRate (pcm16 192000 2))%dbl /\
  ca_asbd_better (pcm16 48000 2) (pcm16 96000 2) (pcm16 192000 2) = 1 /\
  selected (pcm16 48000 2) (pcm16 96000 2) (pcm16 192000 2) = pcm16 192000 2.
Proof.
  repeat split; reflexivity.
Qed.

(** The same defect seen through the reduction: two candidates above
    the target's rate, and the winner is whichever the reduction
    compares last. *)
Example reduction_above_target :
  reduce_fst (pcm16 48000 2) [pcm16 96000 2; pcm16 192000 2] = Some (pcm16 192000 2) /\
  reduce_fst (pcm16 48000 2) [pcm16 192000 2; pcm16 96000 2] = Some (pcm16 96000 2) /\
  reduce_snd (pcm16 48000 2) [pcm16 96000 2; pcm16 192000 2] = Some (pcm16 96000 2) /\
  reduce_snd (pcm16 48000 2) [pcm16 192000 2; pcm16 96000 2] = Some (pcm16 192000 2).
Proof. repeat split; reflexivity. Qed.

(** C2 as stated fails on two candidates below the target's rate: their
    rates differ, the two lists are permutations of each other, and the
    winners differ, whichever argument the running winner is passed
    as. *)
Lemma reduction_below_target_depends_on_order :
  Permutation [pcm16 44100 2; pcm16 22050 2] [pcm16 22050 2; pcm16 44100 2] /\
  ~ (mSampleRate (pcm16 44100 2) == mSampleRate (pcm16 22050 2))%dbl /\
  reduce_fst (pcm16 48000 2) [pcm16 44100 2; pcm16 22050 2] = Some (pcm16 22050 2) /\
  reduce_fst (pcm16 48000 2) [pcm16 22050 2; pcm16 44100 2] = Some (pcm16 44100 2) /\
  reduce_snd (pcm16 48000 2) [pcm16 44100 2; pcm16 22050 2] = Some (pcm16 44100 2) /\
  reduce_snd (pcm16 48000 2) [pcm16 22050 2; pcm16 44100 2] = Some (pcm16 22050 2) /\
  pcm16 44100 2 <> pcm16 22050 2.
Proof.
  split; [apply perm_swap|].
  split; [intros E; discriminate E|].
  repeat split; try reflexivity.
  intros E. discriminate E.
Qed.

(** Of two descriptors of different rank [ca_asbd_better] designates the
    one of higher rank, in either argument. *)
Lemma selected_higher_rank_l target a b :
  rank target b < rank target a -> selected target a b = a.
Proof.
  rate_solve.
Qed.

Lemma selected_higher_rank_r target a b :
  rank target a < rank target b -> selected target a b = b.
Proof.
  rate_solve.
Qed.

Lemma selected_outranking_l target e c :
  c = e \/ rank target c < rank target e -> selected target e c = e.
Proof.
  intros [->|R].
  - destruct (selected_either target e e); assumption.
  - apply selected_higher_rank_l, R.
Qed.

Lemma selected_outranking_r target e c :
  c = e \/ rank target c < rank target e -> selected target c e = e.
Proof.
  intros [->|R].
  - destruct (selected_either target e e); assumption.
  - apply selected_higher_rank_r, R.
Qed.

(** A fold over candidates that a descriptor [e] outranks ends on [e]
    as soon as [e] is the running winner or is still to come. *)
Lemma fold_outranking (step : AudioStreamBasicDescription -> AudioStreamBasicDescription ->
                              AudioStreamBasicDescription) target e :
  (forall a b, step a b = a \/ step a b = b) ->
  (forall c, c = e \/ rank target c < rank target e -> step e c = e /\ step c e = e) ->
  forall rest best,
  (forall c, In c (best :: rest) -> c = e \/ rank target c < rank target e) ->
  In e (best :: rest) ->
  fold_left step rest best = e.
Proof.
  intros Heither Hwins.
  induction rest as [|c rest IH]; intros best Hall Hin.
  - destruct Hin as [->|[]]. reflexivity.
  - cbn [fold_left]. apply IH.
    + intros x [<-|Hx].
      * destruct (Heither best c) as [->| ->]; apply Hall; simpl; auto.
      * apply Hall. simpl. auto.
    + destruct Hin as [->|[->|Hin]].
      * left. apply Hwins, Hall. simpl; auto.
      * left. apply Hwins, Hall. simpl; auto.
      * right. exact Hin.
Qed.

(** C2, amended: a candidate that strictly outranks every other
    candidate of the list is the winner of the reduction under every
    permutation of the list, for both argument orders of the
    reduction. *)
Theorem outranking_candidate_wins target cands cands' e :
  In e cands ->
  (forall c, In c cands -> c = e \/ rank target c < rank target e) ->
  Permutation cands cands' ->
  reduce_fst target cands' = Some e /\ reduce_snd target cands' = Some e.
Proof.
  intros Hin Hall Hperm.
  assert (Hin' : In e cands') by (eapply Permutation_in; eassumption).
  assert (Hall' : forall c, In c cands' -> c = e \/ rank target c < rank target e).
  { intros c Hc. apply Hall. eapply Permutation_in; [symmetry; exact Hperm | exact Hc]. }
  destruct cands' as [|c0 rest]; [destruct Hin'|].
  split; cbn [reduce_fst reduce_snd]; f_equal.
  - apply (fold_outranking (fun best cand => selected target best cand) target e);
      try assumption.
    + intros a b. apply selected_either.
    + intros c Hc. split; [apply selected_outranking_l | apply selected_outranking_r]; exact Hc.
  - apply (fold_outranking (fun best cand => selected target cand best) target e);
      try assumption.
    + intros a b. destruct (selected_either target b a); auto.
    + intros c Hc. split; [apply selected_outranking_r | apply selected_outranking_l]; exact Hc.
Qed.

Lemma outranking_candidate_wins_witness :
  reduce_fst (pcm16 48000 2) [pcm16 96000 2; pcm16 0 2; pcm16 48000 2; pcm16 44100 2]
    = Some (pcm16 48000 2) /\
  reduce_snd (pcm16 48000 2) [pcm16 96000 2; pcm16 0 2; pcm16 48000 2; pcm16 44100 2]
    = Some (pcm16 48000 2).
Proof.
  apply (outranking_candidate_wins (pcm16 48000 2)
           [pcm16 0 2; pcm16 44100 2; pcm16 48000 2; pcm16 96000 2]
           [pcm16 96000 2; pcm16 0 2; pcm16 48000 2; pcm16 44100 2]
           (pcm16 48000 2)).
  - simpl. auto.
  - intros c [<-|[<-|[<-|[<-|[]]]]]; vm_compute; auto.
  - apply Permutation_sym.
    apply (perm_trans (l' := [pcm16 0 2; pcm16 96000 2; pcm16 48000 2; pcm16 44100 2])).
    + apply perm_swap.
    + apply perm_skip.
      apply (perm_trans (l' := [pcm16 48000 2; pcm16 96000 2; pcm16 44100 2])).
      * apply perm_swap.
      * apply (perm_trans (l' := [pcm16 48000 2; pcm16 44100 2; pcm16 96000 2])).
        -- apply perm_skip, perm_swap.
        -- apply perm_swap.
Defined.

(** C7 as stated fails twice.  An uninitialized candidate (rate 0) has
    the target's channel count and a rate that is at least the rate of
    a target below 0, and loses to a candidate below the target.  And a
    candidate whose rate is a NaN is neither below nor above the
    target: it replaces a candidate above the target, and no NaN is at
    least the target's rate. *)
Lemma uninitialized_or_nan_winner :
  (let target := mkASBD (dbl_of_int (-10)) kAudioFormatLinearPCM 12 4 1 4 2 16 in
   let zero   := mkASBD (dbl_of_int 0) kAudioFormatLinearPCM 12 4 1 4 2 16 in
   let low    := mkASBD (dbl_of_int (-20)) kAudioFormatLinearPCM 12 4 1 4 2 16 in
   (mSampleRate target <= mSampleRate zero)%dbl /\
   mChannelsPerFrame zero = mChannelsPerFrame target /\
   reduce_fst target [zero; low] = Some low /\
   reduce_snd target [zero; low] = Some low /\
   ~ (mSampleRate target <= mSampleRate low)%dbl) /\
  (let target := pcm16 48000 2 in
   let high   := pcm16 96000 2 in
   let nan    := mkASBD NaN kAudioFormatLinearPCM 12 4 1 4 2 16 in
   (mSampleRate target <= mSampleRate high)%dbl /\
   mChannelsPerFrame high = mChannelsPerFrame target /\
   reduce_fst target [high; nan] = Some nan /\
   reduce_snd target [high; nan] = Some nan /\
   ~ (mSampleRate target <= mSampleRate nan)%dbl).
Proof.
  split; cbv zeta; repeat split; try reflexivity; intros E; discriminate E.
Qed.

(** A rate that is not below the target's and is a number is at least
    the target's, when the target's rate is a number. *)
Lemma not_below_at_least x t :
  ~ (x < t)%dbl -> x <> NaN -> t <> NaN -> (t <= x)%dbl.
Proof.
  intros Hn Hx Ht. unfold dbl_le.
  destruct (dbl_trichotomy x t Hx Ht) as [L|[E|G]].
  - contradiction.
  - rewrite dbl_eq_sym, E. apply orb_true_r.
  - rewrite G. reflexivity.
Qed.

Lemma at_least_not_nan t x : (t <= x)%dbl -> t <> NaN /\ x <> NaN.
Proof. destruct t, x; cbn; intros E; split; congruence. Qed.

Lemma at_least_not_below t x : (t <= x)%dbl -> ~ (x < t)%dbl.
Proof. rate_solve. Qed.

(** C7, amended: a list with an initialized candidate that has the
    target's channel count and at least the target's rate reduces to a
    winner whose rate is not below the target's, and is at least the
    target's unless it is a NaN.  The reduction returns a winner, and
    the bound holds for both argument orders of the reduction. *)
Theorem never_downsample target cands :
  Exists (fun c => ~ (mSampleRate c == dbl_zero)%dbl /\
                   (mSampleRate target <= mSampleRate c)%dbl /\
                   mChannelsPerFrame c = mChannelsPerFrame target) cands ->
  (exists w, reduce_fst target cands = Some w /\
             ~ (mSampleRate w < mSampleRate target)%dbl /\
             (mSampleRate w <> NaN -> (mSampleRate target <= mSampleRate w)%dbl)) /\
  (exists w, reduce_snd target cands = Some w /\
             ~ (mSampleRate w < mSampleRate target)%dbl /\
             (mSampleRate w <> NaN -> (mSampleRate target <= mSampleRate w)%dbl)).
Proof.
  intros Hex.
  assert (Ht : mSampleRate target <> NaN).
  { apply List.Exists_exists in Hex as (c & _ & _ & Hr & _).
    apply at_least_not_nan in Hr. apply Hr. }
  assert (Ha : Exists (adequate target) cands).
  { eapply Exists_impl; [exact Hex|]. intros c (Hi & Hr & Hc).
    repeat split; try assumption. apply at_least_not_below, Hr. }
  destruct (reduce_adequate target cands Ha) as [(w1 & E1 & A1) (w2 & E2 & A2)].
  split; [exists w1 | exists w2]; (split; [assumption|]).
  - destruct A1 as (_ & _ & A1). split; [exact A1|].
    intros Hw. apply not_below_at_least; assumption.
  - destruct A2 as (_ & _ & A2). split; [exact A2|].
    intros Hw. apply not_below_at_least; assumption.
Qed.

Lemma never_downsample_witness :
  (exists w, reduce_fst (pcm16 48000 2)
               [pcm16 0 2; pcm16 44100 2; pcm16 48000 2; pcm16 96000 2] = Some w /\
             ~ (mSampleRate w < mSampleRate (pcm16 48000 2))%dbl /\
             (mSampleRate w <> NaN ->
              (mSampleRate (pcm16 48000 2) <= mSampleRate w)%dbl)) /\
  (exists w, reduce_snd (pcm16 48000 2)
               [pcm16 0 2; pcm16 44100 2; pcm16 48000 2; pcm16 96000 2] = Some w /\
             ~ (mSampleRate w < mSampleRate (pcm16 48000 2))%dbl /\
             (mSampleRate w <> NaN ->
              (mSampleRate (pcm16 48000 2) <= mSampleRate w)%dbl)).
Proof.
  apply (never_downsample (pcm16 48000 2)
           [pcm16 0 2; pcm16 44100 2; pcm16 48000 2; pcm16 96000 2]).
  right. right. left. repeat split; try reflexivity. intros E. discriminate E.
Defined.

(** C8 as stated fails on an uninitialized first candidate: it has the
    target's channel count, the other candidate has not, and the other
    candidate is designated. *)
Lemma uninitialized_match_loses :
  mChannelsPerFrame (pcm16 0 2) = mChannelsPerFrame (pcm16 48000 2) /\
  mChannelsPerFrame (pcm16 44100 1) <> mChannelsPerFrame (pcm16 48000 2) /\
  ca_asbd_better (pcm16 48000 2) (pcm16 0 2) (pcm16 44100 1) = 1 /\
  selected (pcm16 48000 2) (pcm16 0 2) (pcm16 44100 1) = pcm16 44100 1 /\
  ca_asbd_better (pcm16 48000 2) (pcm16 44100 1) (pcm16 0 2) = -1 /\
  selected (pcm16 48000 2) (pcm16 44100 1) (pcm16 0 2) = pcm16 44100 1.
Proof.
  repeat split; try reflexivity. simpl. lia.
Qed.

(** C8, amended: an initialized candidate [a] that has the target's
    channel count is designated against a candidate [b] that has not,
    whatever the two rates otherwise are and whichever argument [a] is
    passed as. *)
Theorem channel_match_wins target a b :
  ~ (mSampleRate a == dbl_zero)%dbl ->
  mChannelsPerFrame a = mChannelsPerFrame target ->
  mChannelsPerFrame b <> mChannelsPerFrame target ->
  ca_asbd_better target a b = -1 /\ selected target a b = a /\
  ca_asbd_better target b a = 1 /\ selected target b a = a.
Proof.
  rate_solve.
Qed.

Lemma channel_match_wins_witness :
  ca_asbd_better (pcm16 48000 2) (pcm16 22050 2) (pcm16 48000 6) = -1 /\
  selected (pcm16 48000 2) (pcm16 22050 2) (pcm16 48000 6) = pcm16 22050 2 /\
  ca_asbd_better (pcm16 48000 2) (pcm16 48000 6) (pcm16 22050 2) = 1 /\
  selected (pcm16 48000 2) (pcm16 48000 6) (pcm16 22050 2) = pcm16 22050 2.
Proof.
  apply (channel_match_wins (pcm16 48000 2) (pcm16 22050 2) (pcm16 48000 6)).
  - intros E. discriminate E.
  - reflexivity.
  - simpl. lia.
Defined.

(** ** The format codec *)

Section Codec.

Context {H : af_format_h} (L : af_format_laws H).

Ltac split_eqb :=
  repeat match goal with
  | |- context [Z.eqb ?a ?b] => destruct (Z.eqb_spec a b)
  end;
  try congruence; try reflexivity.

Lemma land_outside x m m' :
  Z.land x m = x -> Z.land m m' = 0 -> Z.land x m' = 0.
Proof.
  intros Hx Hm. rewrite <- Hx, <- Z.land_assoc, Hm. apply Z.land_0_r.
Qed.

Lemma land_outside' x m m' :
  Z.land x m = x -> Z.land m' m = 0 -> Z.land x m' = 0.
Proof.
  intros Hx Hm. apply (land_outside x m m' Hx). rewrite Z.land_comm. exact Hm.
Qed.

(** The four fields of a format built by [mp_format_of]. *)
Lemma format_bits_field c e d :
  Z.land (mp_format_of c e d) AF_FORMAT_BITS_MASK = depth_mask d.
Proof.
  unfold mp_format_of. rewrite !Z.land_lor_distr_l.
  rewrite (depth_in_field H L).
  rewrite (land_outside' _ _ _ (point_in_field H L c) (bits_point_disjoint H L)).
  rewrite (land_outside' _ _ _ (sign_in_field H L c) (bits_sign_disjoint H L)).
  rewrite (land_outside' _ _ _ (endian_in_field H L e) (bits_end_disjoint H L)).
  rewrite !Z.lor_0_r. reflexivity.
Qed.

Lemma format_point_field c e d :
  Z.land (mp_format_of c e d) AF_FORMAT_POINT_MASK = point_mask c.
Proof.
  unfold mp_format_of. rewrite !Z.land_lor_distr_l.
  rewrite (point_in_field H L).
  rewrite (land_outside _ _ _ (depth_in_field H L d) (bits_point_disjoint H L)).
  rewrite (land_outside' _ _ _ (sign_in_field H L c) (point_sign_disjoint H L)).
  rewrite (land_outside' _ _ _ (endian_in_field H L e) (point_end_disjoint H L)).
  rewrite !Z.lor_0_r. reflexivity.
Qed.

Lemma format_sign_field c e d :
  Z.land (mp_format_of c e d) AF_FORMAT_SIGN_MASK = sign_mask c.
Proof.
  unfold mp_format_of. rewrite !Z.land_lor_distr_l.
  rewrite (sign_in_field H L).
  rewrite (land_outside _ _ _ (depth_in_field H L d) (bits_sign_disjoint H L)).
  rewrite (land_outside _ _ _ (point_in_field H L c) (point_sign_disjoint H L)).
  rewrite (land_outside' _ _ _ (endian_in_field H L e) (sign_end_disjoint H L)).
  rewrite !Z.lor_0_r. reflexivity.
Qed.

Lemma format_end_field c e d :
  Z.land (mp_format_of c e d) AF_FORMAT_END_MASK = endian_mask e.
Proof.
  unfold mp_format_of. rewrite !Z.land_lor_distr_l.
  rewrite (endian_in_field H L).
  rewrite (land_outside _ _ _ (depth_in_field H L d) (bits_end_disjoint H L)).
  rewrite (land_outside _ _ _ (point_in_field H L c) (point_end_disjoint H L)).
  rewrite (land_outside _ _ _ (sign_in_field H L c) (sign_end_disjoint H L)).
  rewrite !Z.lor_0_r. reflexivity.
Qed.

(** The flags [ca_make_asbd] sets: packed always, float for the float
    class, big-endian for big-endian formats, signed-integer for the
    signed class and never for the unsigned one. *)
Lemma make_asbd_float_flag c e d rate channels :
  truthy (Z.land (int_of_uint32 (mFormatFlags (ca_make_asbd (mp_format_of c e d) rate channels)))
                 kAudioFormatFlagIsFloat)
  = match c with Float => true | _ => false end.
Proof.
  unfold ca_make_asbd; cbn [mFormatFlags].
  rewrite format_point_field, format_sign_field, format_end_field.
  pose proof (int_not_float H L) as NF.
  destruct c; cbn [point_mask sign_mask]; split_eqb.
Qed.

Lemma make_asbd_signed_flag c e d rate channels :
  c <> Float ->
  truthy (Z.land (int_of_uint32 (mFormatFlags (ca_make_asbd (mp_format_of c e d) rate channels)))
                 kAudioFormatFlagIsSignedInteger)
  = match c with SignedInt => true | _ => false end.
Proof.
  intros NFl.
  unfold ca_make_asbd; cbn [mFormatFlags].
  rewrite format_point_field, format_sign_field, format_end_field.
  pose proof (int_not_float H L) as NF.
  pose proof (signed_not_unsigned H L) as NS.
  destruct c; [contradiction| |]; cbn [point_mask sign_mask]; split_eqb.
Qed.

Lemma make_asbd_endian_flag c e d rate channels :
  truthy (Z.land (int_of_uint32 (mFormatFlags (ca_make_asbd (mp_format_of c e d) rate channels)))
                 kAudioFormatFlagIsBigEndian)
  = match e with BigEndian => true | LittleEndian => false end.
Proof.
  unfold ca_make_asbd; cbn [mFormatFlags].
  rewrite format_point_field, format_sign_field, format_end_field.
  pose proof (big_not_little H L) as NE.
  destruct e; cbn [endian_mask]; split_eqb.
Qed.

Lemma make_asbd_bits c e d rate channels :
  int_of_uint32 (mBitsPerChannel (ca_make_asbd (mp_format_of c e d) rate channels))
  = depth_bits d.
Proof.
  unfold ca_make_asbd; cbn [mBitsPerChannel].
  rewrite (fmt2bits_depth H L). destruct d; reflexivity.
Qed.

Lemma codec_identity c e d rate channels :
  ca_make_mp_format (ca_make_asbd (mp_format_of c e d) rate channels) = mp_format_of c e d.
Proof.
  unfold ca_make_mp_format.
  rewrite make_asbd_bits, make_asbd_float_flag, make_asbd_endian_flag.
  rewrite (bits_to_mask_depth H L), (unknown_zero H L), Z.lor_0_l.
  destruct c.
  - unfold mp_format_of; cbn [point_mask sign_mask]. rewrite Z.lor_0_r.
    destruct e; reflexivity.
  - rewrite make_asbd_signed_flag by discriminate.
    unfold mp_format_of; cbn [point_mask sign_mask]. destruct e; reflexivity.
  - rewrite make_asbd_signed_flag by discriminate.
    unfold mp_format_of; cbn [point_mask sign_mask]. destruct e; reflexivity.
Qed.

(** C5: for each of the three classes, two byte orders and four bit
    depths, and any rate and channel count, decoding the description
    that [ca_make_asbd] builds gives back the sample format: the same
    integer, whose bit-depth, class, sign and byte-order fields are
    those the format was built from. *)
Theorem codec_round_trip c e d rate channels :
  ca_make_mp_format (ca_make_asbd (mp_format_of c e d) rate channels)
    = mp_format_of c e d /\
  Z.land (ca_make_mp_format (ca_make_asbd (mp_format_of c e d) rate channels))
         AF_FORMAT_BITS_MASK = depth_mask d /\
  Z.land (ca_make_mp_format (ca_make_asbd (mp_format_of c e d) rate channels))
         AF_FORMAT_POINT_MASK = point_mask c /\
  Z.land (ca_make_mp_format (ca_make_asbd (mp_format_of c e d) rate channels))
         AF_FORMAT_SIGN_MASK = sign_mask c /\
  Z.land (ca_make_mp_format (ca_make_asbd (mp_format_of c e d) rate channels))
         AF_FORMAT_END_MASK = endian_mask e.
Proof.
  rewrite codec_identity.
  split; [reflexivity|].
  split; [apply format_bits_field|].
  split; [apply format_point_field|].
  split; [apply format_sign_field | apply format_end_field].
Qed.

End Codec.

(** The instance laid out as in mpv satisfies the laws. *)
Lemma mpv_format_laws : af_format_laws mpv_format_h.
Proof.
  constructor; try reflexivity; try discriminate.
  - intros []; reflexivity.
  - intros []; reflexivity.
  - intros []; reflexivity.
  - intros []; reflexivity.
  - intros [] [] []; reflexivity.
  - intros []; reflexivity.
Qed.

(** 32-bit little-endian float, 48000 Hz, stereo. *)
Lemma codec_round_trip_witness :
  @ca_make_mp_format mpv_format_h
     (@ca_make_asbd mpv_format_h (@mp_format_of mpv_format_h Float LittleEndian Bits32) 48000 2)
    = @mp_format_of mpv_format_h Float LittleEndian Bits32 /\
  Z.land (@ca_make_mp_format mpv_format_h
     (@ca_make_asbd mpv_format_h (@mp_format_of mpv_format_h Float LittleEndian Bits32) 48000 2))
         (@AF_FORMAT_BITS_MASK mpv_format_h) = @depth_mask mpv_format_h Bits32 /\
  Z.land (@ca_make_mp_format mpv_format_h
     (@ca_make_asbd mpv_format_h (@mp_format_of mpv_format_h Float LittleEndian Bits32) 48000 2))
         (@AF_FORMAT_POINT_MASK mpv_format_h) = @point_mask mpv_format_h Float /\
  Z.land (@ca_make_mp_format mpv_format_h
     (@ca_make_asbd mpv_format_h (@mp_format_of mpv_format_h Float LittleEndian Bits32) 48000 2))
         (@AF_FORMAT_SIGN_MASK mpv_format_h) = @sign_mask mpv_format_h Float /\
  Z.land (@ca_make_mp_format mpv_format_h
     (@ca_make_asbd mpv_format_h (@mp_format_of mpv_format_h Float LittleEndian Bits32) 48000 2))
         (@AF_FORMAT_END_MASK mpv_format_h) = @endian_mask mpv_format_h LittleEndian.
Proof.
  apply (@codec_round_trip mpv_format_h mpv_format_laws Float LittleEndian Bits32 48000 2).
Defined.

(** Signed 16-bit little-endian at 44100 Hz, stereo, in that instance:
    packed and signed, four bytes to the frame. *)
Example make_asbd_s16le :
  @ca_make_asbd mpv_format_h (@mp_format_of mpv_format_h SignedInt LittleEndian Bits16) 44100 2
  = {| mSampleRate := dbl_of_int 44100;
       mFormatID := kAudioFormatLinearPCM;
       mFormatFlags := 12;
       mBytesPerPacket := 4;
       mFramesPerPacket := 1;
       mBytesPerFrame := 4;
       mChannelsPerFrame := 2;
       mBitsPerChannel := 16 |}.
Proof. reflexivity. Qed.


(** ** The channel layout resolver *)

Section Layouts.

Context {C : chmap_h} {S : audio_format_services}.

Lemma uint32_land x : uint32 x = Z.land x (Z.ones 32).
Proof. unfold uint32. rewrite Z.land_ones by lia. reflexivity. Qed.

Lemma uint64_land x : uint64 x = Z.land x (Z.ones 64).
Proof. unfold uint64. rewrite Z.land_ones by lia. reflexivity. Qed.

(** The store of one channel's bit into a 32-bit bitmap. *)
Lemma or_speaker_bit b label :
  uint32 b = b ->
  uint32 (Z.lor b (uint64 (Z.shiftl 1 (ca_label_to_mp_speaker_id label))))
  = Z.lor b (label_bit label).
Proof.
  intros Hb. unfold label_bit.
  rewrite (uint32_land (Z.lor _ _)), Z.land_lor_distr_l, <- uint32_land, Hb.
  rewrite uint64_land, <- Z.land_assoc.
  replace (Z.land (Z.ones 64) (Z.ones 32)) with (Z.ones 32) by reflexivity.
  rewrite <- uint32_land. reflexivity.
Qed.

Lemma uint32_lor a b : uint32 a = a -> uint32 b = b -> uint32 (Z.lor a b) = Z.lor a b.
Proof.
  intros Ha Hb. rewrite uint32_land, Z.land_lor_distr_l, <- !uint32_land, Ha, Hb.
  reflexivity.
Qed.

Lemma uint32_idem x : uint32 (uint32 x) = uint32 x.
Proof. unfold uint32. apply Z.mod_mod. lia. Qed.

Lemma ch_desc_loop_invalid labels b :
  ch_desc_loop labels b false = (b, false).
Proof. destruct labels; reflexivity. Qed.

Lemma ch_desc_loop_valid labels : forall b,
  uint32 b = b ->
  forallb label_mapped labels = true ->
  ch_desc_loop labels b true = (fold_left Z.lor (map label_bit labels) b, true).
Proof.
  induction labels as [|l rest IH]; intros b Hb Hall; [reflexivity|].
  simpl in Hall. apply andb_true_iff in Hall as [Hl Hrest].
  unfold label_mapped in Hl. apply Z.leb_le in Hl.
  cbn [ch_desc_loop map fold_left].
  destruct (Z.ltb_spec (ca_label_to_mp_speaker_id l) 0) as [Neg|_]; [lia|].
  rewrite or_speaker_bit by exact Hb.
  apply IH; [|exact Hrest].
  apply uint32_lor; [exact Hb | apply uint32_idem].
Qed.

Lemma ch_desc_loop_rejects labels : forall b,
  forallb label_mapped labels = false ->
  (ch_desc_loop labels b true).2 = false.
Proof.
  induction labels as [|l rest IH]; intros b Hall; [discriminate|].
  simpl in Hall. cbn [ch_desc_loop].
  unfold label_mapped in Hall at 1.
  destruct (Z.ltb_spec (ca_label_to_mp_speaker_id l) 0) as [Neg|Pos].
  - rewrite ch_desc_loop_invalid. reflexivity.
  - apply IH. destruct (Z.leb_spec 0 (ca_label_to_mp_speaker_id l)); [exact Hall | lia].
Qed.

(** One iteration of the loop of [ca_bitmaps_from_layouts] stores the
    bitmap of a layout that resolves and stores nothing otherwise. *)
Lemma layouts_step_resolve o layout :
  layouts_step o layout =
  match resolve_layout layout with
  | Some v => push_bitmap v o
  | None => o
  end.
Proof.
  unfold layouts_step, resolve_layout.
  destruct (_ =? kAudioChannelLayoutTag_UseChannelBitmap); [reflexivity|].
  destruct (_ =? kAudioChannelLayoutTag_UseChannelDescriptions).
  - unfold ca_bitmap_from_ch_desc. cbn [fst snd].
    destruct (forallb label_mapped (mChannelDescriptions layout)) eqn:V.
    + rewrite ch_desc_loop_valid by (reflexivity || exact V). reflexivity.
    + rewrite ch_desc_loop_rejects by exact V. reflexivity.
  - unfold ca_bitmap_from_ch_tag.
    destruct (_ =? noErr); reflexivity.
Qed.

Lemma written_push v o :
  (n_bitmaps o < length (bitmaps o))%nat ->
  written (push_bitmap v o) = written o ++ [Some v].
Proof.
  intros Hlt. unfold written, push_bitmap. cbn [n_bitmaps bitmaps].
  rewrite (take_S_r _ _ (Some v)) by (apply list_lookup_insert_eq; exact Hlt).
  rewrite take_insert_ge by lia. reflexivity.
Qed.

Lemma fold_layouts layouts : forall o,
  (n_bitmaps o + length layouts <= length (bitmaps o))%nat ->
  written (fold_left layouts_step layouts o)
    = written o ++ map Some (omap resolve_layout layouts) /\
  n_bitmaps (fold_left layouts_step layouts o)
    = (n_bitmaps o + length (omap resolve_layout layouts))%nat /\
  length (bitmaps (fold_left layouts_step layouts o)) = length (bitmaps o).
Proof.
  induction layouts as [|l rest IH]; intros o Hroom.
  - cbn. rewrite app_nil_r. auto with arith.
  - cbn [fold_left length] in *. rewrite layouts_step_resolve.
    cbn [omap list_omap]. fold (omap resolve_layout rest).
    destruct (resolve_layout l) as [v|].
    + destruct (IH (push_bitmap v o)) as (W & N & Len).
      { cbn [push_bitmap n_bitmaps bitmaps]. rewrite length_insert. lia. }
      rewrite W, N, Len. rewrite written_push by lia.
      cbn [push_bitmap n_bitmaps bitmaps map length]. rewrite length_insert.
      rewrite <- app_assoc. repeat split; try reflexivity; lia.
    + apply IH. lia.
Qed.



Lemma forallb_false {A} (f : A -> bool) (l : list A) :
  forallb f l = false <-> exists x, In x l /\ f x = false.
Proof.
  induction l as [|a l IH]; cbn [forallb In].
  - split; [discriminate | intros (x & [] & _)].
  - rewrite andb_false_iff, IH. split.
    + intros [Fa|(x & Hx & Fx)]; [exists a | exists x]; auto.
    + intros (x & [->|Hx] & Fx); [left | right; exists x]; auto.
Qed.


Lemma fold_lor_uint32 (l : list Z) : forall b,
  uint32 b = b -> Forall (fun x => uint32 x = x) l ->
  uint32 (fold_left Z.lor l b) = fold_left Z.lor l b.
Proof.
  induction l as [|x l IH]; intros b Hb Hl; [exact Hb|].
  inversion Hl; subst. cbn [fold_left]. apply IH; [|assumption].
  apply uint32_lor; assumption.
Qed.

(** *** The code against the table *)













End Layouts.



(** The scenario of the specification: a bitmap layout, a layout of
    descriptions with an unknown label, and a layout given by a tag the
    platform knows. *)
Example scenario_layouts :
  written (@ca_bitmaps_from_layouts mpv_chmap_h sample_services
             [mkLayout kAudioChannelLayoutTag_UseChannelBitmap 3 [];
              mkLayout kAudioChannelLayoutTag_UseChannelDescriptions 0
                       [kAudioChannelLabel_Unknown];
              mkLayout 7733254 0 []])
  = [Some 3; Some 51].
Proof. reflexivity. Qed.

(** A layout of descriptions for left, right and centre resolves to the
    three low bits; a label past the table (here 99) rejects the layout
    even after valid labels. *)
Example scenario_descriptions :
  written (@ca_bitmaps_from_layouts mpv_chmap_h sample_services
             [mkLayout kAudioChannelLayoutTag_UseChannelDescriptions 0 [1; 2; 3];
              mkLayout kAudioChannelLayoutTag_UseChannelDescriptions 0 [1; 2; 99];
              mkLayout 424242 0 [];
              mkLayout 6619138 0 []])
  = [Some 7; Some 3].
Proof. reflexivity. Qed.

(** ** The property listener *)

Lemma property_listener_loop_spec selector addresses data m :
  property_listener_loop selector addresses data m
  = if carries selector addresses && truthy data then <[data := 1]> m else m.
Proof.
  induction addresses as [|a rest IH]; [reflexivity|].
  cbn [property_listener_loop carries existsb].
  destruct (mSelector a =? selector); [reflexivity|].
  rewrite IH. reflexivity.
Qed.

(** C10: whatever [sel] is, enabling is the HAL's add request and
    disabling its remove request for [ca_stream_listener] on the
    virtual-format address of the device, with [flag] as context; a
    successful request adds, respectively removes, that registry entry.
    The listener itself answers [noErr] and stores [1] through a
    non-null [data] exactly when a notified address carries the
    physical-format selector; otherwise it leaves memory as it is. *)
Theorem stream_listener_behaviour device sel flag w :
  ca_enable_stream_listener device sel flag w
    = AudioObjectAddPropertyListener device virtual_format_address
        proc_ca_stream_listener flag w /\
  ca_disable_stream_listener device sel flag w
    = AudioObjectRemovePropertyListener device virtual_format_address
        proc_ca_stream_listener flag w /\
  (forall sel', ca_enable_stream_listener device sel' flag w
                = ca_enable_stream_listener device sel flag w) /\
  (forall sel', ca_disable_stream_listener device sel' flag w
                = ca_disable_stream_listener device sel flag w) /\
  ((ca_enable_stream_listener device sel flag w).1 = add_status (w_script w)) /\
  ((ca_disable_stream_listener device sel flag w).1 = remove_status (w_script w)) /\
  (add_status (w_script w) = noErr ->
   hal_listeners (w_hal (ca_enable_stream_listener device sel flag w).2)
     = hal_listeners (w_hal w) ++ [stream_listener_entry device flag]) /\
  (remove_status (w_script w) = noErr ->
   hal_listeners (w_hal (ca_disable_stream_listener device sel flag w).2)
     = filter (fun x => negb (listener_eqb x (stream_listener_entry device flag)))
              (hal_listeners (w_hal w))) /\
  (forall object addresses data m,
     ca_stream_listener object addresses data m
     = (noErr,
        if carries kAudioStreamPropertyPhysicalFormat addresses && truthy data
        then <[data := 1]> m else m)).
Proof.
  split; [reflexivity|]. split; [reflexivity|].
  split; [reflexivity|]. split; [reflexivity|].
  split.
  { unfold ca_enable_stream_listener, ca_change_stream_listening,
      AudioObjectAddPropertyListener.
    destruct (_ =? noErr); reflexivity. }
  split.
  { unfold ca_disable_stream_listener, ca_change_stream_listening,
      AudioObjectRemovePropertyListener.
    destruct (_ =? noErr); reflexivity. }
  split.
  { intros E.
    unfold ca_enable_stream_listener, ca_change_stream_listening,
      AudioObjectAddPropertyListener.
    rewrite E. reflexivity. }
  split.
  { intros E.
    unfold ca_disable_stream_listener, ca_change_stream_listening,
      AudioObjectRemovePropertyListener.
    rewrite E. reflexivity. }
  intros object addresses data m.
  unfold ca_stream_listener, ca_property_listener.
  rewrite property_listener_loop_spec. reflexivity.
Qed.

(** A notification of a change of the virtual format alone leaves the
    flag as it is; one that carries the physical format sets it. *)
Example listener_virtual_only :
  (ca_stream_listener 7 [virtual_format_address] 100 (<[100 := 0]> ∅)).2 !! 100 = Some 0.
Proof. reflexivity. Qed.

Example listener_physical :
  (ca_stream_listener 7
     [virtual_format_address;
      mkAddress kAudioStreamPropertyPhysicalFormat kAudioObjectPropertyScopeGlobal 0]
     100 (<[100 := 0]> ∅)).2 !! 100 = Some 1.
Proof. reflexivity. Qed.

(** ** The format switcher *)

Lemma run_listener_quiet n m l :
  carries kAudioStreamPropertyPhysicalFormat (n_addresses n) = false ->
  run_listener n m l = m.
Proof.
  intros Q. unfold run_listener. destruct (_ =? _); [|reflexivity].
  destruct l as [o a [] d]. cbn [call_proc l_proc l_data].
  unfold ca_stream_listener, ca_property_listener. cbn [snd].
  rewrite property_listener_loop_spec, Q. reflexivity.
Qed.

Lemma deliver_quiet ls n : forall m,
  carries kAudioStreamPropertyPhysicalFormat (n_addresses n) = false ->
  deliver ls m n = m.
Proof.
  unfold deliver. induction ls as [|l ls IH]; intros m Q; [reflexivity|].
  cbn [fold_left]. rewrite run_listener_quiet by exact Q. apply IH, Q.
Qed.

Lemma hal_thread_quiet ls ns : forall m,
  Forall (fun n => carries kAudioStreamPropertyPhysicalFormat (n_addresses n) = false) ns ->
  hal_thread ls ns m = m.
Proof.
  unfold hal_thread. induction ns as [|n ns IH]; intros m Q; [reflexivity|].
  inversion Q; subst. cbn [fold_left]. rewrite deliver_quiet by assumption.
  apply IH. assumption.
Qed.

Lemma quiet_never_set s ls p : quiet s -> flag_never_set s ls p.
Proof.
  intros Q k m. rewrite hal_thread_quiet by apply Q. reflexivity.
Qed.

(** A read of the flag while the HAL's thread never sets it. *)
Lemma load_volatile_never_set p w :
  flag_never_set (w_script w) (hal_listeners (w_hal w)) p ->
  w_mem w !! p = Some 0 ->
  (load_volatile p w).1 = 0 /\
  w_script (load_volatile p w).2 = w_script w /\
  w_hal (load_volatile p w).2 = w_hal w /\
  w_mem (load_volatile p w).2 !! p = Some 0 /\
  w_reads (load_volatile p w).2 = S (w_reads w) /\
  w_trace (load_volatile p w).2 = w_trace w.
Proof.
  intros N M. unfold load_volatile. cbn [fst snd w_script w_hal w_mem w_reads w_trace].
  rewrite N, M. repeat split; reflexivity.
Qed.

Lemma bind_run {A B} (m : M A) (k : A -> M B) w :
  bind m k w = k (m w).1 (m w).2.
Proof. unfold bind. destruct (m w). reflexivity. Qed.

(** The polling loop while the flag is never set: it sleeps until [j]
    reaches 50 and stops there, on the test [j < 50], before the fuel
    is used up. *)
Lemma poll_loop_never_set p fuel : forall j w,
  0 <= j <= 50 ->
  (Z.to_nat (50 - j) < fuel)%nat ->
  flag_never_set (w_script w) (hal_listeners (w_hal w)) p ->
  w_mem w !! p = Some 0 ->
  exists w',
    poll_loop fuel p j w = (tt, w') /\
    w_script w' = w_script w /\
    w_hal w' = w_hal w /\
    w_mem w' !! p = Some 0 /\
    w_reads w' = (w_reads w + Z.to_nat (51 - j))%nat /\
    w_trace w' = w_trace w ++ replicate (Z.to_nat (50 - j)) (EvSleep 10000).
Proof.
  induction fuel as [|fuel IH]; intros j w Hj Hfuel N M; [lia|].
  cbn [poll_loop]. rewrite bind_run.
  destruct (load_volatile_never_set p w N M) as (C & S1 & H1 & M1 & R1 & T1).
  destruct (load_volatile p w) as [c w1]. cbn [fst snd] in *. subst c.
  cbn [truthy Z.eqb negb andb].
  destruct (Z.ltb_spec j 50) as [Lt|Ge].
  - rewrite bind_run. unfold mp_sleep_us, emit. cbn [fst snd].
    set (w2 := mkWorld _ _ _ _ _).
    destruct (IH (j + 1) w2) as (w' & E & S2 & H2 & M2 & R2 & T2).
    + lia.
    + lia.
    + subst w2. cbn [w_script w_hal]. rewrite S1, H1. exact N.
    + subst w2. cbn [w_mem]. exact M1.
    + exists w'. split; [exact E|].
      rewrite S2, H2, R2, T2. subst w2.
      cbn [w_script w_hal w_mem w_reads w_trace].
      rewrite S1, H1, R1, T1.
      repeat split; try reflexivity; try assumption.
      * lia.
      * replace (Z.to_nat (50 - j)) with (S (Z.to_nat (50 - (j + 1)))) by lia.
        cbn [replicate]. rewrite <- app_assoc. reflexivity.
  - assert (j = 50) by lia. subst j. exists w1.
    split; [reflexivity|].
    rewrite S1, H1, R1, T1. cbn. rewrite app_nil_r.
    repeat split; try reflexivity; try assumption. lia.
Qed.

(** C9: when the format fetched at entry is already the best match of
    the requested one, [ca_change_format] returns [true] having only
    read the property and logged a message: the HAL's state is what it
    was, no listener request, no format request and no sleep is in the
    trace, and the flag was never polled. *)
Theorem change_format_noop stream new_format sel fmt_changed w :
  (hal_formats (w_hal w) stream sel).1 = noErr ->
  ca_asbd_best (hal_formats (w_hal w) stream sel).2 new_format = true ->
  (ca_change_format stream new_format sel fmt_changed w).1 = true /\
  w_hal (ca_change_format stream new_format sel fmt_changed w).2 = w_hal w /\
  w_reads (ca_change_format stream new_format sel fmt_changed w).2 = w_reads w /\
  w_trace (ca_change_format stream new_format sel fmt_changed w).2
    = w_trace w ++ [EvGetProperty stream sel;
                    EvLog MSGL_ERR "requested format matches current format"].
Proof.
  intros Hget Hbest.
  unfold ca_change_format.
  rewrite !bind_run.
  unfold store, CA_GET, CHECK_CA_WARN, check_ca_st, emit.
  cbn [fst snd w_hal w_script w_mem w_reads w_trace].
  rewrite Hget. cbn [Z.eqb noErr ret fst snd negb].
  rewrite Hbest. rewrite bind_run.
  unfold mp_msg_log, emit. cbn [fst snd ret w_hal w_script w_mem w_reads w_trace].
  rewrite <- app_assoc. repeat split; reflexivity.
Qed.

(** More fuel than the loop needs changes nothing: the loop ends on its
    own condition after at most [51 - j] tests. *)
Lemma poll_loop_fuel p fuel : forall j w,
  0 <= j <= 50 ->
  (Z.to_nat (51 - j) <= fuel)%nat ->
  poll_loop fuel p j w = poll_loop (Z.to_nat (51 - j)) p j w.
Proof.
  induction fuel as [|fuel IH]; intros j w Hj Hfuel; [lia|].
  - destruct (Z.ltb_spec j 50) as [Lt|Ge].
    + replace (Z.to_nat (51 - j)) with (S (Z.to_nat (51 - (j + 1)))) by lia.
      cbn [poll_loop]. rewrite !bind_run.
      destruct (negb (truthy (load_volatile p w).1) && (j <? 50)); [|reflexivity].
      rewrite !bind_run. apply IH; lia.
    + destruct (Z.to_nat (51 - j)) as [|n] eqn:E; [lia|].
      cbn [poll_loop]. rewrite !bind_run.
      destruct (Z.ltb_spec j 50); [lia|]. rewrite andb_false_r. reflexivity.
Qed.

(** C4, amended with the success of the listener's removal: the format
    is fetched, is not yet the best match, the listener is added and
    the format request accepted, the flag is never set and the removal
    of the listener succeeds.  Then [ca_change_format] sleeps 50 times
    for 10000 microseconds, logs the timeout as a warning, removes the
    listener and returns [true]. *)
Theorem change_format_timeout stream new_format sel fmt_changed w :
  (hal_formats (w_hal w) stream sel).1 = noErr ->
  ca_asbd_best (hal_formats (w_hal w) stream sel).2 new_format = false ->
  add_status (w_script w) = noErr ->
  set_status (w_script w) = noErr ->
  remove_status (w_script w) = noErr ->
  flag_never_set (w_script w)
    (hal_listeners (w_hal w) ++ [stream_listener_entry stream fmt_changed]) fmt_changed ->
  (ca_change_format stream new_format sel fmt_changed w).1 = true /\
  w_trace (ca_change_format stream new_format sel fmt_changed w).2
    = w_trace w
      ++ [EvGetProperty stream sel;
          EvAddListener (stream_listener_entry stream fmt_changed);
          EvSetProperty stream sel new_format]
      ++ replicate 50 (EvSleep 10000)
      ++ [EvLog MSGL_WARN "reached timeout while polling for format changes";
          EvRemoveListener (stream_listener_entry stream fmt_changed)] /\
  w_reads (ca_change_format stream new_format sel fmt_changed w).2 = (w_reads w + 52)%nat /\
  hal_listeners (w_hal (ca_change_format stream new_format sel fmt_changed w).2)
    = filter (fun x => negb (listener_eqb x (stream_listener_entry stream fmt_changed)))
             (hal_listeners (w_hal w) ++ [stream_listener_entry stream fmt_changed]).
Proof.
  intros Hget Hbest Hadd Hset Hrem Hquiet.
  unfold ca_change_format.
  rewrite !bind_run.
  unfold store, CA_GET, CHECK_CA_WARN, check_ca_st, emit.
  cbn [fst snd w_hal w_script w_mem w_reads w_trace].
  rewrite Hget. cbn [Z.eqb noErr ret fst snd negb].
  rewrite Hbest.
  rewrite !bind_run.
  unfold ca_enable_stream_listener, ca_change_stream_listening,
    AudioObjectAddPropertyListener, set_hal, emit.
  cbn [fst snd w_hal w_script w_mem w_reads w_trace].
  rewrite Hadd. cbn [Z.eqb noErr ret fst snd negb].
  rewrite !bind_run.
  unfold CA_SET, set_hal, emit.
  cbn [fst snd w_hal w_script w_mem w_reads w_trace hal_listeners hal_formats hal_requests].
  rewrite Hset. cbn [Z.eqb noErr ret fst snd negb].
  cbn [fst snd w_hal w_script w_mem w_reads w_trace hal_listeners hal_formats hal_requests].
  rewrite !bind_run.
  set (w3 := mkWorld _ _ _ _ _).
  destruct (poll_loop_never_set fmt_changed 51 0 w3) as (w4 & E4 & S4 & H4 & M4 & R4 & T4).
  { lia. }
  { simpl. lia. }
  { exact Hquiet. }
  { subst w3. cbn [w_mem]. apply lookup_insert_eq. }
  rewrite E4. cbn [fst snd].
  destruct (load_volatile_never_set fmt_changed w4) as (C5 & S5 & H5 & M5 & R5 & T5).
  { rewrite S4, H4. exact Hquiet. }
  { exact M4. }
  destruct (load_volatile fmt_changed w4) as [c w5]. cbn [fst snd] in *. subst c.
  cbn [truthy Z.eqb negb].
  unfold mp_msg_log, ca_disable_stream_listener, ca_change_stream_listening,
    AudioObjectRemovePropertyListener, set_hal, emit.
  cbn [fst snd w_hal w_script w_mem w_reads w_trace hal_listeners hal_formats hal_requests].
  rewrite S5, S4. subst w3. cbn [w_script]. rewrite Hrem.
  cbn [Z.eqb noErr ret fst snd negb w_hal w_script w_mem w_reads w_trace
       hal_listeners hal_formats hal_requests].
  rewrite T5, T4, R5, R4, H5, H4.
  cbn [w_hal w_script w_mem w_reads w_trace hal_listeners hal_formats hal_requests].
  split; [reflexivity|]. split.
  { cbn [Z.sub Z.to_nat Z.add Z.opp Z.pos_sub]. rewrite <- !app_assoc. reflexivity. }
  split; [simpl; lia | reflexivity].
Qed.

Lemma silent_script_quiet add set remove : quiet (silent_script add set remove).
Proof. intros k. constructor. Qed.

(** The HAL reports changes of the virtual format, the property the
    listener is registered on, and the flag stays clear: the run times
    out. *)
Lemma change_format_timeout_witness :
  (ca_change_format 7 (pcm16 48000 2) kAudioStreamPropertyPhysicalFormat 100
     (sample_world (virtual_only_script noErr noErr noErr))).1 = true /\
  w_trace (ca_change_format 7 (pcm16 48000 2) kAudioStreamPropertyPhysicalFormat 100
     (sample_world (virtual_only_script noErr noErr noErr))).2
    = w_trace (sample_world (virtual_only_script noErr noErr noErr))
      ++ [EvGetProperty 7 kAudioStreamPropertyPhysicalFormat;
          EvAddListener (stream_listener_entry 7 100);
          EvSetProperty 7 kAudioStreamPropertyPhysicalFormat (pcm16 48000 2)]
      ++ replicate 50 (EvSleep 10000)
      ++ [EvLog MSGL_WARN "reached timeout while polling for format changes";
          EvRemoveListener (stream_listener_entry 7 100)] /\
  w_reads (ca_change_format 7 (pcm16 48000 2) kAudioStreamPropertyPhysicalFormat 100
     (sample_world (virtual_only_script noErr noErr noErr))).2
    = (w_reads (sample_world (virtual_only_script noErr noErr noErr)) + 52)%nat /\
  hal_listeners (w_hal (ca_change_format 7 (pcm16 48000 2)
     kAudioStreamPropertyPhysicalFormat 100
     (sample_world (virtual_only_script noErr noErr noErr))).2)
    = filter (fun x => negb (listener_eqb x (stream_listener_entry 7 100)))
             (hal_listeners (w_hal (sample_world (virtual_only_script noErr noErr noErr)))
              ++ [stream_listener_entry 7 100]).
Proof.
  apply (change_format_timeout 7 (pcm16 48000 2) kAudioStreamPropertyPhysicalFormat 100
           (sample_world (virtual_only_script noErr noErr noErr))).
  - reflexivity.
  - reflexivity.
  - reflexivity.
  - reflexivity.
  - reflexivity.
  - apply quiet_never_set. intros k. repeat constructor.
Defined.

(** C4 as stated fails when the removal of the listener is refused:
    every condition of the claim holds, the loop sleeps its 50 times,
    and [ca_change_format] returns [false]. *)
Lemma timeout_then_removal_refused :
  (hal_formats (w_hal (sample_world
      (silent_script noErr noErr kAudioHardwareUnsupportedOperationError)))
      7 kAudioStreamPropertyPhysicalFormat).1 = noErr /\
  ca_asbd_best
    (hal_formats (w_hal (sample_world
      (silent_script noErr noErr kAudioHardwareUnsupportedOperationError)))
      7 kAudioStreamPropertyPhysicalFormat).2 (pcm16 48000 2) = false /\
  add_status (silent_script noErr noErr kAudioHardwareUnsupportedOperationError) = noErr /\
  set_status (silent_script noErr noErr kAudioHardwareUnsupportedOperationError) = noErr /\
  flag_never_set (silent_script noErr noErr kAudioHardwareUnsupportedOperationError)
    [stream_listener_entry 7 100] 100 /\
  (ca_change_format 7 (pcm16 48000 2) kAudioStreamPropertyPhysicalFormat 100
     (sample_world
        (silent_script noErr noErr kAudioHardwareUnsupportedOperationError))).1 = false /\
  w_trace (ca_change_format 7 (pcm16 48000 2) kAudioStreamPropertyPhysicalFormat 100
     (sample_world
        (silent_script noErr noErr kAudioHardwareUnsupportedOperationError))).2
    = [EvGetProperty 7 kAudioStreamPropertyPhysicalFormat;
       EvAddListener (stream_listener_entry 7 100);
       EvSetProperty 7 kAudioStreamPropertyPhysicalFormat (pcm16 48000 2)]
      ++ replicate 50 (EvSleep 10000)
      ++ [EvLog MSGL_WARN "reached timeout while polling for format changes";
          EvRemoveListener (stream_listener_entry 7 100);
          EvLog MSGL_WARN "can't remove format property listener"].
Proof.
  split; [reflexivity|]. split; [reflexivity|].
  split; [reflexivity|]. split; [reflexivity|].
  split; [apply quiet_never_set, silent_script_quiet|].
  split; vm_compute; reflexivity.
Qed.

(** Whenever the listener was added and the format request is then
    refused, [ca_change_format] returns [false] at once: the listener
    is still registered, with the address of the dead local as its
    context, and no removal was requested. *)
Lemma set_failure_keeps_listener stream new_format sel fmt_changed w :
  (hal_formats (w_hal w) stream sel).1 = noErr ->
  ca_asbd_best (hal_formats (w_hal w) stream sel).2 new_format = false ->
  add_status (w_script w) = noErr ->
  set_status (w_script w) <> noErr ->
  (ca_change_format stream new_format sel fmt_changed w).1 = false /\
  hal_listeners (w_hal (ca_change_format stream new_format sel fmt_changed w).2)
    = hal_listeners (w_hal w) ++ [stream_listener_entry stream fmt_changed] /\
  w_trace (ca_change_format stream new_format sel fmt_changed w).2
    = w_trace w
      ++ [EvGetProperty stream sel;
          EvAddListener (stream_listener_entry stream fmt_changed);
          EvSetProperty stream sel new_format;
          EvLog MSGL_WARN "error changing format"].
Proof.
  intros Hget Hbest Hadd Hset.
  unfold ca_change_format.
  rewrite !bind_run.
  unfold store, CA_GET, CHECK_CA_WARN, check_ca_st, emit.
  cbn [fst snd w_hal w_script w_mem w_reads w_trace].
  rewrite Hget. cbn [Z.eqb noErr ret fst snd negb].
  rewrite Hbest.
  rewrite !bind_run.
  unfold ca_enable_stream_listener, ca_change_stream_listening,
    AudioObjectAddPropertyListener, set_hal, emit.
  cbn [fst snd w_hal w_script w_mem w_reads w_trace].
  rewrite Hadd. cbn [Z.eqb noErr ret fst snd negb].
  rewrite !bind_run.
  unfold CA_SET, set_hal, emit.
  cbn [fst snd w_hal w_script w_mem w_reads w_trace hal_listeners hal_formats hal_requests].
  destruct (Z.eqb_spec (set_status (w_script w)) noErr) as [E|_]; [contradiction|].
  cbn [fst snd]. destruct (Z.eqb_spec (set_status (w_script w)) noErr) as [E|_]; [contradiction|].
  rewrite bind_run. unfold mp_msg_log, emit.
  cbn [negb ret fst snd w_hal w_script w_mem w_reads w_trace hal_listeners].
  rewrite <- !app_assoc. repeat split; reflexivity.
Qed.

(** C3, evaluated on the code: the HAL accepts the listener and refuses
    the format request.  [ca_change_format] returns [false] with the
    listener still registered; the trace holds the add request and no
    remove request. *)
Theorem refused_format_leaves_listener :
  (ca_change_format 7 (pcm16 48000 2) kAudioStreamPropertyPhysicalFormat 100
     (sample_world
        (silent_script noErr kAudioHardwareUnsupportedOperationError noErr))).1 = false /\
  hal_listeners (w_hal (ca_change_format 7 (pcm16 48000 2)
     kAudioStreamPropertyPhysicalFormat 100
     (sample_world
        (silent_script noErr kAudioHardwareUnsupportedOperationError noErr))).2)
    = [stream_listener_entry 7 100] /\
  w_trace (ca_change_format 7 (pcm16 48000 2) kAudioStreamPropertyPhysicalFormat 100
     (sample_world
        (silent_script noErr kAudioHardwareUnsupportedOperationError noErr))).2
    = [EvGetProperty 7 kAudioStreamPropertyPhysicalFormat;
       EvAddListener (stream_listener_entry 7 100);
       EvSetProperty 7 kAudioStreamPropertyPhysicalFormat (pcm16 48000 2);
       EvLog MSGL_WARN "error changing format"].
Proof.
  apply (set_failure_keeps_listener 7 (pcm16 48000 2) kAudioStreamPropertyPhysicalFormat 100
           (sample_world
              (silent_script noErr kAudioHardwareUnsupportedOperationError noErr)));
    try reflexivity.
  discriminate.
Qed.

(** A notification that carries the physical format before the fourth
    read of the flag ends the loop after three sleeps; no timeout is
    logged. *)
Example change_format_confirmed :
  (ca_change_format 7 (pcm16 48000 2) kAudioStreamPropertyPhysicalFormat 100
     (sample_world (confirming_script 3))).1 = true /\
  w_trace (ca_change_format 7 (pcm16 48000 2) kAudioStreamPropertyPhysicalFormat 100
     (sample_world (confirming_script 3))).2
    = [EvGetProperty 7 kAudioStreamPropertyPhysicalFormat;
       EvAddListener (stream_listener_entry 7 100);
       EvSetProperty 7 kAudioStreamPropertyPhysicalFormat (pcm16 48000 2);
       EvSleep 10000; EvSleep 10000; EvSleep 10000;
       EvRemoveListener (stream_listener_entry 7 100)].
Proof. split; vm_compute; reflexivity. Qed.

(** On the paths that reach the polling loop the removal is requested:
    the run above with every request accepted ends with no listener. *)
Example accepted_format_removes_listener :
  hal_listeners (w_hal (ca_change_format 7 (pcm16 48000 2)
     kAudioStreamPropertyPhysicalFormat 100
     (sample_world (silent_script noErr noErr noErr))).2) = [].
Proof. vm_compute. reflexivity. Qed.

Lemma change_format_noop_witness :
  (ca_change_format 7 (pcm16 44100 2) kAudioStreamPropertyPhysicalFormat 100
     (sample_world (silent_script noErr noErr noErr))).1 = true /\
  w_hal (ca_change_format 7 (pcm16 44100 2) kAudioStreamPropertyPhysicalFormat 100
     (sample_world (silent_script noErr noErr noErr))).2
    = w_hal (sample_world (silent_script noErr noErr noErr)) /\
  w_reads (ca_change_format 7 (pcm16 44100 2) kAudioStreamPropertyPhysicalFormat 100
     (sample_world (silent_script noErr noErr noErr))).2
    = w_reads (sample_world (silent_script noErr noErr noErr)) /\
  w_trace (ca_change_format 7 (pcm16 44100 2) kAudioStreamPropertyPhysicalFormat 100
     (sample_world (silent_script noErr noErr noErr))).2
    = w_trace (sample_world (silent_script noErr noErr noErr))
      ++ [EvGetProperty 7 kAudioStreamPropertyPhysicalFormat;
          EvLog MSGL_ERR "requested format matches current format"].
Proof.
  apply (change_format_noop 7 (pcm16 44100 2) kAudioStreamPropertyPhysicalFormat 100
           (sample_world (silent_script noErr noErr noErr))).
  - reflexivity.
  - reflexivity.
Defined.

(** * Further properties *)

(** ** The comparator: [ca_match_fflags] and [ca_asbd_best] *)

(** The conversion of the flags to [int] keeps every bit below bit 32. *)
Lemma int_of_uint32_low x k :
  Z.land (Z.ones 32) k = k -> Z.land (int_of_uint32 x) k = Z.land x k.
Proof.
  intros Hk. unfold int_of_uint32.
  destruct (x <? 2 ^ 31); [reflexivity|].
  rewrite <- Hk, !Z.land_assoc.
  f_equal. rewrite !Z.land_ones by lia.
  replace (x - 2 ^ 32) with (x + (-1) * 2 ^ 32) by lia.
  apply Z.mod_add. lia.
Qed.

Lemma ca_match_fflags_spec target matchee :
  ca_match_fflags target matchee = true <->
  Z.land target kAudioFormatFlagIsFloat = Z.land matchee kAudioFormatFlagIsFloat /\
  Z.land target kAudioFormatFlagIsSignedInteger
    = Z.land matchee kAudioFormatFlagIsSignedInteger /\
  Z.land target kAudioFormatFlagIsBigEndian = Z.land matchee kAudioFormatFlagIsBigEndian.
Proof.
  unfold ca_match_fflags. cbn [match_fflags_loop].
  change (kAudioFormatFlagIsFloat =? 0) with false.
  change (kAudioFormatFlagIsSignedInteger =? 0) with false.
  change (kAudioFormatFlagIsBigEndian =? 0) with false.
  cbn [negb].
  repeat match goal with
  | |- context [Z.eqb ?a ?b] => destruct (Z.eqb_spec a b)
  end; cbn [negb]; split; try discriminate; try tauto; intros; reflexivity.
Qed.

Lemma ca_asbd_best_spec a b :
  ca_asbd_best a b = true <->
  mFormatID a = mFormatID b /\
  mBitsPerChannel a = mBitsPerChannel b /\
  (mSampleRate a == mSampleRate b)%dbl /\
  mChannelsPerFrame a = mChannelsPerFrame b /\
  Z.land (mFormatFlags a) kAudioFormatFlagIsFloat
    = Z.land (mFormatFlags b) kAudioFormatFlagIsFloat /\
  Z.land (mFormatFlags a) kAudioFormatFlagIsSignedInteger
    = Z.land (mFormatFlags b) kAudioFormatFlagIsSignedInteger /\
  Z.land (mFormatFlags a) kAudioFormatFlagIsBigEndian
    = Z.land (mFormatFlags b) kAudioFormatFlagIsBigEndian.
Proof.
  unfold ca_asbd_best, ca_asbd_matches.
  rewrite !andb_true_iff, !Z.eqb_eq, ca_match_fflags_spec.
  rewrite !int_of_uint32_low by reflexivity.
  tauto.
Qed.

Lemma best_refl a : ca_asbd_best a a = true <-> mSampleRate a <> NaN.
Proof.
  rewrite ca_asbd_best_spec. split.
  - intros (_ & _ & E & _). apply dbl_eq_not_nan in E. apply E.
  - intros Hn. repeat split; try reflexivity. apply dbl_eq_refl, Hn.
Qed.

Lemma best_sym_true a b : ca_asbd_best a b = true -> ca_asbd_best b a = true.
Proof.
  intros E. apply ca_asbd_best_spec in E as (E1 & E2 & E3 & E4 & E5 & E6 & E7).
  apply ca_asbd_best_spec. rewrite dbl_eq_sym. repeat split; try (symmetry; assumption).
  exact E3.
Qed.

Lemma best_trans a b c :
  ca_asbd_best a b = true -> ca_asbd_best b c = true -> ca_asbd_best a c = true.
Proof.
  intros E F.
  apply ca_asbd_best_spec in E as (E1 & E2 & E3 & E4 & E5 & E6 & E7).
  apply ca_asbd_best_spec in F as (F1 & F2 & F3 & F4 & F5 & F6 & F7).
  apply ca_asbd_best_spec.
  repeat split; try (etransitivity; eassumption).
  eapply dbl_eq_trans; eassumption.
Qed.

(** X1: [ca_asbd_best] is a partial equivalence on descriptors: the
    relation does not depend on which descriptor is the target, it is
    transitive, and a descriptor is the best match of itself exactly
    when its rate is not a NaN (the rates are compared with [==]). *)
Theorem best_partial_equivalence :
  (forall a, ca_asbd_best a a = true <-> mSampleRate a <> NaN) /\
  (forall a b, ca_asbd_best a b = ca_asbd_best b a) /\
  (forall a b c, ca_asbd_best a b = true -> ca_asbd_best b c = true ->
                 ca_asbd_best a c = true).
Proof.
  split; [exact best_refl|]. split; [|exact best_trans].
  intros a b. destruct (ca_asbd_best a b) eqn:E1, (ca_asbd_best b a) eqn:E2;
    try reflexivity.
  - apply best_sym_true in E1. congruence.
  - apply best_sym_true in E2. congruence.
Qed.

Lemma land_through_7 x y f :
  Z.land 7 f = f -> Z.land x 7 = Z.land y 7 -> Z.land x f = Z.land y f.
Proof.
  intros Hf E. rewrite <- Hf, !Z.land_assoc, E. reflexivity.
Qed.

(** X2: [ca_asbd_best] looks at the flags only through the float,
    signed-integer and big-endian bits: two descriptors with the same
    format id, bit depth, rate and channel count whose flags agree on
    these three bits are interchangeable on either side, whatever
    their packed, aligned-high, non-interleaved and non-mixable bits
    are. *)
Theorem best_ignores_other_flags a a' b :
  mFormatID a = mFormatID a' ->
  mBitsPerChannel a = mBitsPerChannel a' ->
  mSampleRate a = mSampleRate a' ->
  mChannelsPerFrame a = mChannelsPerFrame a' ->
  Z.land (mFormatFlags a) 7 = Z.land (mFormatFlags a') 7 ->
  ca_asbd_best a b = ca_asbd_best a' b /\ ca_asbd_best b a = ca_asbd_best b a'.
Proof.
  intros E1 E2 E3 E4 E5.
  assert (Ef := land_through_7 _ _ kAudioFormatFlagIsFloat eq_refl E5).
  assert (Es := land_through_7 _ _ kAudioFormatFlagIsSignedInteger eq_refl E5).
  assert (Ee := land_through_7 _ _ kAudioFormatFlagIsBigEndian eq_refl E5).
  split; apply eq_iff_eq_true; rewrite !ca_asbd_best_spec;
    rewrite E1, E2, E3, E4, Ef, Es, Ee; reflexivity.
Qed.

Lemma best_ignores_other_flags_witness :
  ca_asbd_best (pcm16 48000 2) (pcm16 48000 2)
    = ca_asbd_best (mkASBD (dbl_of_int 48000) kAudioFormatLinearPCM 68 4 1 4 2 16) (pcm16 48000 2) /\
  ca_asbd_best (pcm16 48000 2) (pcm16 48000 2)
    = ca_asbd_best (pcm16 48000 2) (mkASBD (dbl_of_int 48000) kAudioFormatLinearPCM 68 4 1 4 2 16).
Proof.
  apply (best_ignores_other_flags (pcm16 48000 2)
           (mkASBD (dbl_of_int 48000) kAudioFormatLinearPCM 68 4 1 4 2 16) (pcm16 48000 2));
    reflexivity.
Defined.

(** X3: two descriptors of which one is the best match of the other
    decode to the same sample format, whatever the header's constants
    are. *)
Theorem best_same_decoding `{af_format_h} a b :
  ca_asbd_best a b = true -> ca_make_mp_format a = ca_make_mp_format b.
Proof.
  intros E. apply ca_asbd_best_spec in E as (_ & Ebits & _ & _ & Ef & Es & Ee).
  unfold ca_make_mp_format.
  rewrite !int_of_uint32_low by reflexivity.
  rewrite Ebits, Ef, Es, Ee. reflexivity.
Qed.

Lemma best_same_decoding_witness :
  @ca_make_mp_format mpv_format_h (pcm16 48000 2)
  = @ca_make_mp_format mpv_format_h
      (mkASBD (dbl_of_int 48000) kAudioFormatLinearPCM 68 4 1 4 2 16).
Proof.
  apply (@best_same_decoding mpv_format_h (pcm16 48000 2)
           (mkASBD (dbl_of_int 48000) kAudioFormatLinearPCM 68 4 1 4 2 16)).
  reflexivity.
Defined.

(** ** The comparator: [ca_asbd_better] *)

(** X4: an uninitialized first descriptor always yields the second one,
    also when the second is uninitialized too; an initialized first
    descriptor is kept against an uninitialized second one, whatever
    the channel counts and rates are. *)
Theorem better_uninitialized target a b :
  ((mSampleRate a == dbl_zero)%dbl -> ca_asbd_better target a b = 1) /\
  (~ (mSampleRate a == dbl_zero)%dbl -> (mSampleRate b == dbl_zero)%dbl ->
   ca_asbd_better target a b = -1).
Proof.
  unfold ca_asbd_better. split.
  - intros Ha. rewrite Ha. reflexivity.
  - intros Ha Hb. apply not_true_is_false in Ha. rewrite Ha, Hb. reflexivity.
Qed.

(** X5: between two initialized descriptors of the same channel status
    the rates decide, and only by their side of the target's rate: a
    first descriptor below the target's rate gives way to the second
    whatever the second's rate is, also a lower one; a first descriptor
    that is not below the target's rate is kept against a second one
    below it. *)
Theorem better_below_target target a b :
  ~ (mSampleRate a == dbl_zero)%dbl ->
  ~ (mSampleRate b == dbl_zero)%dbl ->
  (mChannelsPerFrame a = mChannelsPerFrame target <->
   mChannelsPerFrame b = mChannelsPerFrame target) ->
  ((mSampleRate a < mSampleRate target)%dbl -> ca_asbd_better target a b = 1) /\
  (~ (mSampleRate a < mSampleRate target)%dbl ->
   (mSampleRate b < mSampleRate target)%dbl -> ca_asbd_better target a b = -1).
Proof.
  rate_solve.
Qed.

Lemma better_below_target_witness :
  (((mSampleRate (pcm16 44100 2) < mSampleRate (pcm16 48000 2))%dbl ->
    ca_asbd_better (pcm16 48000 2) (pcm16 44100 2) (pcm16 22050 2) = 1) /\
   (~ (mSampleRate (pcm16 44100 2) < mSampleRate (pcm16 48000 2))%dbl ->
    (mSampleRate (pcm16 22050 2) < mSampleRate (pcm16 48000 2))%dbl ->
    ca_asbd_better (pcm16 48000 2) (pcm16 44100 2) (pcm16 22050 2) = -1)) /\
  (((mSampleRate (pcm16 96000 2) < mSampleRate (pcm16 48000 2))%dbl ->
    ca_asbd_better (pcm16 48000 2) (pcm16 96000 2) (pcm16 44100 2) = 1) /\
   (~ (mSampleRate (pcm16 96000 2) < mSampleRate (pcm16 48000 2))%dbl ->
    (mSampleRate (pcm16 44100 2) < mSampleRate (pcm16 48000 2))%dbl ->
    ca_asbd_better (pcm16 48000 2) (pcm16 96000 2) (pcm16 44100 2) = -1)).
Proof.
  split.
  - apply (better_below_target (pcm16 48000 2) (pcm16 44100 2) (pcm16 22050 2)).
    + intros E. discriminate E.
    + intros E. discriminate E.
    + split; reflexivity.
  - apply (better_below_target (pcm16 48000 2) (pcm16 96000 2) (pcm16 44100 2)).
    + intros E. discriminate E.
    + intros E. discriminate E.
    + split; reflexivity.
Defined.

(** X6: an initialized descriptor with the target's channel count and
    the target's rate is kept as first argument against every second
    one, and is taken as second argument against every first one whose
    rate is a number other than the target's.  (A first descriptor
    whose rate is a NaN is neither below nor above the target and is
    kept when it has the target's channel count.) *)
Theorem better_keeps_exact_match target a b :
  ~ (mSampleRate a == dbl_zero)%dbl ->
  (mSampleRate a == mSampleRate target)%dbl ->
  mChannelsPerFrame a = mChannelsPerFrame target ->
  ca_asbd_better target a b = -1 /\
  (mSampleRate b <> NaN -> ~ (mSampleRate b == mSampleRate target)%dbl ->
   ca_asbd_better target b a = 1) /\
  (mSampleRate b = NaN -> mChannelsPerFrame b = mChannelsPerFrame target ->
   ca_asbd_better target b a = -1).
Proof.
  rate_solve.
Qed.

(** The exact match against a candidate at 96000 Hz, and against one
    whose rate is a NaN. *)
Lemma better_keeps_exact_match_witness :
  (ca_asbd_better (pcm16 48000 2) (pcm16 48000 2) (pcm16 96000 2) = -1 /\
   (mSampleRate (pcm16 96000 2) <> NaN ->
    ~ (mSampleRate (pcm16 96000 2) == mSampleRate (pcm16 48000 2))%dbl ->
    ca_asbd_better (pcm16 48000 2) (pcm16 96000 2) (pcm16 48000 2) = 1) /\
   (mSampleRate (pcm16 96000 2) = NaN ->
    mChannelsPerFrame (pcm16 96000 2) = mChannelsPerFrame (pcm16 48000 2) ->
    ca_asbd_better (pcm16 48000 2) (pcm16 96000 2) (pcm16 48000 2) = -1)) /\
  (let nan := mkASBD NaN kAudioFormatLinearPCM 12 4 1 4 2 16 in
   ca_asbd_better (pcm16 48000 2) (pcm16 48000 2) nan = -1 /\
   (mSampleRate nan <> NaN ->
    ~ (mSampleRate nan == mSampleRate (pcm16 48000 2))%dbl ->
    ca_asbd_better (pcm16 48000 2) nan (pcm16 48000 2) = 1) /\
   (mSampleRate nan = NaN ->
    mChannelsPerFrame nan = mChannelsPerFrame (pcm16 48000 2) ->
    ca_asbd_better (pcm16 48000 2) nan (pcm16 48000 2) = -1)).
Proof.
  split.
  - apply (better_keeps_exact_match (pcm16 48000 2) (pcm16 48000 2) (pcm16 96000 2)).
    + intros E. discriminate E.
    + reflexivity.
    + reflexivity.
  - apply (better_keeps_exact_match (pcm16 48000 2) (pcm16 48000 2)
             (mkASBD NaN kAudioFormatLinearPCM 12 4 1 4 2 16)).
    + intros E. discriminate E.
    + reflexivity.
    + reflexivity.
Defined.

(** ** The codec: [ca_make_asbd] and [ca_make_mp_format] *)

(** X7: whatever the sample format, rate and channel count,
    [ca_make_asbd] describes linear PCM with one frame to the packet
    and as many bytes to the packet as to the frame; the packed flag is
    set, and the aligned-high, non-interleaved and non-mixable flags
    never are. *)
Theorem make_asbd_fixed_fields `{af_format_h} mp_format rate channels :
  mFormatID (ca_make_asbd mp_format rate channels) = kAudioFormatLinearPCM /\
  mFramesPerPacket (ca_make_asbd mp_format rate channels) = 1 /\
  mBytesPerPacket (ca_make_asbd mp_format rate channels)
    = mBytesPerFrame (ca_make_asbd mp_format rate channels) /\
  Z.land (mFormatFlags (ca_make_asbd mp_format rate channels)) kAudioFormatFlagIsPacked
    = kAudioFormatFlagIsPacked /\
  Z.land (mFormatFlags (ca_make_asbd mp_format rate channels))
         kAudioFormatFlagIsAlignedHigh = 0 /\
  Z.land (mFormatFlags (ca_make_asbd mp_format rate channels))
         kAudioFormatFlagIsNonInterleaved = 0 /\
  Z.land (mFormatFlags (ca_make_asbd mp_format rate channels))
         kAudioFormatFlagIsNonMixable = 0.
Proof.
  unfold ca_make_asbd; cbn [mFormatID mFramesPerPacket mBytesPerPacket mBytesPerFrame
                             mFormatFlags].
  split; [reflexivity|]. split; [reflexivity|]. split; [reflexivity|].
  destruct (_ =? AF_FORMAT_F), (_ =? AF_FORMAT_SI), (_ =? AF_FORMAT_BE);
    repeat split; reflexivity.
Qed.

(** X8: for a format of one of the four bit depths, a channel count
    that is not negative and a frame that fits 32 bits, the description
    carries the bit depth and [channels * (bits / 8)] bytes to the frame
    and to the packet. *)
Theorem make_asbd_frame_size `{H : af_format_h} (L : af_format_laws H) c e d rate channels :
  0 <= channels ->
  channels * (depth_bits d / 8) < 2 ^ 32 ->
  mBitsPerChannel (ca_make_asbd (mp_format_of c e d) rate channels) = depth_bits d /\
  mChannelsPerFrame (ca_make_asbd (mp_format_of c e d) rate channels) = channels /\
  mBytesPerFrame (ca_make_asbd (mp_format_of c e d) rate channels)
    = channels * (depth_bits d / 8) /\
  mBytesPerPacket (ca_make_asbd (mp_format_of c e d) rate channels)
    = channels * (depth_bits d / 8).
Proof.
  intros Hc Hfit.
  assert (Hd : 1 <= depth_bits d / 8) by (destruct d; cbv; discriminate).
  assert (Hch : uint32 channels = channels).
  { unfold uint32. apply Z.mod_small. nia. }
  assert (Hb : uint32 (depth_bits d) = depth_bits d) by (destruct d; reflexivity).
  unfold ca_make_asbd;
    cbn [mBitsPerChannel mChannelsPerFrame mBytesPerFrame mBytesPerPacket].
  rewrite (fmt2bits_depth H L), Hch, Hb.
  assert (Hf : uint32 (1 * channels * (depth_bits d / 8)) = channels * (depth_bits d / 8)).
  { unfold uint32. rewrite Z.mul_1_l. apply Z.mod_small. nia. }
  rewrite Hf. repeat split; reflexivity.
Qed.

(** 24-bit signed big-endian, six channels: 18 bytes to the frame. *)
Lemma make_asbd_frame_size_witness :
  mBitsPerChannel (@ca_make_asbd mpv_format_h
     (@mp_format_of mpv_format_h SignedInt BigEndian Bits24) 96000 6) = depth_bits Bits24 /\
  mChannelsPerFrame (@ca_make_asbd mpv_format_h
     (@mp_format_of mpv_format_h SignedInt BigEndian Bits24) 96000 6) = 6 /\
  mBytesPerFrame (@ca_make_asbd mpv_format_h
     (@mp_format_of mpv_format_h SignedInt BigEndian Bits24) 96000 6)
    = 6 * (depth_bits Bits24 / 8) /\
  mBytesPerPacket (@ca_make_asbd mpv_format_h
     (@mp_format_of mpv_format_h SignedInt BigEndian Bits24) 96000 6)
    = 6 * (depth_bits Bits24 / 8).
Proof.
  apply (@make_asbd_frame_size mpv_format_h mpv_format_laws SignedInt BigEndian Bits24 96000 6).
  - lia.
  - reflexivity.
Defined.

Lemma decode_is_format `{H : af_format_h} (L : af_format_laws H) asbd d :
  int_of_uint32 (mBitsPerChannel asbd) = depth_bits d ->
  ca_make_mp_format asbd = mp_format_of (asbd_class asbd) (asbd_endianness asbd) d.
Proof.
  intros Hbits.
  unfold ca_make_mp_format, asbd_class, asbd_endianness, mp_format_of.
  rewrite !int_of_uint32_low by reflexivity.
  rewrite Hbits, (bits_to_mask_depth H L), (unknown_zero H L), Z.lor_0_l.
  destruct (truthy (Z.land (mFormatFlags asbd) kAudioFormatFlagIsFloat));
    [|destruct (truthy (Z.land (mFormatFlags asbd) kAudioFormatFlagIsSignedInteger))];
    cbn [point_mask sign_mask]; rewrite ?Z.lor_0_r;
    destruct (truthy (Z.land (mFormatFlags asbd) kAudioFormatFlagIsBigEndian));
    reflexivity.
Qed.

(** X9: a description of one of the four bit depths decodes to the
    format of that depth whose class and byte order its flags announce:
    float whenever the float bit is set, whatever the signed-integer
    bit is; otherwise signed or unsigned integer by the signed-integer
    bit; big-endian by the big-endian bit.  No other field or flag of
    the description has a part in it. *)
Theorem decode_reads_three_flags `{H : af_format_h} (L : af_format_laws H) asbd d :
  int_of_uint32 (mBitsPerChannel asbd) = depth_bits d ->
  ca_make_mp_format asbd = mp_format_of (asbd_class asbd) (asbd_endianness asbd) d /\
  Z.land (ca_make_mp_format asbd) AF_FORMAT_POINT_MASK = point_mask (asbd_class asbd) /\
  Z.land (ca_make_mp_format asbd) AF_FORMAT_SIGN_MASK = sign_mask (asbd_class asbd) /\
  Z.land (ca_make_mp_format asbd) AF_FORMAT_END_MASK = endian_mask (asbd_endianness asbd) /\
  Z.land (ca_make_mp_format asbd) AF_FORMAT_BITS_MASK = depth_mask d.
Proof.
  intros Hbits. rewrite (decode_is_format L asbd d Hbits).
  split; [reflexivity|].
  split; [apply (format_point_field L)|].
  split; [apply (format_sign_field L)|].
  split; [apply (format_end_field L) | apply (format_bits_field L)].
Qed.

(** A float description that also carries the signed-integer bit, as
    [ca_make_asbd] builds them when the sign field of a float format is
    zero. *)
Lemma decode_reads_three_flags_witness :
  @ca_make_mp_format mpv_format_h (mkASBD (dbl_of_int 48000) kAudioFormatLinearPCM 13 8 1 8 2 32)
    = @mp_format_of mpv_format_h
        (asbd_class (mkASBD (dbl_of_int 48000) kAudioFormatLinearPCM 13 8 1 8 2 32))
        (asbd_endianness (mkASBD (dbl_of_int 48000) kAudioFormatLinearPCM 13 8 1 8 2 32))
        Bits32 /\
  Z.land (@ca_make_mp_format mpv_format_h
            (mkASBD (dbl_of_int 48000) kAudioFormatLinearPCM 13 8 1 8 2 32))
         (@AF_FORMAT_POINT_MASK mpv_format_h)
    = @point_mask mpv_format_h
        (asbd_class (mkASBD (dbl_of_int 48000) kAudioFormatLinearPCM 13 8 1 8 2 32)) /\
  Z.land (@ca_make_mp_format mpv_format_h
            (mkASBD (dbl_of_int 48000) kAudioFormatLinearPCM 13 8 1 8 2 32))
         (@AF_FORMAT_SIGN_MASK mpv_format_h)
    = @sign_mask mpv_format_h
        (asbd_class (mkASBD (dbl_of_int 48000) kAudioFormatLinearPCM 13 8 1 8 2 32)) /\
  Z.land (@ca_make_mp_format mpv_format_h
            (mkASBD (dbl_of_int 48000) kAudioFormatLinearPCM 13 8 1 8 2 32))
         (@AF_FORMAT_END_MASK mpv_format_h)
    = @endian_mask mpv_format_h
        (asbd_endianness (mkASBD (dbl_of_int 48000) kAudioFormatLinearPCM 13 8 1 8 2 32)) /\
  Z.land (@ca_make_mp_format mpv_format_h
            (mkASBD (dbl_of_int 48000) kAudioFormatLinearPCM 13 8 1 8 2 32))
         (@AF_FORMAT_BITS_MASK mpv_format_h)
    = @depth_mask mpv_format_h Bits32.
Proof.
  apply (@decode_reads_three_flags mpv_format_h mpv_format_laws
           (mkASBD (dbl_of_int 48000) kAudioFormatLinearPCM 13 8 1 8 2 32) Bits32).
  reflexivity.
Defined.

(** X10: decoding is stable under re-encoding: for a description of one
    of the four bit depths, encoding the decoded format (with any rate
    and channel count) and decoding again gives the same format. *)
Theorem decode_encode_decode `{H : af_format_h} (L : af_format_laws H)
  asbd d rate channels :
  int_of_uint32 (mBitsPerChannel asbd) = depth_bits d ->
  ca_make_mp_format (ca_make_asbd (ca_make_mp_format asbd) rate channels)
  = ca_make_mp_format asbd.
Proof.
  intros Hbits. rewrite (decode_is_format L asbd d Hbits).
  apply (codec_identity L).
Qed.

Lemma decode_encode_decode_witness :
  @ca_make_mp_format mpv_format_h
    (@ca_make_asbd mpv_format_h
       (@ca_make_mp_format mpv_format_h
          (mkASBD (dbl_of_int 44100) kAudioFormatLinearPCM 78 4 1 4 2 16)) 8000 1)
  = @ca_make_mp_format mpv_format_h
      (mkASBD (dbl_of_int 44100) kAudioFormatLinearPCM 78 4 1 4 2 16).
Proof.
  apply (@decode_encode_decode mpv_format_h mpv_format_laws
           (mkASBD (dbl_of_int 44100) kAudioFormatLinearPCM 78 4 1 4 2 16) Bits16 8000 1).
  reflexivity.
Defined.

(** ** The channel layout resolver *)

Section LayoutsMore.

Context {C : chmap_h} {S : audio_format_services}.

(** X11: the lookup of a label finds the id its table entry gives, and
    answers -1 for every label outside the table,
    [kAudioChannelLabel_Unknown] included, which only ends the table. *)
Theorem label_lookup_hits_and_misses :
  (forall label id, In (label, id) speaker_map ->
                    label <> kAudioChannelLabel_Unknown ->
                    ca_label_to_mp_speaker_id label = id) /\
  (forall label, ~ In label (map fst (removelast speaker_map)) ->
                 ca_label_to_mp_speaker_id label = -1) /\
  ca_label_to_mp_speaker_id kAudioChannelLabel_Unknown = -1.
Proof.
  split; [|split; [|reflexivity]].
  - intros label id Hin Hne. unfold speaker_map in Hin. cbn [In] in Hin.
    repeat (destruct Hin as [Hin|Hin];
            [injection Hin as <- <-; try reflexivity; contradiction|]).
    destruct Hin.
  - intros label Hout. unfold ca_label_to_mp_speaker_id, speaker_map.
    cbn [map removelast fst In speaker_map] in Hout.
    cbn [label_loop].
    repeat match goal with
    | |- context [Z.eqb ?a label] =>
        destruct (Z.eqb_spec a label) as [E|_]; [exfalso; apply Hout; tauto|]
    end.
    reflexivity.
Qed.

Lemma testbit_fold_lor (l : list Z) : forall b i,
  Z.testbit (fold_left Z.lor l b) i = Z.testbit b i || existsb (fun x => Z.testbit x i) l.
Proof.
  induction l as [|x l IH]; intros b i; cbn [fold_left existsb].
  - rewrite orb_false_r. reflexivity.
  - rewrite IH, Z.lor_spec, orb_assoc. reflexivity.
Qed.

Lemma testbit_label_bit label i :
  0 <= ca_label_to_mp_speaker_id label -> 0 <= i ->
  Z.testbit (label_bit label) i = (ca_label_to_mp_speaker_id label =? i) && (i <? 32).
Proof.
  intros Hid Hi. unfold label_bit, uint32.
  rewrite Z.shiftl_1_l.
  destruct (Z.ltb_spec i 32) as [Lt|Ge].
  - rewrite Z.mod_pow2_bits_low by lia.
    rewrite Z.pow2_bits_eqb by lia. rewrite andb_true_r. reflexivity.
  - rewrite Z.mod_pow2_bits_high by lia. rewrite andb_false_r. reflexivity.
Qed.

Lemma existsb_label_bits labels i :
  forallb label_mapped labels = true -> 0 <= i ->
  existsb (fun x => Z.testbit x i) (map label_bit labels)
  = existsb (fun l => ca_label_to_mp_speaker_id l =? i) labels && (i <? 32).
Proof.
  intros Hall Hi. induction labels as [|l rest IH]; [reflexivity|].
  cbn [forallb] in Hall. apply andb_true_iff in Hall as [Hl Hrest].
  unfold label_mapped in Hl. apply Z.leb_le in Hl.
  cbn [map existsb]. rewrite IH by exact Hrest.
  rewrite testbit_label_bit by assumption.
  destruct (_ =? i), (existsb _ rest), (i <? 32); reflexivity.
Qed.

(** X12: a layout of descriptions whose labels all have a speaker id
    (below 64, where the shift is defined) is accepted, and its bitmap
    is a 32-bit value in which bit [i] is set exactly when [i] is below
    32 and is the speaker id of one of the labels. *)
Theorem ch_desc_bitmap_bits tag bm labels :
  forallb label_mapped labels = true ->
  forallb (fun l => ca_label_to_mp_speaker_id l <? 64) labels = true ->
  (ca_bitmap_from_ch_desc (mkLayout tag bm labels) 0).1 = true /\
  0 <= (ca_bitmap_from_ch_desc (mkLayout tag bm labels) 0).2 < 2 ^ 32 /\
  (forall i, 0 <= i ->
     Z.testbit (ca_bitmap_from_ch_desc (mkLayout tag bm labels) 0).2 i
     = existsb (fun l => ca_label_to_mp_speaker_id l =? i) labels && (i <? 32)).
Proof.
  intros Hall _.
  unfold ca_bitmap_from_ch_desc. cbn [mChannelDescriptions].
  rewrite ch_desc_loop_valid by (reflexivity || exact Hall). cbn [fst snd].
  split; [reflexivity|]. split.
  - assert (U : uint32 (fold_left Z.lor (map label_bit labels) 0)
                = fold_left Z.lor (map label_bit labels) 0).
    { apply fold_lor_uint32; [reflexivity|].
      apply Forall_forall. intros x Hx. apply list_elem_of_In, in_map_iff in Hx.
      destruct Hx as (l & <- & _). apply uint32_idem. }
    rewrite <- U. unfold uint32. apply Z.mod_pos_bound. lia.
  - intros i Hi. rewrite testbit_fold_lor, Z.bits_0. cbn [orb].
    apply existsb_label_bits; assumption.
Qed.

(** X13: a label whose speaker id is 32 or more (and below 64) has no
    bit in the 32-bit bitmap: the layout is accepted all the same, and
    the bitmap is what it is without that label. *)
Theorem high_speaker_id_has_no_bit tag bm labels label :
  forallb label_mapped labels = true ->
  32 <= ca_label_to_mp_speaker_id label < 64 ->
  ca_bitmap_from_ch_desc (mkLayout tag bm (labels ++ [label])) 0
  = ca_bitmap_from_ch_desc (mkLayout tag bm labels) 0 /\
  ca_bitmap_from_ch_desc (mkLayout tag bm [label]) 0 = (true, 0).
Proof.
  intros Hall Hid.
  assert (Hl : label_mapped label = true) by (unfold label_mapped; apply Z.leb_le; lia).
  assert (Hb : label_bit label = 0).
  { unfold label_bit, uint32. rewrite Z.shiftl_1_l.
    apply Z.bits_inj'. intros i Hi. rewrite Z.bits_0.
    destruct (Z.ltb_spec i 32).
    - rewrite Z.mod_pow2_bits_low by lia. apply Z.pow2_bits_false. lia.
    - apply Z.mod_pow2_bits_high. lia. }
  unfold ca_bitmap_from_ch_desc. cbn [mChannelDescriptions].
  rewrite !ch_desc_loop_valid; try reflexivity; try exact Hall.
  - rewrite map_app, fold_left_app. cbn [map fold_left fst snd].
    rewrite Hb, Z.lor_0_r, Z.lor_0_l. split; reflexivity.
  - cbn [forallb]. rewrite Hl. reflexivity.
  - rewrite forallb_app. cbn [forallb]. rewrite Hall, Hl. reflexivity.
Qed.

Lemma fold_layouts_tail layouts : forall o i,
  (n_bitmaps (fold_left layouts_step layouts o) <= i)%nat ->
  bitmaps (fold_left layouts_step layouts o) !! i = bitmaps o !! i.
Proof.
  induction layouts as [|l rest IH]; intros o i Hi; [reflexivity|].
  cbn [fold_left] in *. rewrite layouts_step_resolve in *.
  destruct (resolve_layout l) as [v|].
  - rewrite IH by exact Hi.
    cbn [push_bitmap bitmaps]. apply list_lookup_insert_ne.
    assert (n_bitmaps (push_bitmap v o)
            <= n_bitmaps (fold_left layouts_step rest (push_bitmap v o)))%nat.
    { clear. generalize (push_bitmap v o). induction rest as [|x rest IHr]; intros o'.
      - cbn. lia.
      - cbn [fold_left]. rewrite layouts_step_resolve.
        destruct (resolve_layout x); [|apply IHr].
        etransitivity; [|apply IHr]. cbn. lia. }
    cbn [push_bitmap n_bitmaps] in *. lia.
  - apply IH. exact Hi.
Qed.

(** X14: [ca_bitmaps_from_layouts] keeps the array it allocated at
    [n_layouts] cells and writes only below [n_bitmaps]: every cell
    from [n_bitmaps] on is still indeterminate. *)
Theorem bitmaps_array_tail layouts :
  length (bitmaps (ca_bitmaps_from_layouts layouts)) = length layouts /\
  (forall i, (n_bitmaps (ca_bitmaps_from_layouts layouts) <= i < length layouts)%nat ->
             bitmaps (ca_bitmaps_from_layouts layouts) !! i = Some None).
Proof.
  unfold ca_bitmaps_from_layouts. split.
  - destruct (fold_layouts layouts (mkOut (replicate (length layouts) None) 0%nat))
      as (_ & _ & Len).
    + cbn. rewrite length_replicate. lia.
    + rewrite Len. cbn. apply length_replicate.
  - intros i [Hlo Hhi]. rewrite fold_layouts_tail by exact Hlo.
    cbn [bitmaps]. apply lookup_replicate_2. exact Hhi.
Qed.

End LayoutsMore.

(** The right-wide speaker has id 32 in the instance numbered as in
    mpv: a layout of left, right and right-wide keeps two bits. *)
Lemma high_speaker_id_has_no_bit_witness :
  @ca_bitmap_from_ch_desc mpv_chmap_h
    (mkLayout kAudioChannelLayoutTag_UseChannelDescriptions 0
       ([kAudioChannelLabel_Left; kAudioChannelLabel_Right] ++ [kAudioChannelLabel_RightWide])) 0
  = @ca_bitmap_from_ch_desc mpv_chmap_h
      (mkLayout kAudioChannelLayoutTag_UseChannelDescriptions 0
         [kAudioChannelLabel_Left; kAudioChannelLabel_Right]) 0 /\
  @ca_bitmap_from_ch_desc mpv_chmap_h
    (mkLayout kAudioChannelLayoutTag_UseChannelDescriptions 0 [kAudioChannelLabel_RightWide]) 0
  = (true, 0).
Proof.
  apply (@high_speaker_id_has_no_bit mpv_chmap_h
           kAudioChannelLayoutTag_UseChannelDescriptions 0
           [kAudioChannelLabel_Left; kAudioChannelLabel_Right] kAudioChannelLabel_RightWide).
  - reflexivity.
  - change (32 <= 32 < 64). lia.
Defined.

Lemma ch_desc_bitmap_bits_witness :
  (@ca_bitmap_from_ch_desc mpv_chmap_h
     (mkLayout kAudioChannelLayoutTag_UseChannelDescriptions 0
        [kAudioChannelLabel_Left; kAudioChannelLabel_Center; kAudioChannelLabel_Left]) 0).1
    = true /\
  0 <= (@ca_bitmap_from_ch_desc mpv_chmap_h
     (mkLayout kAudioChannelLayoutTag_UseChannelDescriptions 0
        [kAudioChannelLabel_Left; kAudioChannelLabel_Center; kAudioChannelLabel_Left]) 0).2
    < 2 ^ 32 /\
  (forall i, 0 <= i ->
     Z.testbit (@ca_bitmap_from_ch_desc mpv_chmap_h
       (mkLayout kAudioChannelLayoutTag_UseChannelDescriptions 0
          [kAudioChannelLabel_Left; kAudioChannelLabel_Center; kAudioChannelLabel_Left]) 0).2 i
     = existsb (fun l => @ca_label_to_mp_speaker_id mpv_chmap_h l =? i)
         [kAudioChannelLabel_Left; kAudioChannelLabel_Center; kAudioChannelLabel_Left]
       && (i <? 32)).
Proof.
  apply (@ch_desc_bitmap_bits mpv_chmap_h kAudioChannelLayoutTag_UseChannelDescriptions 0
           [kAudioChannelLabel_Left; kAudioChannelLabel_Center; kAudioChannelLabel_Left]);
    reflexivity.
Defined.

(** ** The format switcher: failures and confirmation *)

(** X15: when the format property cannot be fetched, [ca_change_format]
    returns [false] after the read and a warning: the HAL's state is
    what it was, and no listener request, no format request and no
    sleep is in the trace. *)
Theorem change_format_fetch_failure stream new_format sel fmt_changed w :
  (hal_formats (w_hal w) stream sel).1 <> noErr ->
  (ca_change_format stream new_format sel fmt_changed w).1 = false /\
  w_hal (ca_change_format stream new_format sel fmt_changed w).2 = w_hal w /\
  w_reads (ca_change_format stream new_format sel fmt_changed w).2 = w_reads w /\
  w_trace (ca_change_format stream new_format sel fmt_changed w).2
    = w_trace w ++ [EvGetProperty stream sel;
                    EvLog MSGL_WARN "can't fetch format property"].
Proof.
  intros Hget.
  unfold ca_change_format.
  rewrite !bind_run.
  unfold store, CA_GET, CHECK_CA_WARN, check_ca_st, emit.
  cbn [fst snd w_hal w_script w_mem w_reads w_trace].
  destruct (Z.eqb_spec (hal_formats (w_hal w) stream sel).1 noErr) as [E|_];
    [contradiction|].
  rewrite bind_run. unfold mp_msg_log, emit.
  cbn [negb ret fst snd w_hal w_script w_mem w_reads w_trace].
  rewrite <- app_assoc. repeat split; reflexivity.
Qed.

Lemma change_format_fetch_failure_witness :
  (ca_change_format 7 (pcm16 48000 2) kAudioStreamPropertyPhysicalFormat 100
     (mkWorld (silent_script noErr noErr noErr)
        (mkHal [] (fun _ _ => (kAudioHardwareUnsupportedOperationError, pcm16 0 0)) [])
        ∅ 0%nat [])).1 = false /\
  w_hal (ca_change_format 7 (pcm16 48000 2) kAudioStreamPropertyPhysicalFormat 100
     (mkWorld (silent_script noErr noErr noErr)
        (mkHal [] (fun _ _ => (kAudioHardwareUnsupportedOperationError, pcm16 0 0)) [])
        ∅ 0%nat [])).2
    = w_hal (mkWorld (silent_script noErr noErr noErr)
        (mkHal [] (fun _ _ => (kAudioHardwareUnsupportedOperationError, pcm16 0 0)) [])
        ∅ 0%nat []) /\
  w_reads (ca_change_format 7 (pcm16 48000 2) kAudioStreamPropertyPhysicalFormat 100
     (mkWorld (silent_script noErr noErr noErr)
        (mkHal [] (fun _ _ => (kAudioHardwareUnsupportedOperationError, pcm16 0 0)) [])
        ∅ 0%nat [])).2
    = w_reads (mkWorld (silent_script noErr noErr noErr)
        (mkHal [] (fun _ _ => (kAudioHardwareUnsupportedOperationError, pcm16 0 0)) [])
        ∅ 0%nat []) /\
  w_trace (ca_change_format 7 (pcm16 48000 2) kAudioStreamPropertyPhysicalFormat 100
     (mkWorld (silent_script noErr noErr noErr)
        (mkHal [] (fun _ _ => (kAudioHardwareUnsupportedOperationError, pcm16 0 0)) [])
        ∅ 0%nat [])).2
    = w_trace (mkWorld (silent_script noErr noErr noErr)
        (mkHal [] (fun _ _ => (kAudioHardwareUnsupportedOperationError, pcm16 0 0)) [])
        ∅ 0%nat [])
      ++ [EvGetProperty 7 kAudioStreamPropertyPhysicalFormat;
          EvLog MSGL_WARN "can't fetch format property"].
Proof.
  apply (change_format_fetch_failure 7 (pcm16 48000 2) kAudioStreamPropertyPhysicalFormat 100
     (mkWorld (silent_script noErr noErr noErr)
        (mkHal [] (fun _ _ => (kAudioHardwareUnsupportedOperationError, pcm16 0 0)) [])
        ∅ 0%nat [])).
  discriminate.
Defined.

(** X16: when the listener cannot be added, [ca_change_format] returns
    [false] after the warning: the registry is what it was, and no
    format request and no sleep is in the trace. *)
Theorem change_format_add_failure stream new_format sel fmt_changed w :
  (hal_formats (w_hal w) stream sel).1 = noErr ->
  ca_asbd_best (hal_formats (w_hal w) stream sel).2 new_format = false ->
  add_status (w_script w) <> noErr ->
  (ca_change_format stream new_format sel fmt_changed w).1 = false /\
  w_hal (ca_change_format stream new_format sel fmt_changed w).2 = w_hal w /\
  w_reads (ca_change_format stream new_format sel fmt_changed w).2 = w_reads w /\
  w_trace (ca_change_format stream new_format sel fmt_changed w).2
    = w_trace w ++ [EvGetProperty stream sel;
                    EvAddListener (stream_listener_entry stream fmt_changed);
                    EvLog MSGL_WARN "can't add format property listener"].
Proof.
  intros Hget Hbest Hadd.
  unfold ca_change_format.
  rewrite !bind_run.
  unfold store, CA_GET, CHECK_CA_WARN, check_ca_st, emit.
  cbn [fst snd w_hal w_script w_mem w_reads w_trace].
  rewrite Hget. cbn [Z.eqb noErr ret fst snd negb].
  rewrite Hbest.
  rewrite !bind_run.
  unfold ca_enable_stream_listener, ca_change_stream_listening,
    AudioObjectAddPropertyListener, set_hal, emit.
  cbn [fst snd w_hal w_script w_mem w_reads w_trace].
  destruct (Z.eqb_spec (add_status (w_script w)) noErr) as [E|_]; [contradiction|].
  cbn [fst snd].
  destruct (Z.eqb_spec (add_status (w_script w)) noErr) as [E|_]; [contradiction|].
  rewrite bind_run. unfold mp_msg_log, emit.
  cbn [negb ret fst snd w_hal w_script w_mem w_reads w_trace].
  rewrite <- !app_assoc. repeat split; reflexivity.
Qed.

Lemma change_format_add_failure_witness :
  (ca_change_format 7 (pcm16 48000 2) kAudioStreamPropertyPhysicalFormat 100
     (sample_world
        (silent_script kAudioHardwareUnsupportedOperationError noErr noErr))).1 = false /\
  w_hal (ca_change_format 7 (pcm16 48000 2) kAudioStreamPropertyPhysicalFormat 100
     (sample_world
        (silent_script kAudioHardwareUnsupportedOperationError noErr noErr))).2
    = w_hal (sample_world
        (silent_script kAudioHardwareUnsupportedOperationError noErr noErr)) /\
  w_reads (ca_change_format 7 (pcm16 48000 2) kAudioStreamPropertyPhysicalFormat 100
     (sample_world
        (silent_script kAudioHardwareUnsupportedOperationError noErr noErr))).2
    = w_reads (sample_world
        (silent_script kAudioHardwareUnsupportedOperationError noErr noErr)) /\
  w_trace (ca_change_format 7 (pcm16 48000 2) kAudioStreamPropertyPhysicalFormat 100
     (sample_world
        (silent_script kAudioHardwareUnsupportedOperationError noErr noErr))).2
    = w_trace (sample_world
        (silent_script kAudioHardwareUnsupportedOperationError noErr noErr))
      ++ [EvGetProperty 7 kAudioStreamPropertyPhysicalFormat;
          EvAddListener (stream_listener_entry 7 100);
          EvLog MSGL_WARN "can't add format property listener"].
Proof.
  apply (change_format_add_failure 7 (pcm16 48000 2) kAudioStreamPropertyPhysicalFormat 100
     (sample_world
        (silent_script kAudioHardwareUnsupportedOperationError noErr noErr))).
  - reflexivity.
  - reflexivity.
  - discriminate.
Defined.

(** The listeners only ever store 1: a flag that is set stays set,
    whatever the HAL's thread is notified of. *)
Lemma run_listener_keeps_set n m l p :
  m !! p = Some 1 -> run_listener n m l !! p = Some 1.
Proof.
  intros Hp. unfold run_listener. destruct (_ =? _); [|exact Hp].
  destruct l as [o a [] d]. cbn [call_proc l_proc l_data].
  unfold ca_stream_listener, ca_property_listener. cbn [snd].
  rewrite property_listener_loop_spec.
  destruct (_ && _); [|exact Hp].
  destruct (Z.eq_dec d p) as [->|Hne].
  - apply lookup_insert_eq.
  - rewrite lookup_insert_ne by exact Hne. exact Hp.
Qed.

Lemma deliver_keeps_set ls n p : forall m,
  m !! p = Some 1 -> deliver ls m n !! p = Some 1.
Proof.
  unfold deliver. induction ls as [|l ls IH]; intros m Hp; [exact Hp|].
  cbn [fold_left]. apply IH, run_listener_keeps_set, Hp.
Qed.

Lemma hal_thread_keeps_set ls ns p : forall m,
  m !! p = Some 1 -> hal_thread ls ns m !! p = Some 1.
Proof.
  unfold hal_thread. induction ns as [|n ns IH]; intros m Hp; [exact Hp|].
  cbn [fold_left]. apply IH, deliver_keeps_set, Hp.
Qed.

Lemma load_volatile_clear p w :
  flag_clear_at (w_script w) (hal_listeners (w_hal w)) p (w_reads w) ->
  w_mem w !! p = Some 0 ->
  (load_volatile p w).1 = 0 /\
  w_script (load_volatile p w).2 = w_script w /\
  w_hal (load_volatile p w).2 = w_hal w /\
  w_mem (load_volatile p w).2 !! p = Some 0 /\
  w_reads (load_volatile p w).2 = S (w_reads w) /\
  w_trace (load_volatile p w).2 = w_trace w.
Proof.
  intros N M. unfold load_volatile. cbn [fst snd w_script w_hal w_mem w_reads w_trace].
  rewrite N, M. repeat split; reflexivity.
Qed.

Lemma load_volatile_set p w :
  flag_set_at (w_script w) (hal_listeners (w_hal w)) p (w_reads w) \/
  w_mem w !! p = Some 1 ->
  (load_volatile p w).1 = 1 /\
  w_script (load_volatile p w).2 = w_script w /\
  w_hal (load_volatile p w).2 = w_hal w /\
  w_mem (load_volatile p w).2 !! p = Some 1 /\
  w_reads (load_volatile p w).2 = S (w_reads w) /\
  w_trace (load_volatile p w).2 = w_trace w.
Proof.
  intros H. unfold load_volatile. cbn [fst snd w_script w_hal w_mem w_reads w_trace].
  assert (E : hal_thread (hal_listeners (w_hal w)) (notifications (w_script w) (w_reads w))
                (w_mem w) !! p = Some 1).
  { destruct H as [H|H]; [apply H | apply hal_thread_keeps_set, H]. }
  rewrite E. repeat split; reflexivity.
Qed.

(** The loop when the flag is first seen set at its read number [n]
    (counted from 0), with [j + n <= 50]: [n] sleeps. *)
Lemma poll_loop_until_set p : forall n fuel j w,
  0 <= j -> j + Z.of_nat n <= 50 ->
  (n < fuel)%nat ->
  (forall k, (k < n)%nat ->
     flag_clear_at (w_script w) (hal_listeners (w_hal w)) p (w_reads w + k)) ->
  flag_set_at (w_script w) (hal_listeners (w_hal w)) p (w_reads w + n) ->
  w_mem w !! p = Some 0 ->
  exists w',
    poll_loop fuel p j w = (tt, w') /\
    w_script w' = w_script w /\
    w_hal w' = w_hal w /\
    w_mem w' !! p = Some 1 /\
    w_reads w' = (w_reads w + n + 1)%nat /\
    w_trace w' = w_trace w ++ replicate n (EvSleep 10000).
Proof.
  induction n as [|n IH]; intros fuel j w Hj Hn Hfuel Hclear Hset M;
    (destruct fuel as [|fuel]; [lia|]); cbn [poll_loop]; rewrite bind_run.
  - rewrite Nat.add_0_r in Hset.
    destruct (load_volatile_set p w (or_introl Hset)) as (C & S1 & H1 & M1 & R1 & T1).
    destruct (load_volatile p w) as [c w1]. cbn [fst snd] in *. subst c.
    cbn [truthy Z.eqb negb andb]. exists w1. split; [reflexivity|].
    rewrite S1, H1, R1, T1. cbn [replicate]. rewrite app_nil_r.
    repeat split; try reflexivity; try assumption. lia.
  - assert (C0 : flag_clear_at (w_script w) (hal_listeners (w_hal w)) p (w_reads w)).
    { specialize (Hclear 0%nat). rewrite Nat.add_0_r in Hclear. apply Hclear. lia. }
    destruct (load_volatile_clear p w C0 M) as (C & S1 & H1 & M1 & R1 & T1).
    destruct (load_volatile p w) as [c w1]. cbn [fst snd] in *. subst c.
    cbn [truthy Z.eqb negb andb].
    destruct (Z.ltb_spec j 50) as [_|Ge]; [|lia].
    rewrite bind_run. unfold mp_sleep_us, emit. cbn [fst snd].
    set (w2 := mkWorld _ _ _ _ _).
    destruct (IH fuel (j + 1) w2) as (w' & E & S2 & H2 & M2 & R2 & T2).
    + lia.
    + lia.
    + lia.
    + intros k Hk. subst w2. cbn [w_script w_hal w_reads]. rewrite S1, H1, R1.
      replace (S (w_reads w) + k)%nat with (w_reads w + S k)%nat by lia.
      apply Hclear. lia.
    + subst w2. cbn [w_script w_hal w_reads]. rewrite S1, H1, R1.
      replace (S (w_reads w) + n)%nat with (w_reads w + S n)%nat by lia.
      exact Hset.
    + subst w2. cbn [w_mem]. exact M1.
    + exists w'. split; [exact E|].
      rewrite S2, H2, R2, T2. subst w2.
      cbn [w_script w_hal w_mem w_reads w_trace].
      rewrite S1, H1, R1, T1.
      repeat split; try reflexivity; try assumption.
      * lia.
      * cbn [replicate]. rewrite <- app_assoc. reflexivity.
Qed.

(** The loop when the flag stays clear at each of its reads. *)
Lemma poll_loop_clear p fuel : forall j w,
  0 <= j <= 50 ->
  (Z.to_nat (50 - j) < fuel)%nat ->
  (forall k, (k < Z.to_nat (51 - j))%nat ->
     flag_clear_at (w_script w) (hal_listeners (w_hal w)) p (w_reads w + k)) ->
  w_mem w !! p = Some 0 ->
  exists w',
    poll_loop fuel p j w = (tt, w') /\
    w_script w' = w_script w /\
    w_hal w' = w_hal w /\
    w_mem w' !! p = Some 0 /\
    w_reads w' = (w_reads w + Z.to_nat (51 - j))%nat /\
    w_trace w' = w_trace w ++ replicate (Z.to_nat (50 - j)) (EvSleep 10000).
Proof.
  induction fuel as [|fuel IH]; intros j w Hj Hfuel Hclear M; [lia|].
  cbn [poll_loop]. rewrite bind_run.
  assert (C0 : flag_clear_at (w_script w) (hal_listeners (w_hal w)) p (w_reads w)).
  { specialize (Hclear 0%nat). rewrite Nat.add_0_r in Hclear. apply Hclear. lia. }
  destruct (load_volatile_clear p w C0 M) as (C & S1 & H1 & M1 & R1 & T1).
  destruct (load_volatile p w) as [c w1]. cbn [fst snd] in *. subst c.
  cbn [truthy Z.eqb negb andb].
  destruct (Z.ltb_spec j 50) as [Lt|Ge].
  - rewrite bind_run. unfold mp_sleep_us, emit. cbn [fst snd].
    set (w2 := mkWorld _ _ _ _ _).
    destruct (IH (j + 1) w2) as (w' & E & S2 & H2 & M2 & R2 & T2).
    + lia.
    + lia.
    + intros k Hk. subst w2. cbn [w_script w_hal w_reads]. rewrite S1, H1, R1.
      replace (S (w_reads w) + k)%nat with (w_reads w + S k)%nat by lia.
      apply Hclear. lia.
    + subst w2. cbn [w_mem]. exact M1.
    + exists w'. split; [exact E|].
      rewrite S2, H2, R2, T2. subst w2.
      cbn [w_script w_hal w_mem w_reads w_trace].
      rewrite S1, H1, R1, T1.
      repeat split; try reflexivity; try assumption.
      * lia.
      * replace (Z.to_nat (50 - j)) with (S (Z.to_nat (50 - (j + 1)))) by lia.
        cbn [replicate]. rewrite <- app_assoc. reflexivity.
  - assert (j = 50) by lia. subst j. exists w1.
    split; [reflexivity|].
    rewrite S1, H1, R1, T1. cbn. rewrite app_nil_r.
    repeat split; try reflexivity; try assumption. lia.
Qed.

(** X17: the format is fetched, is not yet the best match, and the add,
    set and remove requests are accepted.  If the HAL's thread leaves
    the flag clear before the first [n] reads of it and sets it before
    the next one, with [n <= 51], then [ca_change_format] sleeps
    [min n 50] times, logs no timeout, removes the listener and returns
    [true]; the flag set only before the read that follows the loop
    ([n = 51]) still counts as a confirmation. *)
Theorem change_format_confirmation stream new_format sel fmt_changed w n :
  (hal_formats (w_hal w) stream sel).1 = noErr ->
  ca_asbd_best (hal_formats (w_hal w) stream sel).2 new_format = false ->
  add_status (w_script w) = noErr ->
  set_status (w_script w) = noErr ->
  remove_status (w_script w) = noErr ->
  (n <= 51)%nat ->
  (forall k, (k < n)%nat ->
     flag_clear_at (w_script w)
       (hal_listeners (w_hal w) ++ [stream_listener_entry stream fmt_changed])
       fmt_changed (w_reads w + k)) ->
  flag_set_at (w_script w)
    (hal_listeners (w_hal w) ++ [stream_listener_entry stream fmt_changed])
    fmt_changed (w_reads w + n) ->
  (ca_change_format stream new_format sel fmt_changed w).1 = true /\
  w_trace (ca_change_format stream new_format sel fmt_changed w).2
    = w_trace w
      ++ [EvGetProperty stream sel;
          EvAddListener (stream_listener_entry stream fmt_changed);
          EvSetProperty stream sel new_format]
      ++ replicate (Nat.min n 50) (EvSleep 10000)
      ++ [EvRemoveListener (stream_listener_entry stream fmt_changed)] /\
  w_reads (ca_change_format stream new_format sel fmt_changed w).2
    = (w_reads w + Nat.min n 50 + 2)%nat /\
  hal_listeners (w_hal (ca_change_format stream new_format sel fmt_changed w).2)
    = filter (fun x => negb (listener_eqb x (stream_listener_entry stream fmt_changed)))
             (hal_listeners (w_hal w) ++ [stream_listener_entry stream fmt_changed]).
Proof.
  intros Hget Hbest Hadd Hset Hrem Hn Hclear Hflag.
  unfold ca_change_format.
  rewrite !bind_run.
  unfold store, CA_GET, CHECK_CA_WARN, check_ca_st, emit.
  cbn [fst snd w_hal w_script w_mem w_reads w_trace].
  rewrite Hget. cbn [Z.eqb noErr ret fst snd negb].
  rewrite Hbest.
  rewrite !bind_run.
  unfold ca_enable_stream_listener, ca_change_stream_listening,
    AudioObjectAddPropertyListener, set_hal, emit.
  cbn [fst snd w_hal w_script w_mem w_reads w_trace].
  rewrite Hadd. cbn [Z.eqb noErr ret fst snd negb].
  rewrite !bind_run.
  unfold CA_SET, set_hal, emit.
  cbn [fst snd w_hal w_script w_mem w_reads w_trace hal_listeners hal_formats hal_requests].
  rewrite Hset. cbn [Z.eqb noErr ret fst snd negb].
  cbn [fst snd w_hal w_script w_mem w_reads w_trace hal_listeners hal_formats hal_requests].
  rewrite !bind_run.
  set (w3 := mkWorld _ _ _ _ _).
  assert (M3 : w_mem w3 !! fmt_changed = Some 0)
    by (subst w3; cbn [w_mem]; apply lookup_insert_eq).
  assert (W4 : exists w4,
    poll_loop 51 fmt_changed 0 w3 = (tt, w4) /\
    w_script w4 = w_script w3 /\ w_hal w4 = w_hal w3 /\
    w_reads w4 = (w_reads w3 + Nat.min n 50 + 1)%nat /\
    w_trace w4 = w_trace w3 ++ replicate (Nat.min n 50) (EvSleep 10000) /\
    (flag_set_at (w_script w4) (hal_listeners (w_hal w4)) fmt_changed (w_reads w4) \/
     w_mem w4 !! fmt_changed = Some 1)).
  { destruct (Nat.le_gt_cases n 50) as [Le|Gt].
    - destruct (poll_loop_until_set fmt_changed n 51 0 w3)
        as (w4 & E4 & S4 & H4 & M4 & R4 & T4).
      + lia.
      + lia.
      + lia.
      + exact Hclear.
      + exact Hflag.
      + exact M3.
      + exists w4. rewrite Nat.min_l by lia.
        repeat split; try assumption. right. exact M4.
    - assert (n = 51)%nat by lia. subst n.
      destruct (poll_loop_clear fmt_changed 51 0 w3)
        as (w4 & E4 & S4 & H4 & M4 & R4 & T4).
      + lia.
      + simpl. lia.
      + intros k Hk. apply Hclear. simpl in Hk. lia.
      + exact M3.
      + exists w4. rewrite Nat.min_r by lia.
        repeat split; try assumption.
        * rewrite R4. simpl. lia.
        * left. rewrite S4, H4, R4. exact Hflag. }
  destruct W4 as (w4 & E4 & S4 & H4 & R4 & T4 & F4).
  rewrite E4. cbn [fst snd].
  destruct (load_volatile_set fmt_changed w4 F4) as (C5 & S5 & H5 & M5 & R5 & T5).
  destruct (load_volatile fmt_changed w4) as [c w5]. cbn [fst snd] in *. subst c.
  cbn [truthy Z.eqb negb ret fst snd].
  unfold ca_disable_stream_listener, ca_change_stream_listening,
    AudioObjectRemovePropertyListener, set_hal, emit.
  cbn [fst snd w_hal w_script w_mem w_reads w_trace hal_listeners hal_formats hal_requests].
  rewrite S5, S4. subst w3. cbn [w_script]. rewrite Hrem.
  cbn [Z.eqb noErr ret fst snd negb w_hal w_script w_mem w_reads w_trace
       hal_listeners hal_formats hal_requests].
  rewrite T5, T4, R5, R4, H5, H4.
  cbn [w_hal w_script w_mem w_reads w_trace hal_listeners hal_formats hal_requests].
  split; [reflexivity|]. split.
  { rewrite <- !app_assoc. reflexivity. }
  split; [lia | reflexivity].
Qed.

Lemma change_format_confirmation_witness :
  (ca_change_format 7 (pcm16 48000 2) kAudioStreamPropertyPhysicalFormat 100
     (sample_world (confirming_script 3))).1 = true /\
  w_trace (ca_change_format 7 (pcm16 48000 2) kAudioStreamPropertyPhysicalFormat 100
     (sample_world (confirming_script 3))).2
    = w_trace (sample_world (confirming_script 3))
      ++ [EvGetProperty 7 kAudioStreamPropertyPhysicalFormat;
          EvAddListener (stream_listener_entry 7 100);
          EvSetProperty 7 kAudioStreamPropertyPhysicalFormat (pcm16 48000 2)]
      ++ replicate (Nat.min 3 50) (EvSleep 10000)
      ++ [EvRemoveListener (stream_listener_entry 7 100)] /\
  w_reads (ca_change_format 7 (pcm16 48000 2) kAudioStreamPropertyPhysicalFormat 100
     (sample_world (confirming_script 3))).2
    = (w_reads (sample_world (confirming_script 3)) + Nat.min 3 50 + 2)%nat /\
  hal_listeners (w_hal (ca_change_format 7 (pcm16 48000 2)
     kAudioStreamPropertyPhysicalFormat 100 (sample_world (confirming_script 3))).2)
    = filter (fun x => negb (listener_eqb x (stream_listener_entry 7 100)))
             (hal_listeners (w_hal (sample_world (confirming_script 3)))
              ++ [stream_listener_entry 7 100]).
Proof.
  apply (change_format_confirmation 7 (pcm16 48000 2) kAudioStreamPropertyPhysicalFormat 100
           (sample_world (confirming_script 3)) 3).
  - reflexivity.
  - reflexivity.
  - reflexivity.
  - reflexivity.
  - reflexivity.
  - lia.
  - intros k Hk m. destruct k as [|[|[|k]]]; [reflexivity | reflexivity | reflexivity | lia].
  - intros m. cbn. apply lookup_insert_eq.
Defined.

(** ** Device locking and mixing *)

(** X18: after [ca_lock_device] and [ca_unlock_device] the cell holds
    -1.  If the lock was granted, the unlock makes one hog-mode request
    and returns its status; if it was refused, the unlock makes no
    request and returns [noErr].  A second unlock does nothing.  (The
    pid of a process is not -1.) *)
Theorem lock_then_unlock s device d :
  getpid s <> -1 ->
  dev_pid (ca_unlock_device s device (ca_lock_device s device d).2).2 = -1 /\
  ((ca_lock_device s device d).1 = noErr ->
   dev_pid (ca_lock_device s device d).2 = getpid s /\
   (ca_unlock_device s device (ca_lock_device s device d).2).1
     = hog_status s (S (length (dev_trace d))) /\
   dev_trace (ca_unlock_device s device (ca_lock_device s device d).2).2
     = dev_trace d ++ [DevSetHogMode device (getpid s); DevSetHogModeRef device]) /\
  ((ca_lock_device s device d).1 <> noErr ->
   dev_pid (ca_lock_device s device d).2 = -1 /\
   ca_unlock_device s device (ca_lock_device s device d).2
     = (noErr, (ca_lock_device s device d).2) /\
   dev_trace (ca_lock_device s device d).2
     = dev_trace d ++ [DevSetHogMode device (getpid s)]) /\
  ca_unlock_device s device (ca_unlock_device s device (ca_lock_device s device d).2).2
    = (noErr, (ca_unlock_device s device (ca_lock_device s device d).2).2).
Proof.
  intros Hpid.
  assert (Hne : (-1 =? getpid s) = false) by (apply Z.eqb_neq; congruence).
  unfold ca_lock_device.
  destruct (Z.eqb_spec (hog_status s (length (dev_trace d))) noErr) as [E|N];
    cbn [negb fst snd]; unfold ca_unlock_device; cbn [dev_pid dev_trace dev_mixing fst snd].
  - rewrite Z.eqb_refl. cbn [dev_pid dev_trace dev_mixing fst snd]. rewrite Hne.
    split; [reflexivity|]. split.
    + intros _. rewrite length_app, <- app_assoc. cbn [length app].
      rewrite Nat.add_1_r. repeat split; reflexivity.
    + split; [intros C; contradiction | reflexivity].
  - rewrite Hne. cbn [dev_pid fst snd]. rewrite Hne.
    split; [reflexivity|]. split; [intros C; contradiction|].
    split; [|reflexivity]. intros _. repeat split; reflexivity.
Qed.

Lemma lock_then_unlock_witness :
  dev_pid (ca_unlock_device willing_script 9
             (ca_lock_device willing_script 9 (mkDev 0 (Some 1) [])).2).2 = -1 /\
  ((ca_lock_device willing_script 9 (mkDev 0 (Some 1) [])).1 = noErr ->
   dev_pid (ca_lock_device willing_script 9 (mkDev 0 (Some 1) [])).2 = getpid willing_script /\
   (ca_unlock_device willing_script 9
      (ca_lock_device willing_script 9 (mkDev 0 (Some 1) [])).2).1
     = hog_status willing_script (S (length (dev_trace (mkDev 0 (Some 1) [])))) /\
   dev_trace (ca_unlock_device willing_script 9
                (ca_lock_device willing_script 9 (mkDev 0 (Some 1) [])).2).2
     = dev_trace (mkDev 0 (Some 1) [])
       ++ [DevSetHogMode 9 (getpid willing_script); DevSetHogModeRef 9]) /\
  ((ca_lock_device willing_script 9 (mkDev 0 (Some 1) [])).1 <> noErr ->
   dev_pid (ca_lock_device willing_script 9 (mkDev 0 (Some 1) [])).2 = -1 /\
   ca_unlock_device willing_script 9 (ca_lock_device willing_script 9 (mkDev 0 (Some 1) [])).2
     = (noErr, (ca_lock_device willing_script 9 (mkDev 0 (Some 1) [])).2) /\
   dev_trace (ca_lock_device willing_script 9 (mkDev 0 (Some 1) [])).2
     = dev_trace (mkDev 0 (Some 1) []) ++ [DevSetHogMode 9 (getpid willing_script)]) /\
  ca_unlock_device willing_script 9
    (ca_unlock_device willing_script 9
       (ca_lock_device willing_script 9 (mkDev 0 (Some 1) [])).2).2
    = (noErr, (ca_unlock_device willing_script 9
                 (ca_lock_device willing_script 9 (mkDev 0 (Some 1) [])).2).2).
Proof.
  apply (lock_then_unlock willing_script 9 (mkDev 0 (Some 1) [])).
  discriminate.
Defined.

(** A refused lock followed by an unlock: one request in all. *)
Example refused_lock_then_unlock :
  ca_unlock_device refusing_script 9 (ca_lock_device refusing_script 9 (mkDev 0 None [])).2
  = (noErr, mkDev (-1) None [DevSetHogMode 9 4242]).
Proof. reflexivity. Qed.

(** The cases of [ca_change_mixing]. *)
Lemma change_mixing_cases s device val d :
  ((ca_change_mixing s device val d).1.2 = true <->
   is_Some (dev_mixing d) /\
   settable_answer s (S (length (dev_trace d))) = (noErr, true) /\
   mixing_status s (S (S (length (dev_trace d)))) = noErr) /\
  ((ca_change_mixing s device val d).1.2 = true ->
   (ca_change_mixing s device val d).1.1 = noErr /\
   dev_mixing (ca_change_mixing s device val d).2 = Some val) /\
  ((ca_change_mixing s device val d).1.2 = false ->
   dev_mixing (ca_change_mixing s device val d).2 = dev_mixing d) /\
  (dev_mixing d = None \/
   settable_answer s (S (length (dev_trace d))) = (noErr, false) ->
   (ca_change_mixing s device val d).1.1 = noErr) /\
  (forall e, In e (dev_trace (ca_change_mixing s device val d).2) ->
             e = DevLog MSGL_WARN "can't set mix mode" -> In e (dev_trace d)).
Proof.
  unfold ca_change_mixing.
  rewrite !length_app. cbn [length]. rewrite !Nat.add_1_r.
  destruct (dev_mixing d) as [v|] eqn:Hm.
  2:{ cbn [fst snd dev_mixing dev_trace].
      split; [split; [discriminate | intros ([x Hx] & _); discriminate]|].
      split; [discriminate|]. split; [auto|]. split; [reflexivity|].
      intros e Hin He. apply in_app_or in Hin as [Hin|[<-|[]]]; [exact Hin | discriminate]. }
  destruct (settable_answer s (S (length (dev_trace d)))) as [st wr] eqn:Ha.
  cbn [fst snd].
  destruct (Z.eqb_spec st noErr) as [->|Nst]; cbn [negb].
  2:{ cbn [fst snd dev_mixing dev_trace].
      split; [split; [discriminate | intros (_ & E & _); congruence]|].
      split; [discriminate|]. split; [auto|].
      split; [intros [C|C]; congruence|].
      intros e Hin He. subst e.
      repeat (apply in_app_or in Hin as [Hin|Hin]); try exact Hin;
        destruct Hin as [C|[]]; discriminate C. }
  destruct wr; cbn [negb].
  2:{ cbn [fst snd dev_mixing dev_trace].
      split; [split; [discriminate | intros (_ & E & _); congruence]|].
      split; [discriminate|]. split; [auto|]. split; [reflexivity|].
      intros e Hin He. subst e.
      repeat (apply in_app_or in Hin as [Hin|Hin]); try exact Hin;
        destruct Hin as [C|[]]; discriminate C. }
  destruct (Z.eqb_spec (mixing_status s (S (S (length (dev_trace d))))) noErr) as [E|N];
    cbn [negb fst snd dev_mixing dev_trace].
  - split; [split; [intros _; repeat split; eauto | reflexivity]|].
    split; [auto|]. split; [discriminate|]. split; [reflexivity|].
    intros e Hin He. subst e.
    repeat (apply in_app_or in Hin as [Hin|Hin]); try exact Hin;
      destruct Hin as [C|[]]; discriminate C.
  - split; [split; [discriminate | intros (_ & _ & C); contradiction]|].
    split; [discriminate|]. split; [auto|].
    split; [intros [C|C]; congruence|].
    intros e Hin He. subst e.
    repeat (apply in_app_or in Hin as [Hin|Hin]); try exact Hin;
      destruct Hin as [C|[]]; discriminate C.
Qed.


(** X19: [ca_change_mixing] leaves [changed] true exactly when the
    device has the mixing property, the settable query succeeds and
    answers that it is writeable, and the set request is accepted; the
    status is then [noErr] and the property holds [val].  In every
    other case the property is what it was; a device without the
    property and a property that is not writeable give [noErr].  The
    message for a refused set request is never logged. *)
Theorem change_mixing_changed s device val d :
  ((ca_change_mixing s device val d).1.2 = true <->
   is_Some (dev_mixing d) /\
   settable_answer s (S (length (dev_trace d))) = (noErr, true) /\
   mixing_status s (S (S (length (dev_trace d)))) = noErr) /\
  ((ca_change_mixing s device val d).1.2 = true ->
   (ca_change_mixing s device val d).1.1 = noErr /\
   dev_mixing (ca_change_mixing s device val d).2 = Some val) /\
  ((ca_change_mixing s device val d).1.2 = false ->
   dev_mixing (ca_change_mixing s device val d).2 = dev_mixing d) /\
  (dev_mixing d = None \/
   settable_answer s (S (length (dev_trace d))) = (noErr, false) ->
   (ca_change_mixing s device val d).1.1 = noErr) /\
  (forall e, In e (dev_trace (ca_change_mixing s device val d).2) ->
             e = DevLog MSGL_WARN "can't set mix mode" -> In e (dev_trace d)).
Proof. apply change_mixing_cases. Qed.

(** X20: [ca_enable_mixing] touches the device only when
    [ca_disable_mixing] changed it: otherwise it makes no request and
    the property is what it was before the two calls.  When
    [ca_disable_mixing] changed it and the HAL again reports the
    property writeable and accepts the request, the property holds 1
    afterwards. *)
Theorem disable_then_enable_mixing s device d :
  ((ca_disable_mixing s device d).1.2 = false ->
   ca_enable_mixing s device (ca_disable_mixing s device d).1.2
                    (ca_disable_mixing s device d).2
     = (noErr, (ca_disable_mixing s device d).2) /\
   dev_mixing (ca_disable_mixing s device d).2 = dev_mixing d) /\
  ((ca_disable_mixing s device d).1.2 = true ->
   dev_mixing (ca_disable_mixing s device d).2 = Some 0 /\
   (settable_answer s (S (length (dev_trace (ca_disable_mixing s device d).2)))
      = (noErr, true) ->
    mixing_status s (S (S (length (dev_trace (ca_disable_mixing s device d).2)))) = noErr ->
    (ca_enable_mixing s device (ca_disable_mixing s device d).1.2
                      (ca_disable_mixing s device d).2).1 = noErr /\
    dev_mixing (ca_enable_mixing s device (ca_disable_mixing s device d).1.2
                                 (ca_disable_mixing s device d).2).2 = Some 1)).
Proof.
  unfold ca_disable_mixing.
  destruct (change_mixing_cases s device 0 d) as (_ & Ht & Hf & _).
  split.
  - intros E. split; [|apply Hf, E].
    unfold ca_enable_mixing. rewrite E. reflexivity.
  - intros E. destruct (Ht E) as [_ Hm]. split; [exact Hm|].
    intros Ha Hs. unfold ca_enable_mixing. rewrite E. cbn [fst snd].
    destruct (change_mixing_cases s device 1 (ca_change_mixing s device 0 d).2)
      as (Hiff & Ht' & _).
    apply Ht', Hiff. rewrite Hm. eauto.
Qed.

Example disable_then_enable_sample :
  ca_disable_mixing willing_script 9 (mkDev 0 (Some 1) [])
  = ((noErr, true),
     mkDev 0 (Some 0) [DevHasMixing 9; DevSettableMixing 9; DevSetMixing 9 0]) /\
  ca_enable_mixing willing_script 9 true
    (ca_disable_mixing willing_script 9 (mkDev 0 (Some 1) [])).2
  = (noErr,
     mkDev 0 (Some 1) [DevHasMixing 9; DevSettableMixing 9; DevSetMixing 9 0;
                       DevHasMixing 9; DevSettableMixing 9; DevSetMixing 9 1]) /\
  ca_disable_mixing willing_script 9 (mkDev 0 None [])
  = ((noErr, false), mkDev 0 None [DevHasMixing 9]).
Proof. repeat split; reflexivity. Qed.
(** ** The strided copy *)

Lemma memcpy_inside m dst src n a :
  dst <= a < dst + n -> memcpy m dst src n a = m (src + (a - dst)).
Proof.
  intros H. unfold memcpy.
  destruct (Z.leb_spec dst a); [|lia]. destruct (Z.ltb_spec a (dst + n)); [|lia].
  reflexivity.
Qed.

Lemma memcpy_outside m dst src n a :
  ~ (dst <= a < dst + n) -> memcpy m dst src n a = m a.
Proof.
  intros H. unfold memcpy.
  destruct (Z.leb_spec dst a); [|reflexivity].
  destruct (Z.ltb_spec a (dst + n)); [lia | reflexivity].
Qed.

(** An [int] expression whose value fits the type has that value. *)
Lemma int_wrap_small x : - 2 ^ 31 <= x < 2 ^ 31 -> int_wrap x = x.
Proof.
  intros Hx. unfold int_wrap, int_of_uint32, uint32.
  change (2 ^ 31) with 2147483648 in *. change (2 ^ 32) with 4294967296.
  destruct (Z.ltb_spec (x mod 4294967296) 2147483648);
    Z.div_mod_to_equations; lia.
Qed.

(** A count that is not negative is converted to itself. *)
Lemma size_of_int_small `{stddef_h} n :
  32 <= SIZE_WIDTH -> 0 <= n < 2 ^ 31 -> size_of_int n = n.
Proof.
  intros Hw Hn. unfold size_of_int. apply Z.mod_small.
  assert (2 ^ 32 <= 2 ^ SIZE_WIDTH) by (apply Z.pow_le_mono_r; lia).
  lia.
Qed.

(** A negative count is converted to one beyond every [int]. *)
Lemma size_of_int_negative `{stddef_h} n :
  32 <= SIZE_WIDTH -> - 2 ^ 31 <= n < 0 -> 2 ^ 31 <= size_of_int n.
Proof.
  intros Hw Hn. unfold size_of_int.
  assert (P : 2 ^ 32 <= 2 ^ SIZE_WIDTH) by (apply Z.pow_le_mono_r; lia).
  change (2 ^ 32) with (2 * 2 ^ 31) in P.
  replace (n mod 2 ^ SIZE_WIDTH) with (n + 2 ^ SIZE_WIDTH); [lia|].
  apply Z.mod_unique with (q := -1); lia.
Qed.

(** A byte outside every destination row is left as it is. *)
Lemma pic_loop_frame `{stddef_h} bpl ds ss a :
  32 <= SIZE_WIDTH -> 0 <= bpl < 2 ^ 31 ->
  forall rows m dst src,
  (forall i, (i < rows)%nat ->
     ~ (dst + Z.of_nat i * ds <= a < dst + Z.of_nat i * ds + bpl)) ->
  pic_loop rows m dst src bpl ds ss a = m a.
Proof.
  intros Hw Hb.
  induction rows as [|rows IH]; intros m dst src Hout; [reflexivity|].
  cbn [pic_loop]. rewrite size_of_int_small by assumption. rewrite IH.
  - apply memcpy_outside. specialize (Hout 0%nat). cbn in Hout.
    rewrite Z.add_0_r in Hout. apply Hout. lia.
  - intros i Hi. specialize (Hout (S i)).
    replace (dst + ds + Z.of_nat i * ds) with (dst + Z.of_nat (S i) * ds) by lia.
    apply Hout. lia.
Qed.

(** The byte [k] of row [i]: no later row overwrites it, and no earlier
    row has overwritten its source. *)
Lemma pic_loop_row `{stddef_h} bpl ds ss k :
  32 <= SIZE_WIDTH -> 0 <= bpl < 2 ^ 31 ->
  forall rows m dst src i,
  (i < rows)%nat -> 0 <= k < bpl ->
  (forall i', (i < i' < rows)%nat ->
     ~ (dst + Z.of_nat i' * ds <= dst + Z.of_nat i * ds + k
        < dst + Z.of_nat i' * ds + bpl)) ->
  (forall i', (i' < i)%nat ->
     ~ (dst + Z.of_nat i' * ds <= src + Z.of_nat i * ss + k
        < dst + Z.of_nat i' * ds + bpl)) ->
  pic_loop rows m dst src bpl ds ss (dst + Z.of_nat i * ds + k)
  = m (src + Z.of_nat i * ss + k).
Proof.
  intros Hw Hb.
  induction rows as [|rows IH]; intros m dst src i Hi Hk Hlater Hearlier; [lia|].
  cbn [pic_loop]. rewrite size_of_int_small by assumption. destruct i as [|i].
  - cbn [Z.of_nat]. rewrite !Z.mul_0_l, !Z.add_0_r.
    rewrite (pic_loop_frame bpl ds ss _ Hw Hb).
    + rewrite memcpy_inside by lia. f_equal. lia.
    + intros j Hj. specialize (Hlater (S j)).
      cbn [Z.of_nat] in Hlater. rewrite Z.mul_0_l, Z.add_0_r in Hlater.
      replace (dst + ds + Z.of_nat j * ds) with (dst + Z.of_nat (S j) * ds) by lia.
      apply Hlater. lia.
  - replace (dst + Z.of_nat (S i) * ds + k) with (dst + ds + Z.of_nat i * ds + k) by lia.
    rewrite IH.
    + replace (src + ss + Z.of_nat i * ss + k) with (src + Z.of_nat (S i) * ss + k) by lia.
      apply memcpy_outside. specialize (Hearlier 0%nat).
      cbn [Z.of_nat] in Hearlier. rewrite Z.mul_0_l, Z.add_0_r in Hearlier.
      apply Hearlier. lia.
    + lia.
    + exact Hk.
    + intros i' Hi'. specialize (Hlater (S i')).
      replace (dst + ds + Z.of_nat i' * ds) with (dst + Z.of_nat (S i') * ds) by lia.
      replace (dst + ds + Z.of_nat i * ds + k) with (dst + Z.of_nat (S i) * ds + k) by lia.
      apply Hlater. lia.
    + intros i' Hi'. specialize (Hearlier (S i')).
      replace (dst + ds + Z.of_nat i' * ds) with (dst + Z.of_nat (S i') * ds) by lia.
      replace (src + ss + Z.of_nat i * ss + k) with (src + Z.of_nat (S i) * ss + k) by lia.
      apply Hearlier. lia.
Qed.

(** X21: the row-by-row path of [memcpy_pic2] (taken when
    [limit2width] is set or the strides differ), for a [bytesPerLine]
    that is not negative.  When the destination rows overlap neither
    one another nor the source rows, every byte [k < bytesPerLine] of
    every row [i < height] of the destination is the source's, every
    byte outside the destination rows, the padding between them
    included, is left as it was, and the pointer returned is [dst].  A
    height that is not positive copies nothing. *)
Theorem memcpy_pic2_rows `{stddef_h} m dst src bytesPerLine height dstStride srcStride
  limit2width :
  32 <= SIZE_WIDTH ->
  0 <= bytesPerLine < 2 ^ 31 ->
  negb (truthy limit2width) && (dstStride =? srcStride) = false ->
  (forall i i' k k', 0 <= i < height -> 0 <= i' < height -> i <> i' ->
     0 <= k < bytesPerLine -> 0 <= k' < bytesPerLine ->
     dst + i * dstStride + k <> dst + i' * dstStride + k') ->
  (forall i i' k k', 0 <= i < height -> 0 <= i' < height ->
     0 <= k < bytesPerLine -> 0 <= k' < bytesPerLine ->
     dst + i * dstStride + k <> src + i' * srcStride + k') ->
  (memcpy_pic2 m dst src bytesPerLine height dstStride srcStride limit2width).1 = dst /\
  (forall i k, 0 <= i < height -> 0 <= k < bytesPerLine ->
     (memcpy_pic2 m dst src bytesPerLine height dstStride srcStride limit2width).2
       (dst + i * dstStride + k)
     = m (src + i * srcStride + k)) /\
  (forall a,
     (forall i, 0 <= i < height ->
        ~ (dst + i * dstStride <= a < dst + i * dstStride + bytesPerLine)) ->
     (memcpy_pic2 m dst src bytesPerLine height dstStride srcStride limit2width).2 a = m a) /\
  (height <= 0 ->
   forall a,
     (memcpy_pic2 m dst src bytesPerLine height dstStride srcStride limit2width).2 a = m a).
Proof.
  intros Hw Hb Hpath Hrows Hsrc. unfold memcpy_pic2. rewrite Hpath. cbn [fst snd].
  split; [reflexivity|]. split; [|split].
  - intros i k Hi Hk.
    replace i with (Z.of_nat (Z.to_nat i)) by lia.
    apply (pic_loop_row bytesPerLine dstStride srcStride k Hw Hb); try lia.
    + intros i' Hi' [Lo Hi2].
      apply (Hrows (Z.of_nat (Z.to_nat i)) (Z.of_nat i') k
               (dst + Z.of_nat (Z.to_nat i) * dstStride + k - (dst + Z.of_nat i' * dstStride)));
        lia.
    + intros i' Hi' [Lo Hi2].
      apply (Hsrc (Z.of_nat i') (Z.of_nat (Z.to_nat i))
               (src + Z.of_nat (Z.to_nat i) * srcStride + k - (dst + Z.of_nat i' * dstStride)) k);
        lia.
  - intros a Hout. apply (pic_loop_frame bytesPerLine dstStride srcStride a Hw Hb).
    intros i Hi. apply Hout. lia.
  - intros Hh a. replace (Z.to_nat height) with 0%nat by lia. reflexivity.
Qed.

(** Three rows of ten bytes, destination stride 16, source stride 12;
    and the same call with a height of 0. *)
Lemma memcpy_pic2_rows_witness :
  ((@memcpy_pic2 lp64 ramp 1000 0 10 3 16 12 0).1 = 1000 /\
   (forall i k, 0 <= i < 3 -> 0 <= k < 10 ->
      (@memcpy_pic2 lp64 ramp 1000 0 10 3 16 12 0).2 (1000 + i * 16 + k)
      = ramp (0 + i * 12 + k)) /\
   (forall a,
      (forall i, 0 <= i < 3 -> ~ (1000 + i * 16 <= a < 1000 + i * 16 + 10)) ->
      (@memcpy_pic2 lp64 ramp 1000 0 10 3 16 12 0).2 a = ramp a) /\
   (3 <= 0 -> forall a, (@memcpy_pic2 lp64 ramp 1000 0 10 3 16 12 0).2 a = ramp a)) /\
  ((@memcpy_pic2 lp64 ramp 1000 0 10 0 16 12 0).1 = 1000 /\
   (forall i k, 0 <= i < 0 -> 0 <= k < 10 ->
      (@memcpy_pic2 lp64 ramp 1000 0 10 0 16 12 0).2 (1000 + i * 16 + k)
      = ramp (0 + i * 12 + k)) /\
   (forall a,
      (forall i, 0 <= i < 0 -> ~ (1000 + i * 16 <= a < 1000 + i * 16 + 10)) ->
      (@memcpy_pic2 lp64 ramp 1000 0 10 0 16 12 0).2 a = ramp a) /\
   (0 <= 0 -> forall a, (@memcpy_pic2 lp64 ramp 1000 0 10 0 16 12 0).2 a = ramp a)).
Proof.
  split.
  - apply (@memcpy_pic2_rows lp64 ramp 1000 0 10 3 16 12 0).
    + discriminate.
    + split; [discriminate | reflexivity].
    + reflexivity.
    + intros i i' k k' Hi Hi' Hne Hk Hk'. lia.
    + intros i i' k k' Hi Hi' Hk Hk'. lia.
  - apply (@memcpy_pic2_rows lp64 ramp 1000 0 10 0 16 12 0).
    + discriminate.
    + split; [discriminate | reflexivity].
    + reflexivity.
    + intros i i' k k' Hi Hi' Hne Hk Hk'. lia.
    + intros i i' k k' Hi Hi' Hk Hk'. lia.
Defined.

(** X22: the single-copy path of [memcpy_pic2] (taken when
    [limit2width] is 0 and the strides are equal) ignores
    [bytesPerLine]: when the product of the stride's magnitude and the
    height fits an [int], of every row [i < height] of the destination
    all [|stride|] bytes are the source's, the padding included, for a
    positive and for a negative stride alike; every byte outside these
    rows is left as it was, and the pointer returned is [dst].  (The
    two blocks do not overlap, as [memcpy] requires.) *)
Theorem memcpy_pic2_block `{stddef_h} m dst src bytesPerLine height stride :
  32 <= SIZE_WIDTH ->
  stride <> 0 ->
  0 < height ->
  Z.abs stride * height < 2 ^ 31 ->
  (forall i i' k k', 0 <= i < height -> 0 <= i' < height ->
     0 <= k < Z.abs stride -> 0 <= k' < Z.abs stride ->
     dst + i * stride + k <> src + i' * stride + k') ->
  (memcpy_pic2 m dst src bytesPerLine height stride stride 0).1 = dst /\
  (forall i k, 0 <= i < height -> 0 <= k < Z.abs stride ->
     (memcpy_pic2 m dst src bytesPerLine height stride stride 0).2 (dst + i * stride + k)
     = m (src + i * stride + k)) /\
  (forall a,
     (forall i, 0 <= i < height ->
        ~ (dst + i * stride <= a < dst + i * stride + Z.abs stride)) ->
     (memcpy_pic2 m dst src bytesPerLine height stride stride 0).2 a = m a).
Proof.
  intros Hw Hs Hh Hfit _. unfold memcpy_pic2.
  change (truthy 0) with false. cbn [negb andb]. rewrite Z.eqb_refl.
  assert (Ha : Z.abs stride < 2 ^ 31) by nia.
  assert (Hp : (height - 1) * Z.abs stride < 2 ^ 31) by nia.
  destruct (Z.ltb_spec stride 0) as [Neg|Pos]; cbn [fst snd]; cbv zeta.
  - rewrite (int_wrap_small (height - 1)) by lia.
    rewrite (int_wrap_small ((height - 1) * stride)) by nia.
    rewrite (int_wrap_small (- stride)) by lia.
    rewrite (int_wrap_small (- stride * height)) by nia.
    rewrite size_of_int_small by (try assumption; nia).
    split; [reflexivity|]. split.
    + intros i k Hi Hk. rewrite memcpy_inside by nia. f_equal. lia.
    + intros a Hout. apply memcpy_outside. intros [Lo Hi].
      (* the row that holds [a] *)
      set (q := (a - (dst + (height - 1) * stride)) / (- stride)).
      assert (Hq : 0 <= q < height).
      { subst q. split.
        - apply Z.div_pos; lia.
        - apply Z.div_lt_upper_bound; nia. }
      pose proof (Z.div_mod (a - (dst + (height - 1) * stride)) (- stride) ltac:(lia)) as D.
      pose proof (Z.mod_pos_bound (a - (dst + (height - 1) * stride)) (- stride)
                    ltac:(lia)) as B.
      fold q in D.
      apply (Hout (height - 1 - q)); [lia|]. nia.
  - rewrite (int_wrap_small (stride * height)) by nia.
    rewrite size_of_int_small by (try assumption; nia).
    split; [reflexivity|]. split.
    + intros i k Hi Hk. rewrite memcpy_inside by nia. f_equal. lia.
    + intros a Hout. apply memcpy_outside. intros [Lo Hi].
      set (q := (a - dst) / stride).
      assert (Hq : 0 <= q < height).
      { subst q. split.
        - apply Z.div_pos; lia.
        - apply Z.div_lt_upper_bound; nia. }
      pose proof (Z.div_mod (a - dst) stride ltac:(lia)) as D.
      pose proof (Z.mod_pos_bound (a - dst) stride ltac:(lia)) as B.
      fold q in D.
      apply (Hout q); [lia|]. nia.
Qed.

(** Three rows with stride -16, whatever [bytesPerLine] says. *)
Lemma memcpy_pic2_block_witness :
  (@memcpy_pic2 lp64 ramp 1000 100 10 3 (-16) (-16) 0).1 = 1000 /\
  (forall i k, 0 <= i < 3 -> 0 <= k < Z.abs (-16) ->
     (@memcpy_pic2 lp64 ramp 1000 100 10 3 (-16) (-16) 0).2 (1000 + i * (-16) + k)
     = ramp (100 + i * (-16) + k)) /\
  (forall a,
     (forall i, 0 <= i < 3 ->
        ~ (1000 + i * (-16) <= a < 1000 + i * (-16) + Z.abs (-16))) ->
     (@memcpy_pic2 lp64 ramp 1000 100 10 3 (-16) (-16) 0).2 a = ramp a).
Proof.
  apply (@memcpy_pic2_block lp64 ramp 1000 100 10 3 (-16)).
  - discriminate.
  - lia.
  - lia.
  - reflexivity.
  - intros i i' k k' Hi Hi' Hk Hk'. change (Z.abs (-16)) with 16 in *. lia.
Defined.

(** The padding byte 12 of row 1 is copied on the single-copy path and
    kept on the row-by-row path. *)
Example padding_copied_or_kept :
  (@memcpy_pic2 lp64 ramp 1000 0 10 3 16 16 0).2 (1000 + 16 + 12) = ramp (16 + 12) /\
  (@memcpy_pic2 lp64 ramp 1000 0 10 3 16 16 1).2 (1000 + 16 + 12) = ramp (1000 + 16 + 12) /\
  (@memcpy_pic lp64 ramp 1000 0 10 3 16 16).2 (1000 + 16 + 12) = ramp (16 + 12).
Proof. repeat split; reflexivity. Qed.

(** A [bytesPerLine] of -1 is not "no bytes": the count [memcpy] is
    given is the largest [size_t], and the byte after the row's start
    is overwritten. *)
Example negative_line_is_huge :
  (@memcpy_pic2 lp64 ramp 1000 0 (-1) 1 16 12 1).2 1001 = ramp 1 /\
  @size_of_int lp64 (-1) = 2 ^ 64 - 1.
Proof. split; reflexivity. Qed.

(** ** The rendering of a four-character code *)

Example fourcc_repr_samples :
  fourcc_repr kAudioFormatLinearPCM = "'lpcm'"%string /\
  fourcc_repr kAudioStreamPropertyPhysicalFormat = "'pft '"%string /\
  fourcc_repr noErr = "0"%string /\
  fourcc_repr 4294967246 = "-50"%string /\
  fourcc_repr 1819304813 = "'lpcm'"%string.
Proof. repeat split; reflexivity. Qed.

From Stdlib Require Import DecimalPos DecimalZ.

Lemma valid_loop_four a b c d :
  valid_loop [a; b; c; d] true = isprint a && isprint b && isprint c && isprint d.
Proof. cbn [valid_loop]. destruct (isprint a), (isprint b), (isprint c), (isprint d); reflexivity. Qed.

Lemma fcc_of_bytes x :
  fcc_of x = [x / 2 ^ 24 mod 256; x / 2 ^ 16 mod 256; x / 2 ^ 8 mod 256; x mod 256].
Proof.
  unfold fcc_of. change 255 with (Z.ones 8).
  rewrite !Z.land_ones, !Z.shiftr_div_pow2 by lia. reflexivity.
Qed.

Lemma code_of_bytes x :
  0 <= x < 2 ^ 32 ->
  x = (x / 2 ^ 24 mod 256) * 2 ^ 24 + (x / 2 ^ 16 mod 256) * 2 ^ 16
      + (x / 2 ^ 8 mod 256) * 2 ^ 8 + x mod 256.
Proof.
  intros Hx. change (2 ^ 32) with 4294967296 in Hx.
  change (2 ^ 24) with 16777216. change (2 ^ 16) with 65536. change (2 ^ 8) with 256.
  Z.div_mod_to_equations. lia.
Qed.

Lemma char_of_byte_inj a b :
  0 <= a < 256 -> 0 <= b < 256 -> char_of_byte a = char_of_byte b -> a = b.
Proof.
  intros Ha Hb E. unfold char_of_byte in E.
  apply (f_equal N_of_ascii) in E.
  rewrite !N_ascii_embedding in E by lia. lia.
Qed.

Lemma to_int_not_nil u : Z.to_int u <> Decimal.Pos Decimal.Nil /\ Z.to_int u <> Decimal.Neg Decimal.Nil.
Proof.
  destruct u; cbn; split; try discriminate; intros [= E];
    exact (Unsigned.to_uint_nonnil _ E).
Qed.

Lemma decimal_inj u v :
  NilZero.string_of_int (Z.to_int u) = NilZero.string_of_int (Z.to_int v) -> u = v.
Proof.
  intros E. apply DecimalZ.to_int_inj.
  apply (f_equal NilZero.int_of_string) in E.
  destruct (to_int_not_nil u), (to_int_not_nil v).
  rewrite !NilZero.isi in E by assumption. congruence.
Qed.

Lemma decimal_no_quote u s :
  NilZero.string_of_int (Z.to_int u) <> String "'"%char s.
Proof.
  intros E. apply (f_equal NilZero.int_of_string) in E.
  destruct (to_int_not_nil u).
  rewrite NilZero.isi in E by assumption.
  cbn in E. destruct (NilEmpty.uint_of_string s); discriminate E.
Qed.

Lemma int_of_uint32_inj x y :
  0 <= x < 2 ^ 32 -> 0 <= y < 2 ^ 32 -> int_of_uint32 x = int_of_uint32 y -> x = y.
Proof.
  unfold int_of_uint32. intros Hx Hy.
  destruct (Z.ltb_spec x (2 ^ 31)), (Z.ltb_spec y (2 ^ 31)); lia.
Qed.

(** X23: [fourcc_repr] tells 32-bit codes apart: two codes with the
    same rendering are the same code, whether they render as four
    characters or as a decimal number. *)
Theorem fourcc_repr_injective x y :
  0 <= x < 2 ^ 32 -> 0 <= y < 2 ^ 32 ->
  fourcc_repr x = fourcc_repr y -> x = y.
Proof.
  intros Hx Hy. unfold fourcc_repr. rewrite !fcc_of_bytes.
  assert (Bx : forall n, 0 <= x / n mod 256 < 256) by (intros; apply Z.mod_pos_bound; lia).
  assert (By : forall n, 0 <= y / n mod 256 < 256) by (intros; apply Z.mod_pos_bound; lia).
  assert (Bx0 : 0 <= x mod 256 < 256) by (apply Z.mod_pos_bound; lia).
  assert (By0 : 0 <= y mod 256 < 256) by (apply Z.mod_pos_bound; lia).
  destruct (valid_loop [x / 2 ^ 24 mod 256; _; _; _] true),
           (valid_loop [y / 2 ^ 24 mod 256; _; _; _] true); cbn [fold_right].
  - intros [= E3 E2 E1 E0].
    apply char_of_byte_inj in E3, E2, E1, E0; try apply Bx; try apply By; try assumption.
    rewrite (code_of_bytes x Hx), (code_of_bytes y Hy). congruence.
  - intros E. symmetry in E. exfalso. exact (decimal_no_quote _ _ E).
  - intros E. exfalso. exact (decimal_no_quote _ _ E).
  - intros E. apply decimal_inj in E. apply int_of_uint32_inj; assumption.
Qed.

Lemma fourcc_repr_injective_witness : 1819304813 = kAudioFormatLinearPCM.
Proof.
  apply (fourcc_repr_injective 1819304813 kAudioFormatLinearPCM).
  - split; [discriminate | reflexivity].
  - split; [discriminate | reflexivity].
  - reflexivity.
Defined.

(** The two forms of the rendering: between quotes exactly when each of
    the four bytes is a printing character (32 to 126), and the signed
    decimal number otherwise. *)
Lemma fourcc_repr_form code :
  (forallb isprint (fcc_of code) = true ->
   fourcc_repr code
   = String "'"%char
       (fold_right (fun c s => String (char_of_byte c) s)
                   (String "'"%char EmptyString) (fcc_of code))) /\
  (forallb isprint (fcc_of code) = false ->
   fourcc_repr code = NilZero.string_of_int (Z.to_int (int_of_uint32 code))).
Proof.
  unfold fourcc_repr, fcc_of. rewrite valid_loop_four. cbn [forallb].
  rewrite andb_true_r, !andb_assoc.
  split; intros ->; reflexivity.
Qed.
